(** * Authentication and session core of the to-do application

    A shallow embedding of [src/utils/auth.ts] (password hashing, token
    signing and verification, sessions, input validation, the rate limiter)
    and of the [/api/auth/login] and [/api/auth/me] handlers, then of the
    logout and registration handlers, of the request authentication and
    the PUT and DELETE handlers of [/api/tasks], and of the in-memory
    database of [src/utils/environment.ts], followed by the properties
    stated for them.

    Conventions.
    - A JavaScript string is the list of its code units.  The model covers
      code units 0..255, which is enough for every token, key and hash the
      code builds and for the way [TextEncoder] treats non-ASCII text.  A
      password is the exception: it is a string of 16-bit code units
      ([Utf16]), since all the code does with it is to encode it.
    - A [Uint8Array] is a list of bytes; a byte and a code unit below 256
      are both an [ascii].
    - A value of a request body is a [JsValue]: [undefined], [null], a
      boolean, a number, a string, an array or an object.  A number is
      held by the digits its text is made of ([Number]).  What throws a
      TypeError returns [None].
    - [Date.now()] is an explicit argument (milliseconds, in [Z]).
    - [crypto.subtle] and [JSON] belong to the platform: they are the fields
      of the classes [WebCrypto] and [JsonCodec], with the laws the code
      relies on; so does the reading of a number from a string
      ([JsRuntime]). *)

From Stdlib Require Import ZArith NArith List String Ascii Bool Lia.
From Stdlib Require Import DecimalString DecimalZ DecimalPos.
From stdpp Require Import base option list gmap strings.
Import ListNotations.

Open Scope string_scope.
Open Scope list_scope.
Open Scope Z_scope.

Abbreviation JsString := (list ascii).
Abbreviation Uint8Array := (list ascii).

Coercion list_ascii_of_string : string >-> list.

(** ** Strings *)

Module Js.

Definition code (c : ascii) : Z := Z.of_N (N_of_ascii c).

Definition fromCode (z : Z) : ascii := ascii_of_N (Z.to_N (z mod 256)).

(** WhiteSpace and LineTerminator code units: what [trim], [\s] and
    [parseInt] skip. *)
Definition is_space (c : ascii) : bool :=
  let n := code c in
  ((9 <=? n) && (n <=? 13)) || (n =? 32) || (n =? 160).

(** LineTerminator code units: what [.] in a regular expression refuses. *)
Definition is_line_terminator (c : ascii) : bool :=
  let n := code c in (n =? 10) || (n =? 13).

Definition lower (c : ascii) : ascii :=
  let n := code c in
  if ((65 <=? n) && (n <=? 90))
     || ((192 <=? n) && (n <=? 222) && negb (n =? 215))
  then fromCode (n + 32) else c.

Definition toLowerCase (s : JsString) : JsString := map lower s.

Fixpoint trimStart (s : JsString) : JsString :=
  match s with
  | c :: s' => if is_space c then trimStart s' else s
  | [] => []
  end.

Definition trimEnd (s : JsString) : JsString := rev (trimStart (rev s)).

Definition trim (s : JsString) : JsString := trimEnd (trimStart s).

(** [s.split(sep)] for a one-character separator: never the empty list. *)
Fixpoint split (sep : ascii) (s : JsString) : list JsString :=
  match s with
  | [] => [[]]
  | c :: s' =>
      if (c =? sep)%char then [] :: split sep s'
      else match split sep s' with
           | h :: t => (c :: h) :: t
           | [] => [[c]]
           end
  end.

(** [s.replace(/c/g, d)] for single characters. *)
Definition replaceAll (c d : ascii) (s : JsString) : JsString :=
  map (fun x => if (x =? c)%char then d else x) s.

(** [s.replace(/c/g, '')]. *)
Definition removeAll (c : ascii) (s : JsString) : JsString :=
  List.filter (fun x => negb (x =? c)%char) s.

Definition eqb (s t : JsString) : bool := bool_decide (s = t).

(** [new TextEncoder().encode(s)]: UTF-8, one byte below 128 and two
    bytes from 128 to 255. *)
Definition utf8_unit (c : ascii) : Uint8Array :=
  let n := code c in
  if n <? 128 then [c]
  else [fromCode (192 + n / 64); fromCode (128 + n mod 64)].

Definition encode (s : JsString) : Uint8Array := flat_map utf8_unit s.

Definition is_ascii7 (c : ascii) : bool := code c <? 128.

(** The double quote, and a text between double quotes. *)
Definition dquote : ascii := "034"%char.

Definition quoted (s : JsString) : JsString := dquote :: s ++ [dquote].

End Js.

(** [s.startsWith(sub)], [s.includes(sub)] and [l.join(sep)]. *)
Fixpoint starts_with (sub s : JsString) : bool :=
  match sub, s with
  | [], _ => true
  | c :: sub', d :: s' => (c =? d)%char && starts_with sub' s'
  | _ :: _, [] => false
  end.

Fixpoint includes (sub s : JsString) : bool :=
  starts_with sub s
  || match s with
     | [] => false
     | _ :: s' => includes sub s'
     end.

Fixpoint join (sep : JsString) (l : list JsString) : JsString :=
  match l with
  | [] => []
  | [x] => x
  | x :: l' => x ++ sep ++ join sep l'
  end.

(** ** Strings with every code unit

    The text of a password reaches the code through [TextEncoder] alone,
    which reads all sixteen bits of a code unit.  For a password a code
    unit is therefore its two bytes, the high one first, and [encode] is
    UTF-8 as [TextEncoder] writes it: a surrogate pair is one code point
    of four bytes, a surrogate on its own is written as U+FFFD. *)
Module Utf16.

Abbreviation t := (list (ascii * ascii)).

Definition code (u : ascii * ascii) : Z := 256 * Js.code u.1 + Js.code u.2.

Definition is_high_surrogate (u : ascii * ascii) : bool :=
  (55296 <=? code u) && (code u <=? 56319).

Definition is_low_surrogate (u : ascii * ascii) : bool :=
  (56320 <=? code u) && (code u <=? 57343).

(** The UTF-8 bytes of a code point. *)
Definition utf8 (cp : Z) : Uint8Array :=
  if cp <? 128 then [Js.fromCode cp]
  else if cp <? 2048 then [Js.fromCode (192 + cp / 64); Js.fromCode (128 + cp mod 64)]
  else if cp <? 65536 then
    [Js.fromCode (224 + cp / 4096); Js.fromCode (128 + cp / 64 mod 64);
     Js.fromCode (128 + cp mod 64)]
  else
    [Js.fromCode (240 + cp / 262144); Js.fromCode (128 + cp / 4096 mod 64);
     Js.fromCode (128 + cp / 64 mod 64); Js.fromCode (128 + cp mod 64)].

(** [new TextEncoder().encode(s)]. *)
Fixpoint encode (s : t) : Uint8Array :=
  match s with
  | [] => []
  | u :: s' =>
      if is_high_surrogate u then
        match s' with
        | v :: s'' =>
            if is_low_surrogate v
            then utf8 (65536 + (code u - 55296) * 1024 + (code v - 56320))
                   ++ encode s''
            else utf8 65533 ++ encode s'
        | [] => utf8 65533
        end
      else if is_low_surrogate u then utf8 65533 ++ encode s'
      else utf8 (code u) ++ encode s'
  end.

(** A string of code units below 256, as the rest of the model has
    them. *)
Definition of_latin1 (s : JsString) : t := map (fun c => ("000"%char, c)) s.

End Utf16.

(** ** Base64: [btoa], [atob] and the URL-safe wrappers *)

Module Base64.

Inductive Sextet := Sx (b5 b4 b3 b2 b1 b0 : bool).

Definition bit (b : bool) (w : nat) : nat := if b then w else 0%nat.

Definition index (s : Sextet) : nat :=
  let 'Sx b5 b4 b3 b2 b1 b0 := s in
  (bit b5 32 + bit b4 16 + bit b3 8 + bit b2 4 + bit b1 2 + bit b0 1)%nat.

Definition alphabet : JsString :=
  "ABCDEFGHIJKLMNOPQRSTUVWXYZabcdefghijklmnopqrstuvwxyz0123456789+/".

Definition char (s : Sextet) : ascii := nth (index s) alphabet "="%char.

Definition all_sextets : list Sextet :=
  let bs := [false; true] in
  b5 ← bs; b4 ← bs; b3 ← bs; b2 ← bs; b1 ← bs; b0 ← bs;
  [Sx b5 b4 b3 b2 b1 b0].

Definition value (c : ascii) : option Sextet :=
  find (fun s => (char s =? c)%char) all_sextets.

(** The four sextets of three bytes, most significant bit first. *)
Definition sx1 (a : ascii) : Sextet :=
  let 'Ascii _ _ a2 a3 a4 a5 a6 a7 := a in Sx a7 a6 a5 a4 a3 a2.
Definition sx2 (a b : ascii) : Sextet :=
  let 'Ascii a0 a1 _ _ _ _ _ _ := a in
  let 'Ascii _ _ _ _ b4 b5 b6 b7 := b in Sx a1 a0 b7 b6 b5 b4.
Definition sx3 (b c : ascii) : Sextet :=
  let 'Ascii b0 b1 b2 b3 _ _ _ _ := b in
  let 'Ascii _ _ _ _ _ _ c6 c7 := c in Sx b3 b2 b1 b0 c7 c6.
Definition sx4 (c : ascii) : Sextet :=
  let 'Ascii c0 c1 c2 c3 c4 c5 _ _ := c in Sx c5 c4 c3 c2 c1 c0.

Fixpoint sextets_of_bytes (l : Uint8Array) : list Sextet :=
  match l with
  | [] => []
  | [a] => [sx1 a; sx2 a zero]
  | [a; b] => [sx1 a; sx2 a b; sx3 b zero]
  | a :: b :: c :: rest =>
      sx1 a :: sx2 a b :: sx3 b c :: sx4 c :: sextets_of_bytes rest
  end.

Definition padding (n : nat) : nat :=
  match (n mod 3)%nat with 0%nat => 0%nat | 1%nat => 2%nat | _ => 1%nat end.

(** [btoa(String.fromCharCode(...bytes))]. *)
Definition btoa (l : JsString) : JsString :=
  map char (sextets_of_bytes l) ++ repeat "="%char (padding (length l)).

Definition by1 (s1 s2 : Sextet) : ascii :=
  let 'Sx a7 a6 a5 a4 a3 a2 := s1 in
  let 'Sx a1 a0 _ _ _ _ := s2 in Ascii a0 a1 a2 a3 a4 a5 a6 a7.
Definition by2 (s2 s3 : Sextet) : ascii :=
  let 'Sx _ _ b7 b6 b5 b4 := s2 in
  let 'Sx b3 b2 b1 b0 _ _ := s3 in Ascii b0 b1 b2 b3 b4 b5 b6 b7.
Definition by3 (s3 s4 : Sextet) : ascii :=
  let 'Sx _ _ _ _ c7 c6 := s3 in
  let 'Sx c5 c4 c3 c2 c1 c0 := s4 in Ascii c0 c1 c2 c3 c4 c5 c6 c7.

(** Three bytes for four sextets; the bits left over at the end
    (four after two sextets, two after three) are dropped. *)
Fixpoint bytes_of_sextets (l : list Sextet) : Uint8Array :=
  match l with
  | s1 :: s2 :: s3 :: s4 :: rest =>
      by1 s1 s2 :: by2 s2 s3 :: by3 s3 s4 :: bytes_of_sextets rest
  | [s1; s2; s3] => [by1 s1 s2; by2 s2 s3]
  | [s1; s2] => [by1 s1 s2]
  | _ => []
  end.

(** ASCII whitespace, which [atob] removes first. *)
Definition is_ascii_whitespace (c : ascii) : bool :=
  let n := Js.code c in
  (n =? 9) || (n =? 10) || (n =? 12) || (n =? 13) || (n =? 32).

(** One or two [=] at the end go when the length is a multiple of 4. *)
Definition strip_padding (d : JsString) : JsString :=
  if (length d mod 4 =? 0)%nat then
    match rev d with
    | c1 :: c2 :: r =>
        if (c1 =? "=")%char then
          if (c2 =? "=")%char then rev r else rev (c2 :: r)
        else d
    | _ => d
    end
  else d.

(** [atob(data)]: [None] stands for the InvalidCharacterError it throws. *)
Definition atob (data : JsString) : option JsString :=
  let d :=
    strip_padding (List.filter (fun c => negb (is_ascii_whitespace c)) data) in
  if (length d mod 4 =? 1)%nat then None
  else bytes_of_sextets <$> mapM value d.

End Base64.

Inductive EncodeInput :=
| OfString (s : JsString)
| OfBytes (b : Uint8Array).

Definition base64UrlEncode (data : EncodeInput) : JsString :=
let bytes := match data with OfString s => Js.encode s | OfBytes b => b end in
let base64 := Base64.btoa bytes in
Js.removeAll "=" (Js.replaceAll "/" "_" (Js.replaceAll "+" "-" base64)).

(** With [asArrayBuffer] the result is the byte array of the binary string,
  without it the binary string itself: the same list here.  No UTF-8
  decoding takes place in either mode. *)
Definition base64UrlDecode (str : JsString) (asArrayBuffer : bool)
: option (list ascii) :=
let base64 := Js.replaceAll "_" "/" (Js.replaceAll "-" "+" str) in
let padded :=
  base64 ++ repeat "="%char ((4 - length base64 mod 4) mod 4)%nat in
Base64.atob padded.


(** ** The platform: [crypto.subtle] and [JSON] *)

Module JWTPayload.
Record t := mk { userId : JsString; email : JsString; exp : Z; iat : Z }.
End JWTPayload.

(** What the code takes from [crypto.subtle].
    - [hmac_key_ok k]: [importKey('raw', k, {name: 'HMAC', hash: 'SHA-256'})]
      accepts the key; a non-empty key is always accepted.
    - [hmac_sha256 k m]: the 32-byte tag [sign('HMAC', k, m)] returns, which
      [verify('HMAC', k, sig, m)] compares [sig] with.
    - [pbkdf2_sha256 pw salt iterations bits]: [deriveBits] with PBKDF2 and
      SHA-256; it returns [bits / 8] bytes. *)
Class WebCrypto := {
  hmac_key_ok : Uint8Array -> bool;
  hmac_sha256 : Uint8Array -> Uint8Array -> Uint8Array;
  pbkdf2_sha256 : Uint8Array -> Uint8Array -> Z -> Z -> Uint8Array;
  hmac_key_nonempty : forall k, k <> [] -> hmac_key_ok k = true;
  hmac_sha256_length : forall k m, length (hmac_sha256 k m) = 32%nat;
  pbkdf2_sha256_length : forall pw salt iterations bits,
    length (pbkdf2_sha256 pw salt iterations bits) = Z.to_nat (bits / 8)
}.

(** [JSON.stringify] and [JSON.parse] at the type the code gives them,
    [JWTPayload]; [None] is the SyntaxError of [JSON.parse].  Parsing the
    text of a payload gives the payload back, the text is never empty, and
    it is ASCII when the two strings of the payload are. *)
Class JsonCodec := {
  JSON_stringify : JWTPayload.t -> JsString;
  JSON_parse : JsString -> option JWTPayload.t;
  JSON_parse_stringify : forall p, JSON_parse (JSON_stringify p) = Some p;
  JSON_stringify_nonempty : forall p, JSON_stringify p <> [];
  JSON_stringify_ascii : forall p,
    forallb Js.is_ascii7 (JWTPayload.userId p) = true ->
    forallb Js.is_ascii7 (JWTPayload.email p) = true ->
    forallb Js.is_ascii7 (JSON_stringify p) = true
}.

(** ** PasswordHasher *)

Module Hex.

Definition digit (n : Z) : ascii := nth (Z.to_nat n) "0123456789abcdef" "0"%char.

(** [b.toString(16)] for a byte. *)
Definition toString16 (b : ascii) : JsString :=
  let n := Js.code b in
  if n <? 16 then [digit n] else [digit (n / 16); digit (n mod 16)].

(** [s.padStart(2, '0')]. *)
Definition padStart2 (s : JsString) : JsString :=
  repeat "0"%char (2 - length s) ++ s.

(** [Array.from(bytes).map(b => b.toString(16).padStart(2, '0')).join('')]. *)
Definition encode (bytes : Uint8Array) : JsString :=
  flat_map (fun b => padStart2 (toString16 b)) bytes.

(** [hash.match(/.{1,2}/g)]: the chunks of one or two characters, left to
    right; [.] does not match a line terminator, which ends a chunk and is
    skipped.  The empty list stands for [null]. *)
Fixpoint chunks (s : JsString) : list JsString :=
  match s with
  | [] => []
  | c1 :: t1 =>
      if Js.is_line_terminator c1 then chunks t1
      else match t1 with
           | [] => [[c1]]
           | c2 :: t2 =>
               if Js.is_line_terminator c2 then [c1] :: chunks t2
               else [c1; c2] :: chunks t2
           end
  end.

Definition value (c : ascii) : option Z :=
  let n := Js.code c in
  if (48 <=? n) && (n <=? 57) then Some (n - 48)
  else if (97 <=? n) && (n <=? 102) then Some (n - 87)
  else if (65 <=? n) && (n <=? 70) then Some (n - 55)
  else None.

(** The value of the longest prefix of hexadecimal digits, [None] when
    there is no digit. *)
Fixpoint digits (s : JsString) (acc : option Z) : option Z :=
  match s with
  | c :: s' =>
      match value c with
      | Some d => digits s' (Some (16 * default 0 acc + d))
      | None => acc
      end
  | [] => acc
  end.

(** [parseInt(s, 16)]: leading white space, a sign and a [0x] prefix are
    accepted, what follows the digits is ignored; [None] is [NaN]. *)
Definition parseInt16 (s : JsString) : option Z :=
  let s1 := Js.trimStart s in
  let '(sign, s2) :=
    match s1 with
    | c :: r =>
        if (c =? "-")%char then (-1, r)
        else if (c =? "+")%char then (1, r) else (1, s1)
    | [] => (1, s1)
    end in
  let s3 :=
    match s2 with
    | c0 :: cx :: r =>
        if (c0 =? "0")%char && ((cx =? "x")%char || (cx =? "X")%char)
        then r else s2
    | _ => s2
    end in
  (fun n => sign * n) <$> digits s3 None.

(** An element of [new Uint8Array(numbers)]: [NaN] becomes 0, any other
    number is taken modulo 256. *)
Definition toUint8 (v : option Z) : ascii :=
  match v with
  | Some z => Js.fromCode z
  | None => Js.fromCode 0
  end.

End Hex.

Section PasswordHasher.
Context {C : WebCrypto}.

(** [salt] is what [crypto.getRandomValues(new Uint8Array(16))] returned. *)
Definition hashPassword (password : Utf16.t) (salt : Uint8Array) : JsString :=
  let passwordData := Utf16.encode password in
  let hashBuffer := pbkdf2_sha256 passwordData salt 100000 256 in
  let combined := salt ++ hashBuffer in
  Hex.encode combined.

(** The loop [result |= computedHash[i] ^ storedHash[i]] over two arrays
    of the same length. *)
Definition xor_accumulate (computedHash storedHash : Uint8Array) : Z :=
  fold_left
    (fun result '(c, s) => Z.lor result (Z.lxor (Js.code c) (Js.code s)))
    (combine computedHash storedHash) 0.

(** Whatever is thrown inside the [try] block makes the result [false];
    the one thing that throws here is [null.map] when the hash has no
    chunk at all. *)
Definition verifyPassword (password : Utf16.t) (hash : JsString) : bool :=
  match Hex.chunks hash with
  | [] => false
  | matched =>
      let hashBytes := map (fun byte => Hex.toUint8 (Hex.parseInt16 byte)) matched in
      let salt := firstn 16 hashBytes in
      let storedHash := skipn 16 hashBytes in
      let passwordData := Utf16.encode password in
      let computedHash := pbkdf2_sha256 passwordData salt 100000 256 in
      if negb (length computedHash =? length storedHash)%nat then false
      else xor_accumulate computedHash storedHash =? 0
  end.

End PasswordHasher.

(** ** TokenCodec *)

Section TokenCodec.
Context {C : WebCrypto} {J : JsonCodec}.

(** [JSON.stringify({ alg: 'HS256', typ: 'JWT' })]. *)
Definition header_json : JsString :=
  "{" ++ Js.quoted "alg" ++ ":" ++ Js.quoted "HS256" ++ ","
    ++ Js.quoted "typ" ++ ":" ++ Js.quoted "JWT" ++ "}".

(** [None] when [importKey] rejects the secret. *)
Definition signMessage (message secret : JsString) : option JsString :=
  let keyData := Js.encode secret in
  let messageData := Js.encode message in
  if hmac_key_ok keyData
  then Some (base64UrlEncode (OfBytes (hmac_sha256 keyData messageData)))
  else None.

(** [None] when [atob] or [importKey] throws. *)
Definition verifySignature (message signature secret : JsString) : option bool :=
  let keyData := Js.encode secret in
  let messageData := Js.encode message in
  signatureData ← base64UrlDecode signature true;
  if hmac_key_ok keyData
  then Some (bool_decide (hmac_sha256 keyData messageData = signatureData))
  else None.

(** [payload] carries [userId] and [email]; [now_ms] is [Date.now()]. *)
Definition createJWT (userId email secret : JsString) (now_ms : Z)
  : option JsString :=
  let now := now_ms / 1000 in
  let jwtPayload :=
    {| JWTPayload.userId := userId; JWTPayload.email := email;
       JWTPayload.iat := now; JWTPayload.exp := now + 7 * 24 * 60 * 60 |} in
  let encodedHeader := base64UrlEncode (OfString header_json) in
  let encodedPayload := base64UrlEncode (OfString (JSON_stringify jwtPayload)) in
  let message := encodedHeader ++ "." ++ encodedPayload in
  signature ← signMessage message secret;
  Some (message ++ "." ++ signature).

(** [!s] for a string that may be [undefined]: here, for a segment that
    exists, the empty string. *)
Definition is_empty (s : JsString) : bool :=
  match s with [] => true | _ => false end.

Definition verifyJWT (token secret : JsString) (now_ms : Z)
  : option JWTPayload.t :=
  match Js.split "." token with
  | encodedHeader :: encodedPayload :: signature :: _ =>
      if is_empty encodedHeader || is_empty encodedPayload || is_empty signature
      then None
      else
        let message := encodedHeader ++ "." ++ encodedPayload in
        match verifySignature message signature secret with
        | Some true =>
            match base64UrlDecode encodedPayload false with
            | Some text =>
                match JSON_parse text with
                | Some payload =>
                    if JWTPayload.exp payload <? now_ms / 1000 then None
                    else Some payload
                | None => None
                end
            | None => None
            end
        | _ => None
        end
  | _ => None
  end.

End TokenCodec.

(** ** Key-value store and sessions *)

Module KV.

Record item := { value : JsString; expires : option Z }.

Abbreviation store := (gmap JsString item).

(** An entry past its expiry is deleted by the read that finds it. *)
Definition get (key : JsString) (now_ms : Z) (s : store)
  : store * option JsString :=
  match s !! key with
  | None => (s, None)
  | Some it =>
      match expires it with
      | Some e =>
          if negb (e =? 0) && (now_ms >? e) then (delete key s, None)
          else (s, Some (value it))
      | None => (s, Some (value it))
      end
  end.

Definition put (key val : JsString) (expirationTtl : option Z) (now_ms : Z)
  (s : store) : store :=
  let it :=
    match expirationTtl with
    | Some ttl =>
        if ttl =? 0 then {| value := val; expires := None |}
        else {| value := val; expires := Some (now_ms + ttl * 1000) |}
    | None => {| value := val; expires := None |}
    end in
  <[key := it]> s.

Definition delete (key : JsString) (s : store) : store := base.delete key s.

End KV.

Definition session_key (token : JsString) : JsString := "session:" ++ token.

Definition createSession (kv : KV.store) (userId token : JsString) (now_ms : Z)
  : KV.store :=
  KV.put (session_key token) userId (Some (7 * 24 * 60 * 60)) now_ms kv.

Definition getSessionUser (kv : KV.store) (token : JsString) (now_ms : Z)
  : KV.store * option JsString :=
  KV.get (session_key token) now_ms kv.

Definition deleteSession (kv : KV.store) (token : JsString) : KV.store :=
  KV.delete (session_key token) kv.

(** ** Credential records *)

Module User.

(** A row of the [users] table ([AuthUser]). *)
Record t := {
  id : JsString;
  email : JsString;
  password_hash : JsString;
  display_name : JsString;
  created_at : JsString;
  updated_at : JsString;
  is_active : bool
}.

End User.

(** The [users] table, in the order a query returns its rows. *)
Abbreviation D1Database := (list User.t).

(** [SELECT * FROM users WHERE email = ? AND is_active = 1], [first()]. *)
Definition getUserByEmail (db : D1Database) (email : JsString) : option User.t :=
  find (fun u => Js.eqb (User.email u) email && User.is_active u) db.

(** [SELECT ... FROM users WHERE id = ? AND is_active = 1], [first()]. *)
Definition getUserById (db : D1Database) (id : JsString) : option User.t :=
  find (fun u => Js.eqb (User.id u) id && User.is_active u) db.

(** ** Values

    What [request.json()] returns and what a member of it holds:
    [undefined] for a member that is absent, [null], a boolean, a number,
    a string, an array or an object. *)

Module Number.

(** The decimal digits of an integer.  This is [String(n)] for an integer
    of magnitude below 10^21 that a number holds exactly, as the seconds,
    minutes and bounds printed below are. *)
Definition dec (n : Z) : JsString := NilZero.string_of_int (Z.to_int n).

(** A number other than [NaN]: zero (of either sign, which nothing here
    tells apart), an infinity (the text [1e999] is read as one), or the
    finite number [s * 10^(n - k)], negated when [negative], where the
    [k] digits of [s] are the ones [Number::toString] works from: the
    fewest that identify the number, so that [s] does not end in 0.
    [12345] is [s = 12345] with [n = 5], [1500] is [s = 15] with [n = 4],
    [1.5] is [s = 15] with [n = 1], [1e21] is [s = 1] with [n = 22]. *)
Inductive t :=
| Zero
| Infinite (negative : bool)
| Finite (negative : bool) (s : positive) (n : Z).

Definition one : t := Finite false 1 1.

Definition sign (negative : bool) : JsString :=
  if negative then "-" : JsString else [].

(** [Number::toString] in radix 10. *)
Definition toString (x : t) : JsString :=
  match x with
  | Zero => "0"
  | Infinite negative => sign negative ++ "Infinity"
  | Finite negative s n =>
      let digits := dec (Zpos s) in
      let k := Z.of_nat (length digits) in
      sign negative
        ++ (if (k <=? n) && (n <=? 21)
            then digits ++ repeat "0"%char (Z.to_nat (n - k))
            else if (0 <? n) && (n <=? 21)
            then firstn (Z.to_nat n) digits ++ "." ++ skipn (Z.to_nat n) digits
            else if (-6 <? n) && (n <=? 0)
            then "0." ++ repeat "0"%char (Z.to_nat (- n)) ++ digits
            else
              let exponent :=
                (if n - 1 <? 0 then "-" : JsString else "+")
                  ++ dec (Z.abs (n - 1)) in
              match digits with
              | [] => []
              | [d] => d :: "e" ++ exponent
              | d :: more => d :: "." ++ more ++ "e" ++ exponent
              end)
  end.

(** The number against an integer.  The code compares the numbers
    themselves, of which [s] holds the identifying digits; against an
    integer below 2^53 in magnitude, as the bounds of the rules are, the
    outcome is the same, since such an integer is a number and no other
    number is identified by digits on the far side of it. *)
Definition compare (x : t) (z : Z) : comparison :=
  match x with
  | Zero => 0 ?= z
  | Infinite negative => if negative then Lt else Gt
  | Finite negative s n =>
      let k := Z.of_nat (length (dec (Zpos s))) in
      let m := if negative then Zneg s else Zpos s in
      if k <=? n then m * 10 ^ (n - k) ?= z else m ?= z * 10 ^ (k - n)
  end.

Definition ltb (x : t) (z : Z) : bool :=
  match compare x z with Lt => true | _ => false end.

Definition gtb (x : t) (z : Z) : bool :=
  match compare x z with Gt => true | _ => false end.

End Number.

#[global] Instance Number_eq_dec : EqDecision Number.t.
Proof. solve_decision. Defined.

#[warnings="-register-all"]
Inductive JsValue :=
| JUndefined
| JNull
| JBool (b : bool)
| JNum (x : Number.t)
| JStr (s : JsString)
| JArr (items : list JsValue)
| JObj (members : list (JsString * JsValue)).

(** What the code takes from the language beyond the operations written
    out here: [StringToNumber s] is the number a comparison reads from
    the string [s], [None] for [NaN]. *)
Class JsRuntime := {
  StringToNumber : JsString -> option Number.t
}.

Module Value.

Definition truthy (v : JsValue) : bool :=
  match v with
  | JBool b => b
  | JNum x => negb (bool_decide (x = Number.Zero))
  | JStr s => negb (is_empty s)
  | JUndefined | JNull => false
  | JArr _ | JObj _ => true
  end.

(** The members of an object are in the order of the text; [JSON.parse]
    keeps the last of those with one name. *)
Definition own (members : list (JsString * JsValue)) (name : JsString)
  : option JsValue :=
  snd <$> find (fun member => Js.eqb member.1 name) (rev members).

(** [String(v)], which is also [v.toString()] for a value that has the
    method and what [RegExp.prototype.test] and [TextEncoder] make of
    their argument; [None] is a TypeError.  An array is the [join] of its
    elements, where [null] and [undefined] count as the empty string.  An
    object is [[object Object]], unless it has a member [toString] of its
    own: what [JSON.parse] has put there is not a function. *)
Fixpoint toString (v : JsValue) : option JsString :=
  match v with
  | JUndefined => Some ("undefined" : JsString)
  | JNull => Some ("null" : JsString)
  | JBool b => Some (if b then "true" : JsString else "false")
  | JNum x => Some (Number.toString x)
  | JStr s => Some s
  | JArr items =>
      join "," <$>
        (fix elements (l : list JsValue) : option (list JsString) :=
           match l with
           | [] => Some []
           | item :: l' =>
               text ← match item with
                      | JUndefined | JNull => Some []
                      | _ => toString item
                      end;
               rest ← elements l';
               Some (text :: rest)
           end) items
  | JObj members =>
      match own members "toString" with
      | Some _ => None
      | None => Some ("[object Object]" : JsString)
      end
  end.

(** What [TextEncoder.encode] reads from its argument: the empty string
    when the argument is [undefined], as when there is none, and
    [String(v)] otherwise. *)
Definition encoded_text (v : JsValue) : option JsString :=
  match v with
  | JUndefined => Some []
  | _ => toString v
  end.

(** [value.length]: the count of a string or of an array, the member of
    that name of an object, [undefined] of anything else. *)
Inductive Length :=
| Count (n : Z)
| Member (w : JsValue).

Definition length_of (v : JsValue) : Length :=
  match v with
  | JStr s => Count (Z.of_nat (length s))
  | JArr items => Count (Z.of_nat (length items))
  | JObj members => Member (default JUndefined (own members "length"))
  | _ => Member JUndefined
  end.

(** [data[field]]. *)
Definition field_of (data : gmap JsString JsValue) (field : JsString) : JsValue :=
  default JUndefined (data !! field).

(** [a === b], which is also how a [Map] compares its keys.  Two arrays
    or two objects are the same only when they are one object; those of
    one request are never those of another, and so they count as
    different here. *)
Definition same (a b : JsValue) : bool :=
  match a, b with
  | JUndefined, JUndefined | JNull, JNull => true
  | JBool x, JBool y => bool_decide (x = y)
  | JNum x, JNum y => bool_decide (x = y)
  | JStr x, JStr y => Js.eqb x y
  | _, _ => false
  end.

Section Comparison.
Context {R : JsRuntime}.

(** ToNumber, after ToPrimitive for an array or an object: the outer
    [None] is a TypeError, the inner one [NaN]. *)
Definition toNumber (w : JsValue) : option (option Number.t) :=
  match w with
  | JUndefined => Some None
  | JNull => Some (Some Number.Zero)
  | JBool b => Some (Some (if b then Number.one else Number.Zero))
  | JNum x => Some (Some x)
  | JStr s => Some (StringToNumber s)
  | JArr _ | JObj _ => StringToNumber <$> toString w
  end.

(** [value.length < n] and [value.length > n]; a comparison with [NaN]
    is false. *)
Definition length_lt (v : JsValue) (n : Z) : option bool :=
  match length_of v with
  | Count len => Some (len <? n)
  | Member w =>
      (fun x => match x with Some x => Number.ltb x n | None => false end)
        <$> toNumber w
  end.

Definition length_gt (v : JsValue) (n : Z) : option bool :=
  match length_of v with
  | Count len => Some (len >? n)
  | Member w =>
      (fun x => match x with Some x => Number.gtb x n | None => false end)
        <$> toNumber w
  end.

End Comparison.

End Value.

(** ** InputValidator *)

(** Regular expressions over code units, matched against the whole
    string (the patterns below are anchored at both ends). *)
Module Regex.

Inductive t :=
| Void
| Eps
| Class (p : ascii -> bool)
| Seq (r1 r2 : t)
| Alt (r1 r2 : t)
| Star (r : t).

Definition Plus (r : t) : t := Seq r (Star r).

Fixpoint nullable (r : t) : bool :=
  match r with
  | Void => false
  | Eps => true
  | Class _ => false
  | Seq r1 r2 => nullable r1 && nullable r2
  | Alt r1 r2 => nullable r1 || nullable r2
  | Star _ => true
  end.

Fixpoint deriv (c : ascii) (r : t) : t :=
  match r with
  | Void => Void
  | Eps => Void
  | Class p => if p c then Eps else Void
  | Seq r1 r2 =>
      if nullable r1 then Alt (Seq (deriv c r1) r2) (deriv c r2)
      else Seq (deriv c r1) r2
  | Alt r1 r2 => Alt (deriv c r1) (deriv c r2)
  | Star r1 => Seq (deriv c r1) (Star r1)
  end.

Definition test (r : t) (s : JsString) : bool :=
  nullable (fold_left (fun r c => deriv c r) s r).

End Regex.

(** [[^\s@]]. *)
Definition not_space_at (c : ascii) : bool :=
  negb (Js.is_space c || (c =? "@")%char).

(** [/^[^\s@]+@[^\s@]+\.[^\s@]+$/]. *)
Definition email_regex : Regex.t :=
  Regex.Seq (Regex.Plus (Regex.Class not_space_at))
    (Regex.Seq (Regex.Class (fun c => (c =? "@")%char))
       (Regex.Seq (Regex.Plus (Regex.Class not_space_at))
          (Regex.Seq (Regex.Class (fun c => (c =? ".")%char))
             (Regex.Plus (Regex.Class not_space_at))))).

Inductive RuleType := TString | TEmail | TNumber.

(** An absent [required] is [false]; [pattern] is [pattern.test]. *)
Record ValidationRule := {
  field : JsString;
  required : bool;
  type : option RuleType;
  minLength : option Z;
  maxLength : option Z;
  pattern : option (JsString -> bool)
}.

Record ValidationResult := { isValid : bool; errors : list JsString }.

(** What [validateInput] returns when no rule has pushed a message. *)
Definition accepted : ValidationResult := {| isValid := true; errors := [] |}.

Section InputValidator.
Context {R : JsRuntime}.

(** [n && value.length < n]: false when [n] is absent or 0, without a
    look at the value; [None] is a TypeError. *)
Definition length_below (v : JsValue) (bound : option Z) : option bool :=
  match bound with
  | Some n => if n =? 0 then Some false else Value.length_lt v n
  | None => Some false
  end.

Definition length_above (v : JsValue) (bound : option Z) : option bool :=
  match bound with
  | Some n => if n =? 0 then Some false else Value.length_gt v n
  | None => Some false
  end.

(** The messages one rule pushes: the body of the [for] loop.  [None]
    is a TypeError, thrown by [value.toString()], by [test] or by a
    comparison. *)
Definition rule_errors (data : gmap JsString JsValue) (rule : ValidationRule)
  : option (list JsString) :=
  let value := Value.field_of data (field rule) in
  if negb (Value.truthy value) then
    Some (if required rule then [field rule ++ " is required"] else [])
  else
    blank ←
      (if required rule
       then (fun text => is_empty (Js.trim text)) <$> Value.toString value
       else Some false);
    if blank : bool then Some [field rule ++ " is required"]
    else
      notEmail ←
        match type rule with
        | Some TEmail =>
            (fun text => negb (Regex.test email_regex text))
              <$> Value.toString value
        | _ => Some false
        end;
      tooShort ← length_below value (minLength rule);
      tooLong ← length_above value (maxLength rule);
      mismatch ←
        match pattern rule with
        | Some test => (fun text => negb (test text)) <$> Value.toString value
        | None => Some false
        end;
      Some
        ((if notEmail : bool
          then [field rule ++ " must be a valid email"] else [])
         ++ (if tooShort : bool
             then [field rule ++ " must be at least "
                     ++ Number.dec (default 0 (minLength rule)) ++ " characters"]
             else [])
         ++ (if tooLong : bool
             then [field rule ++ " must not exceed "
                     ++ Number.dec (default 0 (maxLength rule)) ++ " characters"]
             else [])
         ++ (if mismatch : bool
             then [field rule ++ " format is invalid"] else [])).

(** [None] when a rule has thrown. *)
Definition validateInput (data : gmap JsString JsValue)
  (rules : list ValidationRule) : option ValidationResult :=
  pushed ← mapM (rule_errors data) rules;
  let errors := concat pushed in
  Some {| isValid := (length errors =? 0)%nat; errors := errors |}.

End InputValidator.

(** ** RateLimiter *)

Module RateLimiter.

Record window := { count : Z; resetTime : Z }.

Abbreviation attempts := (gmap JsString window).

Definition checkRate (key : JsString) (maxAttempts windowMs now : Z)
  (a : attempts) : bool * attempts :=
  match a !! key with
  | None => (true, <[key := {| count := 1; resetTime := now + windowMs |}]> a)
  | Some record =>
      if now >? resetTime record
      then (true, <[key := {| count := 1; resetTime := now + windowMs |}]> a)
      else if count record >=? maxAttempts then (false, a)
      else (true, <[key := {| count := count record + 1;
                              resetTime := resetTime record |}]> a)
  end.

Definition getRemainingTime (key : JsString) (now : Z) (a : attempts) : Z :=
  match a !! key with
  | None => 0
  | Some record => Z.max 0 (resetTime record - now)
  end.

End RateLimiter.

(** ** AuthFlowController *)

(** What a handler throws: a [SecurityError], or anything else
    (a TypeError, a SyntaxError of [request.json()], ...). *)
Inductive Thrown :=
| SecurityError (code : string) (statusCode : Z) (userMessage : JsString)
| OtherError.

Inductive Body :=
| UserBody (id email displayName createdAt updatedAt : JsString)
| LoginBody (message : JsString) (id email displayName : JsString)
| ErrorBody (error : JsString).

(** The security headers are the same on every response and are left out;
    so is the random [requestId] of an error body. *)
Record Response := {
  status : Z;
  body : Body;
  setCookie : option JsString
}.

Definition handleApiError (error : Thrown) : Response :=
  match error with
  | SecurityError _ statusCode userMessage =>
      {| status := statusCode; body := ErrorBody userMessage; setCookie := None |}
  | OtherError =>
      {| status := 500; body := ErrorBody "Internal server error";
         setCookie := None |}
  end.

Record EnvironmentAdapter := {
  db : D1Database;
  kv : KV.store;
  jwtSecret : JsString;
  environment : JsString
}.

(** The same environment over another state of the key-value store. *)
Definition with_kv (k : KV.store) (e : EnvironmentAdapter) : EnvironmentAdapter :=
  {| db := db e; kv := k; jwtSecret := jwtSecret e;
     environment := environment e |}.

(** The [reduce] over [cookieHeader.split(';')]: [acc[key] = value], where
    [value] is [undefined] for a part without [=]. *)
Definition parseCookies (cookieHeader : JsString)
  : gmap JsString (option JsString) :=
  fold_left
    (fun acc cookie =>
       match Js.split "=" (Js.trim cookie) with
       | key :: rest => <[key := head rest]> acc
       | [] => acc
       end)
    (Js.split ";" cookieHeader) ∅.

Definition cookie_token (cookieHeader : JsString) : option JsString :=
  mjoin (parseCookies cookieHeader !! ("auth-token" : JsString)).

(** A handler runs over a state [S]: it ends in a state, with what was
    thrown or with a value.  The state of the whoami handler is the
    key-value store, the state of the login handler the whole server. *)
Module Handler.

Definition t (S A : Type) : Type := S -> S * (Thrown + A).

Definition ret {S A : Type} (a : A) : t S A := fun s => (s, inr a).

Definition throw {S A : Type} (e : Thrown) : t S A := fun s => (s, inl e).

Definition bind {S A B : Type} (m : t S A) (k : A -> t S B) : t S B :=
  fun s =>
    match m s with
    | (s', inr a) => k a s'
    | (s', inl e) => (s', inl e)
    end.

Definition get {S : Type} : t S S := fun s => (s, inr s).

(** A call that changes the state and returns a value. *)
Definition call {S A : Type} (f : S -> S * A) : t S A :=
  fun s => let '(s', a) := f s in (s', inr a).

(** [if (!x) throw e] for a string that may be [null] or [undefined]. *)
Definition truthy {S : Type} (x : option JsString) (e : Thrown) : t S JsString :=
  match x with
  | Some (c :: s) => ret (c :: s)
  | Some [] | None => throw e
  end.

(** [if (!x) throw e] for an object that may be [null]. *)
Definition present {S A : Type} (x : option A) (e : Thrown) : t S A :=
  match x with
  | Some a => ret a
  | None => throw e
  end.

(** [if (b) throw e]. *)
Definition throw_if {S : Type} (b : bool) (e : Thrown) : t S unit :=
  if b then throw e else ret tt.

End Handler.

#[global] Instance handler_ret {S : Type} : MRet (Handler.t S) :=
  fun A a => Handler.ret a.

#[global] Instance handler_bind {S : Type} : MBind (Handler.t S) :=
  fun A B k m => Handler.bind m k.

Section AuthFlowController.
Context {C : WebCrypto} {J : JsonCodec} {R : JsRuntime}.

(** [!sessionUserId || sessionUserId !== payload.userId]. *)
Definition session_mismatch (sessionUserId : option JsString)
  (userId : JsString) : bool :=
  match sessionUserId with
  | Some (c :: s) => negb (Js.eqb (c :: s) userId)
  | Some [] | None => true
  end.

(** [GET /api/auth/me], the [try] block, over the key-value store (a read
    may drop an expired entry).  [cookie] is
    [request.headers.get('Cookie')]. *)
Definition me_handler (env : EnvironmentAdapter) (cookie : option JsString)
  (now_ms : Z) : Handler.t KV.store Response :=
  (cookieHeader ←
     Handler.truthy cookie
       (SecurityError "NO_AUTH_COOKIE" 401 "Authentication required");
   token ←
     Handler.truthy (cookie_token cookieHeader)
       (SecurityError "NO_AUTH_TOKEN" 401 "Authentication required");
   payload ←
     Handler.present (verifyJWT token (jwtSecret env) now_ms)
       (SecurityError "INVALID_TOKEN" 401
          "Invalid or expired authentication token");
   sessionUserId ←
     Handler.call (fun store => getSessionUser store token now_ms);
   Handler.throw_if
     (session_mismatch sessionUserId (JWTPayload.userId payload))
     (SecurityError "SESSION_NOT_FOUND" 401 "Session has expired");;
   user ←
     Handler.present (getUserById (db env) (JWTPayload.userId payload))
       (SecurityError "USER_NOT_FOUND" 404 "User account not found");
   Handler.throw_if (negb (User.is_active user))
     (SecurityError "USER_DEACTIVATED" 403 "User account has been deactivated");;
   Handler.ret
     {| status := 200;
        body := UserBody (User.id user) (User.email user)
                  (User.display_name user) (User.created_at user)
                  (User.updated_at user);
        setCookie := None |}).

(** The handler run on the store of the environment. *)
Definition me_try (env : EnvironmentAdapter) (cookie : option JsString)
  (now_ms : Z) : KV.store * (Thrown + Response) :=
  me_handler env cookie now_ms (kv env).

(** The [catch]: what is thrown becomes a response. *)
Definition me_GET (env : EnvironmentAdapter) (cookie : option JsString)
  (now_ms : Z) : KV.store * Response :=
  match me_try env cookie now_ms with
  | (kv', inl error) => (kv', handleApiError error)
  | (kv', inr response) => (kv', response)
  end.

(** The state a login request reads and writes. *)
Record Server := {
  limiter : RateLimiter.attempts;
  env : EnvironmentAdapter
}.

Definition login_rules : list ValidationRule :=
  [ {| field := "email"; required := true; type := Some TEmail;
       minLength := None; maxLength := Some 255; pattern := None |};
    {| field := "password"; required := true; type := None;
       minLength := Some 1; maxLength := Some 128; pattern := None |} ].

(** [Math.ceil(ms / 60000)]. *)
Definition ceil_minutes (ms : Z) : Z := - ((- ms) / 60000).

Definition set_limiter (a : RateLimiter.attempts) (s : Server) : Server :=
  {| limiter := a; env := env s |}.

Definition set_kv (k : KV.store) (s : Server) : Server :=
  {| limiter := limiter s; env := with_kv k (env s) |}.

(** [rateLimiter.checkRate(key, maxAttempts, windowMs)] on the limiter of
    the server. *)
Definition checkRate (key : JsString) (maxAttempts windowMs now_ms : Z)
  : Handler.t Server bool :=
  Handler.call
    (fun s =>
       let '(allowed, a) :=
         RateLimiter.checkRate key maxAttempts windowMs now_ms (limiter s) in
       (set_limiter a s, allowed)).

(** [request.headers.get('CF-Connecting-IP') || 'unknown']. *)
Definition clientIP_of (ip : option JsString) : JsString :=
  match ip with
  | None | Some [] => "unknown"
  | Some address => address
  end.

Definition rateLimitKey (clientIP : JsString) : JsString := "login:" ++ clientIP.

Definition emailRateLimitKey (email : JsString) : JsString :=
  "login:email:" ++ Js.toLowerCase email.

(** [email.toLowerCase()] is a TypeError when [email] is not a string. *)
Definition as_string {S : Type} (v : JsValue) : Handler.t S JsString :=
  match v with
  | JStr s => Handler.ret s
  | _ => Handler.throw OtherError
  end.

(** [verifyPassword(password, hash)] for a [password] of any type:
    [TextEncoder] makes a string of it ([Value.encoded_text]) inside the
    [try] block, where a TypeError gives [false] like any other. *)
Definition verifyPassword_value (password : JsValue) (hash : JsString) : bool :=
  match Value.encoded_text password with
  | Some text => verifyPassword (Utf16.of_latin1 text) hash
  | None => false
  end.

(** [POST /api/auth/login], the [try] block.  [ip] is the
    [CF-Connecting-IP] header, [requestData] the object [request.json()]
    returns: [None] when it throws or returns [null], whose members
    cannot be read; a body that is not an object has no member of the
    names read here, like the empty object.  The delay before
    [INVALID_CREDENTIALS] has no effect on the result and is left out. *)
Definition login_handler (ip : option JsString)
  (requestData : option (gmap JsString JsValue)) (now_ms : Z)
  : Handler.t Server Response :=
  (let clientIP := clientIP_of ip in
   isAllowed ← checkRate (rateLimitKey clientIP) 10 (15 * 60 * 1000) now_ms;
   s1 ← Handler.get;
   Handler.throw_if (negb isAllowed)
     (SecurityError "RATE_LIMIT_EXCEEDED" 429
        ("Too many login attempts. Try again in "
           ++ Number.dec
                (ceil_minutes
                   (RateLimiter.getRemainingTime (rateLimitKey clientIP) now_ms
                      (limiter s1)))
           ++ " minutes."));;
   data ← Handler.present requestData OtherError;
   let email := Value.field_of data "email" in
   let password := Value.field_of data "password" in
   validation ← Handler.present (validateInput data login_rules) OtherError;
   Handler.throw_if (negb (isValid validation))
     (SecurityError "VALIDATION_ERROR" 400 "Invalid email or password");;
   email ← as_string email;
   emailAllowed ← checkRate (emailRateLimitKey email) 5 (15 * 60 * 1000) now_ms;
   Handler.throw_if (negb emailAllowed)
     (SecurityError "EMAIL_RATE_LIMIT_EXCEEDED" 429
        "Too many attempts for this email. Please try again later.");;
   s2 ← Handler.get;
   user ←
     Handler.present
       (getUserByEmail (db (env s2)) (Js.trim (Js.toLowerCase email)))
       (SecurityError "INVALID_CREDENTIALS" 401 "Invalid email or password");
   Handler.throw_if
     (negb (verifyPassword_value password (User.password_hash user)))
     (SecurityError "INVALID_CREDENTIALS" 401 "Invalid email or password");;
   token ←
     Handler.present
       (createJWT (User.id user) (User.email user) (jwtSecret (env s2)) now_ms)
       OtherError;
   Handler.call
     (fun s =>
        (set_kv (createSession (kv (env s)) (User.id user) token now_ms) s, tt));;
   let isProduction := Js.eqb (environment (env s2)) "production" in
   let cookie :=
     "auth-token=" ++ token ++ "; HttpOnly; "
       ++ (if isProduction then "Secure;" : JsString else [])
       ++ " SameSite=Strict; Path=/; Max-Age=" ++ Number.dec (7 * 24 * 60 * 60) in
   Handler.ret
     {| status := 200;
        body := LoginBody "Login successful" (User.id user) (User.email user)
                  (User.display_name user);
        setCookie := Some cookie |}).

Definition login_try (s : Server) (ip : option JsString)
  (requestData : option (gmap JsString JsValue)) (now_ms : Z)
  : Server * (Thrown + Response) :=
  login_handler ip requestData now_ms s.

Definition login_POST (s : Server) (ip : option JsString)
  (requestData : option (gmap JsString JsValue)) (now_ms : Z)
  : Server * Response :=
  match login_try s ip requestData now_ms with
  | (s', inl error) => (s', handleApiError error)
  | (s', inr response) => (s', response)
  end.

End AuthFlowController.

(** ** A reference platform

    [JSON.stringify] on a payload object and a parser for the texts it
    produces, with two stand-ins for HMAC-SHA256 and PBKDF2 (which are not
    computed here).  They show that the laws of [WebCrypto] and
    [JsonCodec] can be met and let the code run on concrete inputs. *)

Module Json.

Definition hex4 (n : Z) : JsString :=
  [Hex.digit (n / 4096 mod 16); Hex.digit (n / 256 mod 16);
   Hex.digit (n / 16 mod 16); Hex.digit (n mod 16)].

(** QuoteJSONString, one code unit. *)
Definition quote_unit (c : ascii) : JsString :=
  let n := Js.code c in
  if n =? 8 then "\b"
  else if n =? 9 then "\t"
  else if n =? 10 then "\n"
  else if n =? 12 then "\f"
  else if n =? 13 then "\r"
  else if n =? 34 then ["\"%char; Js.dquote]
  else if n =? 92 then "\\"
  else if n <? 32 then "\u" ++ hex4 n
  else [c].

Definition quote (s : JsString) : JsString :=
  [Js.dquote] ++ flat_map quote_unit s ++ [Js.dquote].

(** The name of a member with its colon. *)
Definition member (name : JsString) : JsString := Js.quoted name ++ ":".

(** [JSON.stringify({ userId, email, iat, exp })]. *)
Definition stringify (p : JWTPayload.t) : JsString :=
  "{" ++ member "userId" ++ quote (JWTPayload.userId p)
    ++ "," ++ member "email" ++ quote (JWTPayload.email p)
    ++ "," ++ member "iat" ++ Number.dec (JWTPayload.iat p)
    ++ "," ++ member "exp" ++ Number.dec (JWTPayload.exp p) ++ "}".

(** [s] without the prefix [lit]. *)
Fixpoint expect (lit s : JsString) : option JsString :=
  match lit, s with
  | [], _ => Some s
  | l :: lit', c :: s' => if (l =? c)%char then expect lit' s' else None
  | _ :: _, [] => None
  end.

Definition unescape (e : ascii) : option ascii :=
  let n := Js.code e in
  if n =? 34 then Some Js.dquote
  else if n =? 92 then Some "\"%char
  else if n =? 47 then Some "/"%char
  else if n =? 98 then Some (Js.fromCode 8)
  else if n =? 102 then Some (Js.fromCode 12)
  else if n =? 110 then Some (Js.fromCode 10)
  else if n =? 114 then Some (Js.fromCode 13)
  else if n =? 116 then Some (Js.fromCode 9)
  else None.

Definition unicode_escape (h1 h2 h3 h4 : ascii) : option ascii :=
  a ← Hex.value h1; b ← Hex.value h2; c ← Hex.value h3; d ← Hex.value h4;
  let n := ((a * 16 + b) * 16 + c) * 16 + d in
  if n <? 256 then Some (Js.fromCode n) else None.

(** The characters of a string up to its closing quote, and what follows. *)
Fixpoint string_body (s : JsString) : option (JsString * JsString) :=
  match s with
  | [] => None
  | c :: s1 =>
      if (c =? Js.dquote)%char then Some ([], s1)
      else if (c =? "\")%char then
        match s1 with
        | [] => None
        | e :: s2 =>
            if (e =? "u")%char then
              match s2 with
              | h1 :: h2 :: h3 :: h4 :: s3 =>
                  u ← unicode_escape h1 h2 h3 h4;
                  '(body, rest) ← string_body s3;
                  Some (u :: body, rest)
              | _ => None
              end
            else
              u ← unescape e;
              '(body, rest) ← string_body s2;
              Some (u :: body, rest)
        end
      else if Js.code c <? 32 then None
      else
        '(body, rest) ← string_body s1;
        Some (c :: body, rest)
  end.

(** A string literal and what follows it. *)
Definition string (s : JsString) : option (JsString * JsString) :=
  expect [Js.dquote] s ≫= string_body.

Definition is_number_char (c : ascii) : bool :=
  (c =? "-")%char || ((48 <=? Js.code c) && (Js.code c <=? 57)).

Fixpoint span_number (s : JsString) : JsString * JsString :=
  match s with
  | c :: s' =>
      if is_number_char c
      then let '(run, rest) := span_number s' in (c :: run, rest)
      else ([], s)
  | [] => ([], [])
  end.

(** An integer literal and what follows it. *)
Definition number (s : JsString) : option (Z * JsString) :=
  let '(run, rest) := span_number s in
  d ← NilZero.int_of_string (string_of_list_ascii run);
  Some (Z.of_int d, rest).

(** The four members of a payload, in the order [stringify] writes them. *)
Definition parse (s : JsString) : option JWTPayload.t :=
  s1 ← expect ("{" ++ member "userId") s;
  '(userId, s2) ← string s1;
  s3 ← expect ("," ++ member "email") s2;
  '(email, s4) ← string s3;
  s5 ← expect ("," ++ member "iat") s4;
  '(iat, s6) ← number s5;
  s7 ← expect ("," ++ member "exp") s6;
  '(exp, s8) ← number s7;
  match s8 with
  | [c] =>
      if (c =? "}")%char
      then Some {| JWTPayload.userId := userId; JWTPayload.email := email;
                   JWTPayload.iat := iat; JWTPayload.exp := exp |}
      else None
  | _ => None
  end.

End Json.

Module Sample.

Definition checksum (data : Uint8Array) : Z :=
  fold_left (fun acc c => (acc * 31 + Js.code c) mod 65521) data 7.

(** A keyed 32-byte tag: a stand-in for HMAC-SHA256. *)
Definition mac (key message : Uint8Array) : Uint8Array :=
  let h := checksum (key ++ "|" ++ message) in
  map (fun i => Js.fromCode (h * (Z.of_nat i + 1) + Z.of_nat i)) (seq 0 32).

(** A salted derived key of [bits / 8] bytes: a stand-in for PBKDF2. *)
Definition kdf (password salt : Uint8Array) (iterations bits : Z) : Uint8Array :=
  let h := checksum (salt ++ "|" ++ password) + iterations in
  map (fun i => Js.fromCode (h * (Z.of_nat i + 3) + Z.of_nat i))
    (seq 0 (Z.to_nat (bits / 8))).

Definition key_ok (key : Uint8Array) : bool := negb (is_empty key).

(** The value of a text of decimal digits, [None] when another character
    occurs. *)
Fixpoint digits_value (s : JsString) (acc : Z) : option Z :=
  match s with
  | [] => Some acc
  | c :: s' =>
      if (48 <=? Js.code c) && (Js.code c <=? 57)
      then digits_value s' (10 * acc + (Js.code c - 48))
      else None
  end.

(** An integer without its trailing zeros. *)
Fixpoint strip_zeros (fuel : nat) (z : Z) : Z :=
  match fuel with
  | O => z
  | S fuel' =>
      if (z mod 10 =? 0) && negb (z =? 0)
      then strip_zeros fuel' (z / 10)
      else z
  end.

(** A stand-in for StringToNumber that reads the integers: white space
    around, a sign, and then at most 15 decimal digits; a text of white
    space alone is 0.  Every other text is taken for [NaN], which for a
    fraction, an exponent, a hexadecimal literal or [Infinity] it is
    not. *)
Definition number (s : JsString) : option Number.t :=
  let text := Js.trim s in
  let '(negative, digits) :=
    match text with
    | c :: rest =>
        if (c =? "-")%char then (true, rest)
        else if (c =? "+")%char then (false, rest)
        else (false, text)
    | [] => (false, [])
    end in
  if is_empty text then Some Number.Zero
  else if is_empty digits || (15 <? length digits)%nat then None
  else match digits_value digits 0 with
       | Some (Zpos p) =>
           match strip_zeros 15 (Zpos p) with
           | Zpos q =>
               Some (Number.Finite negative q
                       (Z.of_nat (length (Number.dec (Zpos p)))))
           | _ => None
           end
       | Some 0 => Some Number.Zero
       | _ => None
       end.

End Sample.

Definition sample_runtime : JsRuntime := {| StringToNumber := Sample.number |}.


(** * The other handlers and the development environment

    [POST /api/auth/logout], [POST /api/auth/register], the request
    authentication of [/api/tasks], [addSecurityHeaders], and the
    in-memory database of [src/utils/environment.ts]. *)

(** ** [addSecurityHeaders] *)

(** A [Headers] object: a name is looked up without regard to case, which
    is to say under its lower-case form. *)
Module Headers.

Abbreviation t := (gmap JsString JsString).

Definition set (name value : JsString) (h : t) : t :=
  <[Js.toLowerCase name := value]> h.

Definition get (name : JsString) (h : t) : option JsString :=
  h !! Js.toLowerCase name.

End Headers.

(** A [Response] with its headers; the body is the text sent. *)
Record HttpResponse := {
  http_status : Z;
  http_statusText : JsString;
  http_headers : Headers.t;
  http_body : JsString
}.

Definition addSecurityHeaders (response : HttpResponse) : HttpResponse :=
  let headers := http_headers response in
  let headers := Headers.set "X-Content-Type-Options" "nosniff" headers in
  let headers := Headers.set "X-Frame-Options" "DENY" headers in
  let headers := Headers.set "X-XSS-Protection" "1; mode=block" headers in
  let headers :=
    Headers.set "Referrer-Policy" "strict-origin-when-cross-origin" headers in
  let headers :=
    Headers.set "Content-Security-Policy"
      "default-src 'self'; script-src 'self' 'unsafe-inline'; style-src 'self' 'unsafe-inline'"
      headers in
  let headers :=
    Headers.set "Strict-Transport-Security" "max-age=31536000; includeSubDomains"
      headers in
  {| http_status := http_status response;
     http_statusText := http_statusText response;
     http_headers := headers;
     http_body := http_body response |}.

(** ** [POST /api/auth/logout] *)

(** A response whose body is [{ message }]. *)
Record MessageResponse := {
  message_status : Z;
  message : JsString;
  message_setCookie : option JsString
}.

(** The [try] block, over the key-value store.  [cookie] is
    [request.headers.get('Cookie')]. *)
Definition logout_handler (env : EnvironmentAdapter) (cookie : option JsString)
  : Handler.t KV.store MessageResponse :=
  match cookie with
  | None | Some [] =>
      Handler.ret
        {| message_status := 200; message := "No session to logout";
           message_setCookie := None |}
  | Some cookieHeader =>
      (match cookie_token cookieHeader with
       | Some (c :: t) =>
           Handler.call (fun store => (deleteSession store (c :: t), tt))
       | Some [] | None => Handler.ret tt
       end;;
       let isProduction := Js.eqb (environment env) "production" in
       let clearCookie :=
         "auth-token=; HttpOnly; "
           ++ (if isProduction then "Secure;" : JsString else [])
           ++ " SameSite=Strict; Path=/; Max-Age=0" in
       Handler.ret
         {| message_status := 200; message := "Logout successful";
            message_setCookie := Some clearCookie |})
  end.

Definition logout_try (env : EnvironmentAdapter) (cookie : option JsString)
  : KV.store * (Thrown + MessageResponse) :=
  logout_handler env cookie (kv env).

(** ** Users: [createUser] *)

(** [INSERT INTO users (id, email, password_hash, display_name) VALUES
    (?, ?, ?, ?)] on the table of the schema: the statement fails when the
    [id] (PRIMARY KEY) or the [email] (UNIQUE) is in the table already;
    the new row has [is_active] 1 and the current time in both time
    stamps. *)
Definition insert_user (db : D1Database)
  (id email passwordHash displayName timestamp : JsString) : option D1Database :=
  if existsb (fun u => Js.eqb (User.id u) id || Js.eqb (User.email u) email) db
  then None
  else Some (db ++ [ {| User.id := id; User.email := email;
                        User.password_hash := passwordHash;
                        User.display_name := displayName;
                        User.created_at := timestamp;
                        User.updated_at := timestamp;
                        User.is_active := true |} ]).

Section UserStore.
Context {C : WebCrypto}.

(** [id] is what [crypto.randomUUID()] returned, [salt] the random salt
    of [hashPassword], [timestamp] the CURRENT_TIMESTAMP of the insert.
    The result is the table afterwards and the row read back by [id]
    ([SELECT ... FROM users WHERE id = ?], [first()]), [None] when the
    insert has thrown. *)
Definition createUser (db : D1Database) (email : JsString)
  (password : Utf16.t) (displayName : JsString)
  (id : JsString) (salt : Uint8Array) (timestamp : JsString)
  : D1Database * option User.t :=
  let passwordHash := hashPassword password salt in
  match insert_user db id email passwordHash displayName timestamp with
  | Some db' => (db', find (fun u => Js.eqb (User.id u) id) db')
  | None => (db, None)
  end.

(** [createUser] for a [password] of any type: [TextEncoder] makes a
    string of it ([Value.encoded_text]) inside the [try] block of
    [createUser], where a TypeError gives [null] before anything is
    written. *)
Definition createUser_value (db : D1Database) (email : JsString)
  (password : JsValue) (displayName : JsString)
  (id : JsString) (salt : Uint8Array) (timestamp : JsString)
  : D1Database * option User.t :=
  match Value.encoded_text password with
  | Some text =>
      createUser db email (Utf16.of_latin1 text) displayName id salt timestamp
  | None => (db, None)
  end.

End UserStore.

(** ** [POST /api/auth/register] *)

(** [.] of a regular expression, and any code unit at all. *)
Definition rx_dot : Regex.t :=
  Regex.Class (fun c => negb (Js.is_line_terminator c)).

Definition rx_any : Regex.t := Regex.Class (fun _ => true).

Definition is_lower_letter (c : ascii) : bool :=
  (97 <=? Js.code c) && (Js.code c <=? 122).

Definition is_upper_letter (c : ascii) : bool :=
  (65 <=? Js.code c) && (Js.code c <=? 90).

Definition is_digit (c : ascii) : bool :=
  (48 <=? Js.code c) && (Js.code c <=? 57).

(** [[@$!%*?&]]. *)
Definition is_special (c : ascii) : bool :=
  existsb (fun x => (c =? x)%char) ("@$!%*?&" : JsString).

(** [^(?=.*[p])]: some character of the class [p] on the first line. *)
Definition rx_ahead (p : ascii -> bool) : Regex.t :=
  Regex.Seq (Regex.Star rx_dot) (Regex.Seq (Regex.Class p) (Regex.Star rx_any)).

(** [/^(?=.*[a-z])(?=.*[A-Z])(?=.*\d)(?=.*[@$!%*?&])[A-Za-z\d@$!%*?&]/.test]:
    the four look-aheads at the start of the string, then one character
    of the class; the pattern is not anchored at the end. *)
Definition password_pattern (s : JsString) : bool :=
  Regex.test (rx_ahead is_lower_letter) s
  && Regex.test (rx_ahead is_upper_letter) s
  && Regex.test (rx_ahead is_digit) s
  && Regex.test (rx_ahead is_special) s
  && Regex.test
       (Regex.Seq
          (Regex.Class
             (fun c => is_upper_letter c || is_lower_letter c || is_digit c
                       || is_special c))
          (Regex.Star rx_any)) s.

(** [/^[a-zA-Z0-9\s\-_.]+$/.test]. *)
Definition displayName_pattern (s : JsString) : bool :=
  Regex.test
    (Regex.Plus
       (Regex.Class
          (fun c => is_lower_letter c || is_upper_letter c || is_digit c
                    || Js.is_space c || (c =? "-")%char || (c =? "_")%char
                    || (c =? ".")%char))) s.

Definition register_rules : list ValidationRule :=
  [ {| field := "email"; required := true; type := Some TEmail;
       minLength := None; maxLength := Some 255; pattern := None |};
    {| field := "password"; required := true; type := None;
       minLength := Some 12; maxLength := Some 128;
       pattern := Some password_pattern |};
    {| field := "displayName"; required := true; type := None;
       minLength := Some 2; maxLength := Some 100;
       pattern := Some displayName_pattern |} ].

Definition set_db (d : D1Database) (s : Server) : Server :=
  {| limiter := limiter s;
     env := {| db := d; kv := kv (env s); jwtSecret := jwtSecret (env s);
               environment := environment (env s) |} |}.

Section Registration.
Context {C : WebCrypto} {R : JsRuntime}.

(** The [try] block.  [ip] and [requestData] are as for the login
    handler; [id], [salt] and [timestamp] are as for [createUser].  The
    body of the response has the shape of the login response:
    [{ message, user: { id, email, displayName } }]. *)
Definition register_handler (ip : option JsString)
  (requestData : option (gmap JsString JsValue)) (now_ms : Z)
  (id : JsString) (salt : Uint8Array) (timestamp : JsString)
  : Handler.t Server Response :=
  (let clientIP := clientIP_of ip in
   let rateLimitKey : JsString := "register:" ++ clientIP in
   isAllowed ← checkRate rateLimitKey 5 (60 * 60 * 1000) now_ms;
   s1 ← Handler.get;
   Handler.throw_if (negb isAllowed)
     (SecurityError "RATE_LIMIT_EXCEEDED" 429
        ("Too many registration attempts. Try again in "
           ++ Number.dec
                (ceil_minutes
                   (RateLimiter.getRemainingTime rateLimitKey now_ms (limiter s1)))
           ++ " minutes."));;
   data ← Handler.present requestData OtherError;
   let email := Value.field_of data "email" in
   let password := Value.field_of data "password" in
   let displayName := Value.field_of data "displayName" in
   validation ← Handler.present (validateInput data register_rules) OtherError;
   Handler.throw_if (negb (isValid validation))
     (SecurityError "VALIDATION_ERROR" 400 "Invalid input data");;
   email ← as_string email;
   s2 ← Handler.get;
   Handler.throw_if
     (bool_decide
        (is_Some (getUserByEmail (db (env s2)) (Js.trim (Js.toLowerCase email)))))
     (SecurityError "USER_EXISTS" 409 "An account with this email already exists");;
   displayName ← as_string displayName;
   user ←
     Handler.call
       (fun s =>
          let '(db', user) :=
            createUser_value (db (env s)) (Js.trim (Js.toLowerCase email))
              password (Js.trim displayName) id salt timestamp in
          (set_db db' s, user));
   user ←
     Handler.present user
       (SecurityError "USER_CREATION_FAILED" 500 "Failed to create user account");
   Handler.ret
     {| status := 201;
        body := LoginBody "User created successfully" (User.id user)
                  (User.email user) (User.display_name user);
        setCookie := None |}).

Definition register_try (s : Server) (ip : option JsString)
  (requestData : option (gmap JsString JsValue)) (now_ms : Z)
  (id : JsString) (salt : Uint8Array) (timestamp : JsString)
  : Server * (Thrown + Response) :=
  register_handler ip requestData now_ms id salt timestamp s.

Definition register_POST (s : Server) (ip : option JsString)
  (requestData : option (gmap JsString JsValue)) (now_ms : Z)
  (id : JsString) (salt : Uint8Array) (timestamp : JsString)
  : Server * Response :=
  match register_try s ip requestData now_ms id salt timestamp with
  | (s', inl error) => (s', handleApiError error)
  | (s', inr response) => (s', response)
  end.

End Registration.

(** ** [/api/tasks]: the request authentication *)

Section TaskRequests.
Context {C : WebCrypto} {J : JsonCodec}.

(** [authenticateRequest], given the lookup [getUserById(env.db, _)]: the
    user of the token in the cookie, [None] for [null]. *)
Definition authenticateRequest_by {U : Type} (lookup : JsString -> option U)
  (cookie : option JsString) (jwtSecret : JsString) (now_ms : Z) : option U :=
  match cookie with
  | None | Some [] => None
  | Some cookieHeader =>
      match cookie_token cookieHeader with
      | Some (c :: t) =>
          match verifyJWT (c :: t) jwtSecret now_ms with
          | Some payload => lookup (JWTPayload.userId payload)
          | None => None
          end
      | Some [] | None => None
      end
  end.

(** On the database of the deployment. *)
Definition authenticateRequest (cookie : option JsString)
  (env : EnvironmentAdapter) (now_ms : Z) : option User.t :=
  authenticateRequest_by (getUserById (db env)) cookie (jwtSecret env) now_ms.

End TaskRequests.

(** ** The in-memory database of the development environment *)

(** A [Map] with keys of any type: the entries in the order of their
    first insertion. *)
Module JsMap.

Definition t (V : Type) : Type := list (JsValue * V).

Definition get {V : Type} (key : JsValue) (m : t V) : option V :=
  snd <$> find (fun entry => Value.same entry.1 key) m.

Fixpoint set {V : Type} (key : JsValue) (v : V) (m : t V) : t V :=
  match m with
  | [] => [(key, v)]
  | (key', v') :: m' =>
      if Value.same key' key then (key, v) :: m'
      else (key', v') :: set key v m'
  end.

Definition delete {V : Type} (key : JsValue) (m : t V) : t V :=
  List.filter (fun entry => negb (Value.same entry.1 key)) m.

Definition values {V : Type} (m : t V) : list V := map snd m.

End JsMap.

Module MemoryUser.
Record t := {
  id : JsValue;
  email : JsValue;
  password_hash : JsValue;
  display_name : JsValue;
  created_at : JsString;
  updated_at : JsString;
  is_active : bool
}.
End MemoryUser.

Module MemoryTask.
Record t := {
  id : JsValue;
  user_id : JsValue;
  title : JsValue;
  description : JsValue;
  status : JsValue;
  priority : JsValue;
  due_date : JsValue;
  created_at : JsValue;
  updated_at : JsValue;
  order_index : JsValue
}.
End MemoryTask.

Module Memory.

(** The two maps of a [MemoryDatabase] (its [sessions] map is never
    used). *)
Record Database := {
  users : JsMap.t MemoryUser.t;
  tasks : JsMap.t MemoryTask.t
}.

(** What a statement returns: user objects or task objects. *)
Inductive Row :=
| UserRow (user : MemoryUser.t)
| TaskRow (task : MemoryTask.t).

(** [bindings[i]]. *)
Definition binding (bindings : list JsValue) (i : nat) : JsValue :=
  nth i bindings JUndefined.

(** [bindings[bindings.length - 2]], which is also the one element of
    [bindings.slice(-2, -1)]; [undefined] when there are fewer than two. *)
Definition binding_before_last (bindings : list JsValue) : JsValue :=
  if (length bindings <? 2)%nat then JUndefined
  else binding bindings (length bindings - 2).

(** [\s+where] at the head of [s]: white space, all there is, then
    [where]. *)
Definition space_then_where (s : JsString) : bool :=
  match s with
  | c :: _ => Js.is_space c && starts_with "where" (Js.trimStart s)
  | [] => false
  end.

(** [(.+?)\s+where] at the head of [s]: the shortest run of one or more
    characters other than line terminators that [\s+where] follows. *)
Fixpoint lazy_group (s : JsString) : option JsString :=
  match s with
  | [] => None
  | c :: s' =>
      if Js.is_line_terminator c then None
      else if space_then_where s' then Some [c]
      else cons c <$> lazy_group s'
  end.

(** [\s+(.+?)\s+where] at the head of [s]: the first white space is
    taken whole, then given back one character at a time. *)
Definition after_set (s : JsString) : option JsString :=
  let spaces := (length s - length (Js.trimStart s))%nat in
  head (omap (fun k => lazy_group (skipn k s)) (rev (seq 1 spaces))).

(** [statement.match(/set\s+(.+?)\s+where/i)?.[1]] for a statement in
    lower case: the group of the leftmost match. *)
Fixpoint set_clause (s : JsString) : option JsString :=
  match s with
  | [] => None
  | _ :: s' =>
      match (if starts_with "set" s then after_set (skipn 3 s) else None) with
      | Some group => Some group
      | None => set_clause s'
      end
  end.

(** [setClause.split(',').map(f => f.trim().split('=')[0].trim())]. *)
Definition set_fields (setClause : JsString) : list JsString :=
  map (fun f => Js.trim (hd [] (Js.split "=" (Js.trim f))))
    (Js.split "," setClause).

(** One step of the [forEach]: the [switch] on the name of the field. *)
Definition assign (field : JsString) (value : JsValue) (task : MemoryTask.t)
  : MemoryTask.t :=
  let 'MemoryTask.Build_t id user_id title description status priority due_date
         created_at updated_at order_index := task in
  if Js.eqb field "title" then
    MemoryTask.Build_t id user_id value description status priority due_date
      created_at updated_at order_index
  else if Js.eqb field "description" then
    MemoryTask.Build_t id user_id title value status priority due_date
      created_at updated_at order_index
  else if Js.eqb field "status" then
    MemoryTask.Build_t id user_id title description value priority due_date
      created_at updated_at order_index
  else if Js.eqb field "priority" then
    MemoryTask.Build_t id user_id title description status value due_date
      created_at updated_at order_index
  else if Js.eqb field "due_date" then
    MemoryTask.Build_t id user_id title description status priority value
      created_at updated_at order_index
  else if Js.eqb field "order_index" then
    MemoryTask.Build_t id user_id title description status priority due_date
      created_at updated_at value
  else if Js.eqb field "updated_at" then
    MemoryTask.Build_t id user_id title description status priority due_date
      created_at value order_index
  else task.

(** [fields.forEach((field, index) => ...)] with [value = bindings[index]]. *)
Definition assign_all (fields : list JsString) (bindings : list JsValue)
  (task : MemoryTask.t) : MemoryTask.t :=
  fold_left
    (fun task '(index, field) => assign field (binding bindings index) task)
    (combine (seq 0 (length fields)) fields) task.

Section Statements.

(** [new Date(v).getTime()], [None] for [NaN], and
    [new Date().toISOString()] at the time of the call. *)
Variable getTime : JsValue -> option Z.
Variable now : JsString.

(** The comparison function of the [sort]; [NaN] counts as 0. *)
Definition newest_first (a b : MemoryTask.t) : Z :=
  match getTime (MemoryTask.created_at b), getTime (MemoryTask.created_at a) with
  | Some tb, Some ta => tb - ta
  | _, _ => 0
  end.

(** [Array.prototype.sort] is stable: an element that came before the
    ones in [l] goes in front of the first of them it does not have to
    follow. *)
Fixpoint insert_sorted (x : MemoryTask.t) (l : list MemoryTask.t)
  : list MemoryTask.t :=
  match l with
  | [] => [x]
  | y :: l' =>
      if newest_first x y <=? 0 then x :: y :: l' else y :: insert_sorted x l'
  end.

Definition sort (l : list MemoryTask.t) : list MemoryTask.t :=
  fold_right insert_sorted [] l.

(** [new MemoryStatement(statement, ...)] keeps the statement in lower
    case and trimmed. *)
Definition prepare (statement : JsString) : JsString :=
  Js.trim (Js.toLowerCase statement).

(** [execute] on a prepared statement.  The branches are tried in the
    order of the source; a [select] or an [update] that finds nothing to
    do falls through to the branches after it. *)
Definition execute (statement : JsString) (bindings : list JsValue)
  (db : Database) : Database * list Row :=
  if includes "insert into users" statement then
    let user :=
      {| MemoryUser.id := binding bindings 0;
         MemoryUser.email := binding bindings 1;
         MemoryUser.password_hash := binding bindings 2;
         MemoryUser.display_name := binding bindings 3;
         MemoryUser.created_at := now; MemoryUser.updated_at := now;
         MemoryUser.is_active := true |} in
    ({| users := JsMap.set (binding bindings 0) user (users db);
        tasks := tasks db |}, [UserRow user])
  else if includes "select" statement && includes "users" statement
          && includes "where email = ?" statement then
    (db,
     match find (fun u => Value.same (MemoryUser.email u) (binding bindings 0))
             (JsMap.values (users db)) with
     | Some user => [UserRow user]
     | None => []
     end)
  else if includes "select" statement && includes "users" statement
          && includes "where id = ?" statement then
    (db,
     match JsMap.get (binding bindings 0) (users db) with
     | Some user => [UserRow user]
     | None => []
     end)
  else if includes "insert into tasks" statement then
    let task :=
      {| MemoryTask.id := binding bindings 0;
         MemoryTask.user_id := binding bindings 1;
         MemoryTask.title := binding bindings 2;
         MemoryTask.description := binding bindings 3;
         MemoryTask.status := JStr "pending";
         MemoryTask.priority :=
           (if Value.truthy (binding bindings 4) then binding bindings 4
            else JStr "medium");
         MemoryTask.due_date := binding bindings 5;
         MemoryTask.created_at := binding bindings 6;
         MemoryTask.updated_at := binding bindings 7;
         MemoryTask.order_index := JNum Number.Zero |} in
    ({| users := users db;
        tasks := JsMap.set (binding bindings 0) task (tasks db) |},
     [TaskRow task])
  else if includes "select" statement && includes "tasks" statement
          && includes "where user_id = ?" statement then
    (db,
     map TaskRow
       (sort
          (List.filter
             (fun t => Value.same (MemoryTask.user_id t) (binding bindings 0))
             (JsMap.values (tasks db)))))
  else if includes "select" statement && includes "tasks" statement
          && includes "where id = ?" statement then
    (db,
     match JsMap.get (binding bindings 0) (tasks db) with
     | Some task => [TaskRow task]
     | None => []
     end)
  else
    let updated :=
      if includes "update tasks" statement then
        let taskId := binding_before_last bindings in
        match JsMap.get taskId (tasks db) with
        | Some task =>
            let task' :=
              match set_clause statement with
              | Some setClause => assign_all (set_fields setClause) bindings task
              | None => task
              end in
            Some ({| users := users db;
                     tasks := JsMap.set taskId task' (tasks db) |},
                  [TaskRow task'])
        | None => None
        end
      else None in
    match updated with
    | Some result => result
    | None =>
        if includes "delete from tasks" statement then
          ({| users := users db;
              tasks := JsMap.delete (binding_before_last bindings) (tasks db) |},
           [])
        else (db, [])
    end.

(** [prepare(statement).bind(...bindings).first()] and [.run()]. *)
Definition first (statement : JsString) (bindings : list JsValue)
  (db : Database) : Database * option Row :=
  let '(db', result) := execute (prepare statement) bindings db in
  (db', head result).

Definition run (statement : JsString) (bindings : list JsValue)
  (db : Database) : Database :=
  (execute (prepare statement) bindings db).1.

End Statements.

End Memory.

(** [seedData]: the demo user and the demo task a [MemoryDatabase] starts
    with; [now] is [new Date().toISOString()] at that time. *)
Definition seedData (now : JsString) : Memory.Database :=
  let demoUser :=
    {| MemoryUser.id := JStr "demo-user-1";
       MemoryUser.email := JStr "demo@example.com";
       MemoryUser.password_hash :=
         JStr "b3a8e0e1f9ab1bfe3a36f231f676f78bb30a519d2b21e6c530c0eee8ebb4a5d0";
       MemoryUser.display_name := JStr "Demo User";
       MemoryUser.created_at := now; MemoryUser.updated_at := now;
       MemoryUser.is_active := true |} in
  let demoTask :=
    {| MemoryTask.id := JStr "demo-task-1";
       MemoryTask.user_id := JStr "demo-user-1";
       MemoryTask.title := JStr "Welcome to TodoApp";
       MemoryTask.description :=
         JStr "This is your first task! Edit or delete it to get started.";
       MemoryTask.status := JStr "pending";
       MemoryTask.priority := JStr "medium";
       MemoryTask.due_date := JNull;
       MemoryTask.created_at := JStr now;
       MemoryTask.updated_at := JStr now;
       MemoryTask.order_index := JNum Number.Zero |} in
  {| Memory.users := JsMap.set (MemoryUser.id demoUser) demoUser [];
     Memory.tasks := JsMap.set (MemoryTask.id demoTask) demoTask [] |}.

(** ** [/api/tasks] on the in-memory database: PUT and DELETE *)

Definition nl : JsString := [Js.fromCode 10].

(** The statements, as the template literals of the source have them. *)
Definition sql_user_by_id : JsString :=
  nl ++ "      SELECT id, email, display_name, created_at, updated_at, is_active"
     ++ nl ++ "      FROM users"
     ++ nl ++ "      WHERE id = ? AND is_active = 1"
     ++ nl ++ "    ".

Definition sql_task_owned : JsString :=
  nl ++ "            SELECT * FROM tasks WHERE id = ? AND user_id = ?"
     ++ nl ++ "          ".

Definition sql_task_by_id : JsString :=
  nl ++ "            SELECT * FROM tasks WHERE id = ?"
     ++ nl ++ "          ".

Definition sql_delete_task : JsString :=
  nl ++ "            DELETE FROM tasks WHERE id = ? AND user_id = ?"
     ++ nl ++ "          ".

Definition sql_update_task (updates : list JsString) : JsString :=
  nl ++ "            UPDATE tasks SET " ++ join ", " updates
     ++ " WHERE id = ? AND user_id = ?"
     ++ nl ++ "          ".

Inductive TaskBody :=
| TaskError (error : JsString)
| TaskMessage (message : JsString)
| TaskObject (task : option Memory.Row).

Record TaskResponse := { task_status : Z; task_body : TaskBody }.

(** The fields of the body of a PUT that are not [undefined], in the
    order of the source, each with its value. *)
Definition put_fields (data : gmap JsString JsValue) : list (JsString * JsValue) :=
  flat_map
    (fun name =>
       match Value.field_of data name with
       | JUndefined => []
       | value => [(name, value)]
       end)
    [ ("title" : JsString); ("description" : JsString); ("status" : JsString);
      ("priority" : JsString); ("due_date" : JsString);
      ("order_index" : JsString) ].

Section DevelopmentTasks.
Context {C : WebCrypto} {J : JsonCodec}.
Variable getTime : JsValue -> option Z.
Variable now : JsString.

(** [getUserById(env.db, id)] on the in-memory database. *)
Definition dev_getUserById (db : Memory.Database) (id : JsString)
  : option MemoryUser.t :=
  match (Memory.first getTime now sql_user_by_id [JStr id] db).2 with
  | Some (Memory.UserRow user) => Some user
  | _ => None
  end.

(** [DELETE /api/tasks?id=...].  [taskId] is
    [url.searchParams.get('id')]. *)
Definition tasks_DELETE (cookie : option JsString) (taskId : option JsString)
  (jwtSecret : JsString) (now_ms : Z) (db : Memory.Database)
  : Memory.Database * TaskResponse :=
  match authenticateRequest_by (dev_getUserById db) cookie jwtSecret now_ms with
  | None => (db, {| task_status := 401; task_body := TaskError "Unauthorized" |})
  | Some user =>
      match taskId with
      | None | Some [] =>
          (db, {| task_status := 400;
                  task_body := TaskError "Task ID is required" |})
      | Some taskId =>
          match Memory.first getTime now sql_task_owned
                  [JStr taskId; MemoryUser.id user] db with
          | (db1, None) =>
              (db1, {| task_status := 404;
                       task_body := TaskError "Task not found" |})
          | (db1, Some _) =>
              let db2 :=
                Memory.run getTime now sql_delete_task
                  [JStr taskId; MemoryUser.id user] db1 in
              (db2, {| task_status := 200;
                       task_body := TaskMessage "Task deleted successfully" |})
          end
      end
  end.

(** [PUT /api/tasks?id=...].  [requestData] is the object
    [request.json()] returns, [None] when it throws or returns [null]. *)
Definition tasks_PUT (cookie : option JsString) (taskId : option JsString)
  (requestData : option (gmap JsString JsValue))
  (jwtSecret : JsString) (now_ms : Z) (db : Memory.Database)
  : Memory.Database * TaskResponse :=
  match authenticateRequest_by (dev_getUserById db) cookie jwtSecret now_ms with
  | None => (db, {| task_status := 401; task_body := TaskError "Unauthorized" |})
  | Some user =>
      match taskId with
      | None | Some [] =>
          (db, {| task_status := 400;
                  task_body := TaskError "Task ID is required" |})
      | Some taskId =>
          match requestData with
          | None =>
              (db, {| task_status := 500;
                      task_body := TaskError "Internal server error" |})
          | Some data =>
              match Memory.first getTime now sql_task_owned
                      [JStr taskId; MemoryUser.id user] db with
              | (db1, None) =>
                  (db1, {| task_status := 404;
                           task_body := TaskError "Task not found" |})
              | (db1, Some _) =>
                  let fields := put_fields data in
                  let updates :=
                    map (fun f => f.1 ++ " = ?") fields ++ [("updated_at = ?" : JsString)] in
                  let values :=
                    map snd fields ++ [JStr now; JStr taskId; MemoryUser.id user] in
                  let db2 :=
                    Memory.run getTime now (sql_update_task updates) values db1 in
                  let '(db3, updatedTask) :=
                    Memory.first getTime now sql_task_by_id [JStr taskId] db2 in
                  (db3, {| task_status := 200;
                           task_body := TaskObject updatedTask |})
              end
          end
      end
  end.

End DevelopmentTasks.


(** * Properties *)

(** ** Lists and Base64 *)

(** Case analysis on the 256 bytes and on the 64 sextets. *)
Ltac each_byte c := destruct c as [[] [] [] [] [] [] [] []].
Ltac each_sextet s := destruct s as [[] [] [] [] [] []].


Lemma list_ind3 {A : Type} (Pr : list A -> Prop) :
  Pr [] -> (forall a, Pr [a]) -> (forall a b, Pr [a; b]) ->
  (forall a b c l, Pr l -> Pr (a :: b :: c :: l)) -> forall l, Pr l.
Proof.
  intros H0 H1 H2 H3. fix IH 1.
  intros [|a [|b [|c l]]].
  - exact H0.
  - apply H1.
  - apply H2.
  - apply H3, IH.
Qed.

Lemma b64_value_char s : Base64.value (Base64.char s) = Some s.
Proof. each_sextet s; reflexivity. Qed.

Lemma b64_char_plain s :
  (Base64.char s =? "=")%char = false
  /\ Base64.is_ascii_whitespace (Base64.char s) = false
  /\ (Base64.char s =? "-")%char = false
  /\ (Base64.char s =? "_")%char = false.
Proof. each_sextet s; repeat split; reflexivity. Qed.

Lemma bytes_of_sextets_of_bytes b :
  Base64.bytes_of_sextets (Base64.sextets_of_bytes b) = b.
Proof.
  induction b as [|a|a b|a b c l IH] using list_ind3.
  - reflexivity.
  - destruct a; reflexivity.
  - destruct a, b; reflexivity.
  - cbn [Base64.sextets_of_bytes Base64.bytes_of_sextets]. rewrite IH.
    destruct a, b, c; reflexivity.
Qed.

Lemma mod4_step n : (S (S (S (S n))) mod 4 = n mod 4)%nat.
Proof.
  replace (S (S (S (S n)))) with (n + 1 * 4)%nat by lia.
  apply Nat.Div0.mod_add.
Qed.

Lemma sextets_length_mod4 b :
  (length (Base64.sextets_of_bytes b) mod 4 <> 1)%nat.
Proof.
  induction b as [|a|a b|a b c l IH] using list_ind3; try (cbn; lia).
  cbn [Base64.sextets_of_bytes length].
  now rewrite mod4_step.
Qed.

Lemma forallb_filter_id {A} (f : A -> bool) l :
  forallb f l = true -> List.filter f l = l.
Proof.
  induction l as [|x l IH]; cbn; [easy|].
  intros [Hx Hl]%andb_true_iff. rewrite Hx. f_equal. auto.
Qed.

Lemma filter_repeat_false {A} (f : A -> bool) x n :
  f x = false -> List.filter f (repeat x n) = [].
Proof. intros H. induction n; cbn; [easy|]. now rewrite H. Qed.

(** The URL-safe character of a sextet. *)
Definition url_char (s : Base64.Sextet) : ascii :=
  let c := Base64.char s in
  if (c =? "+")%char then "-"%char else if (c =? "/")%char then "_"%char else c.

Lemma url_char_spec s :
  (let x := Base64.char s in
   let y := if (x =? "+")%char then "-"%char else x in
   if (y =? "/")%char then "_"%char else y) = url_char s
  /\ (url_char s =? "=")%char = false
  /\ (let y := if (url_char s =? "-")%char then "+"%char else url_char s in
      if (y =? "_")%char then "/"%char else y) = Base64.char s.
Proof. each_sextet s; repeat split; reflexivity. Qed.

Lemma base64UrlEncode_bytes b :
  base64UrlEncode (OfBytes b) = map url_char (Base64.sextets_of_bytes b).
Proof.
  unfold base64UrlEncode, Base64.btoa, Js.removeAll, Js.replaceAll.
  rewrite !map_app, !map_map, List.filter_app.
  rewrite !map_repeat.
  rewrite forallb_filter_id, filter_repeat_false, app_nil_r.
  - apply map_ext. intros s. apply url_char_spec.
  - reflexivity.
  - apply forallb_forall. intros c [s [<- _]]%in_map_iff.
    destruct (url_char_spec s) as (H1 & H2 & _). cbv zeta in H1.
    cbv beta. now rewrite H1, H2.
Qed.

Lemma mapM_value_char sx : mapM Base64.value (map Base64.char sx) = Some sx.
Proof.
  induction sx as [|s sx IH]; [reflexivity|].
  cbn [map mapM]. rewrite b64_value_char, IH. reflexivity.
Qed.

Lemma rev_chars_head sx c r :
  rev (map Base64.char sx) = c :: r -> (c =? "=")%char = false.
Proof.
  rewrite <- map_rev. destruct (rev sx) as [|s l]; [discriminate|].
  cbn. intros [= <- _]. apply b64_char_plain.
Qed.

Lemma strip_padding_chars sx :
  (length sx mod 4 <> 1)%nat ->
  Base64.strip_padding
    (map Base64.char sx ++ repeat "="%char ((4 - length sx mod 4) mod 4)%nat)
  = map Base64.char sx.
Proof.
  intros Hne. unfold Base64.strip_padding.
  set (m := map Base64.char sx).
  assert (Hlen : length m = length sx) by apply length_map.
  assert (Hm : forall c r, rev m = c :: r -> (c =? "=")%char = false)
    by apply rev_chars_head.
  pose proof (Nat.mod_upper_bound (length sx) 4 ltac:(lia)) as Hub.
  pose proof (Nat.div_mod_eq (length sx) 4) as Hdm.
  destruct (length sx mod 4)%nat as [|[|[|[|k]]]] eqn:E; try lia.
  - change ((4 - 0) mod 4)%nat with 0%nat.
    cbn [repeat]. rewrite app_nil_r, Hlen, E. cbn [Nat.eqb].
    destruct (rev m) as [|c1 [|c2 r]] eqn:Er; try reflexivity.
    now rewrite (Hm _ _ eq_refl).
  - change ((4 - 2) mod 4)%nat with 2%nat. cbn [repeat].
    replace (length (m ++ ["="%char; "="%char]) mod 4)%nat with 0%nat.
    + rewrite rev_app_distr. cbn. apply rev_involutive.
    + rewrite length_app, Hlen. cbn [length].
      replace (length sx + 2)%nat with (0 + (S (length sx / 4)) * 4)%nat by lia.
      now rewrite Nat.Div0.mod_add.
  - change ((4 - 3) mod 4)%nat with 1%nat. cbn [repeat].
    replace (length (m ++ ["="%char]) mod 4)%nat with 0%nat.
    + rewrite rev_app_distr. change (rev ["="%char]) with ["="%char].
      cbn [app].
      destruct (rev m) as [|c2 r] eqn:Er.
      * apply (f_equal (@length _)) in Er. rewrite length_rev, Hlen in Er.
        cbn in Er. lia.
      * change (("="%char =? "=")%char) with true. cbv iota.
        rewrite (Hm _ _ eq_refl), <- Er. apply rev_involutive.
    + rewrite length_app, Hlen. cbn [length].
      replace (length sx + 1)%nat with (0 + (S (length sx / 4)) * 4)%nat by lia.
      now rewrite Nat.Div0.mod_add.
Qed.

Lemma atob_padded sx :
  (length sx mod 4 <> 1)%nat ->
  Base64.atob
    (map Base64.char sx ++ repeat "="%char ((4 - length sx mod 4) mod 4)%nat)
  = Some (Base64.bytes_of_sextets sx).
Proof.
  intros Hne. unfold Base64.atob.
  rewrite forallb_filter_id.
  - rewrite strip_padding_chars by assumption.
    rewrite length_map.
    destruct (length sx mod 4 =? 1)%nat eqn:E.
    + apply Nat.eqb_eq in E. contradiction.
    + now rewrite mapM_value_char.
  - rewrite forallb_app. apply andb_true_iff. split.
    + apply forallb_forall. intros c [s [<- _]]%in_map_iff.
      destruct (b64_char_plain s) as (_ & -> & _). reflexivity.
    + apply forallb_forall. intros c ->%repeat_spec. reflexivity.
Qed.

Lemma base64UrlDecode_chars sx flag :
  (length sx mod 4 <> 1)%nat ->
  base64UrlDecode (map url_char sx) flag = Some (Base64.bytes_of_sextets sx).
Proof.
  intros Hne. unfold base64UrlDecode, Js.replaceAll.
  rewrite !map_map.
  rewrite (map_ext _ Base64.char) by (intros s; apply url_char_spec).
  rewrite length_map. now apply atob_padded.
Qed.

(** Decoding what [base64UrlEncode] produced gives the bytes back. *)
Lemma base64Url_roundtrip b flag :
  base64UrlDecode (base64UrlEncode (OfBytes b)) flag = Some b.
Proof.
  rewrite base64UrlEncode_bytes, base64UrlDecode_chars.
  - now rewrite bytes_of_sextets_of_bytes.
  - apply sextets_length_mod4.
Qed.

(** ** The reference platform meets the laws *)


Lemma expect_app lit r : Json.expect lit (lit ++ r) = Some r.
Proof.
  induction lit as [|c lit IH]; [now destruct r|].
  cbn. now rewrite Ascii.eqb_refl.
Qed.

Lemma string_body_quote_unit c X :
  Json.string_body (Json.quote_unit c ++ X) =
  match Json.string_body X with
  | Some (body, rest) => Some (c :: body, rest)
  | None => None
  end.
Proof.
  each_byte c; reflexivity.
Qed.

Lemma string_body_quote s r :
  Json.string_body (flat_map Json.quote_unit s ++ [Js.dquote] ++ r) = Some (s, r).
Proof.
  induction s as [|c s IH]; [reflexivity|].
  cbn [flat_map]. rewrite <- app_assoc, string_body_quote_unit, IH.
  reflexivity.
Qed.

Lemma string_quote s r : Json.string (Json.quote s ++ r) = Some (s, r).
Proof.
  unfold Json.string, Json.quote. rewrite <- !app_assoc, expect_app.
  apply string_body_quote.
Qed.

Lemma uint_number_chars u :
  forallb Json.is_number_char (NilEmpty.string_of_uint u) = true.
Proof. induction u; cbn; auto. Qed.

Lemma dec_number_chars z : forallb Json.is_number_char (Number.dec z) = true.
Proof.
  unfold Number.dec.
  assert (H : forall u, forallb Json.is_number_char (NilZero.string_of_uint u) = true).
  { intros [| | | | | | | | | |]; try apply uint_number_chars. reflexivity. }
  destruct (Z.to_int z); cbn; [apply H|]. apply H.
Qed.

Lemma span_number_app run c r :
  forallb Json.is_number_char run = true ->
  Json.is_number_char c = false ->
  Json.span_number (run ++ c :: r) = (run, c :: r).
Proof.
  intros Hrun Hc. induction run as [|d run IH]; cbn.
  - now rewrite Hc.
  - cbn in Hrun. apply andb_true_iff in Hrun as [Hd Hrun].
    now rewrite Hd, IH.
Qed.

Lemma number_dec z c r :
  Json.is_number_char c = false ->
  Json.number (Number.dec z ++ c :: r) = Some (z, c :: r).
Proof.
  intros Hc. unfold Json.number.
  rewrite span_number_app by (auto using dec_number_chars).
  unfold Number.dec. rewrite string_of_list_ascii_of_string.
  rewrite NilZero.isi.
  - cbn. now rewrite DecimalZ.of_to.
  - destruct z; cbn; try discriminate. intros [= H].
    now apply Unsigned.to_uint_nonnil in H.
  - destruct z; cbn; try discriminate. intros [= H].
    now apply Unsigned.to_uint_nonnil in H.
Qed.

Lemma number_dec_sep z c sep r :
  Json.is_number_char c = false ->
  Json.number (Number.dec z ++ (c :: sep) ++ r) = Some (z, (c :: sep) ++ r).
Proof. intros Hc. now apply number_dec. Qed.

Lemma json_parse_stringify p : Json.parse (Json.stringify p) = Some p.
Proof.
  destruct p as [uid em ex ia].
  unfold Json.parse, Json.stringify.
  cbn [JWTPayload.userId JWTPayload.email JWTPayload.exp JWTPayload.iat].
  rewrite !(app_assoc "{"), !(app_assoc ","), expect_app. cbn [mbind option_bind].
  rewrite string_quote. cbn [mbind option_bind].
  rewrite expect_app. cbn [mbind option_bind].
  rewrite string_quote. cbn [mbind option_bind].
  rewrite expect_app. cbn [mbind option_bind].
  rewrite <- (app_assoc ","). change ("," : JsString) with [","%char].
  rewrite number_dec_sep by reflexivity. cbn [mbind option_bind].
  rewrite app_assoc, expect_app. cbn [mbind option_bind].
  change ("}" : JsString) with ["}"%char].
  rewrite number_dec by reflexivity. reflexivity.
Qed.

Lemma quote_unit_ascii c :
  Js.is_ascii7 c = true -> forallb Js.is_ascii7 (Json.quote_unit c) = true.
Proof. each_byte c; intros H; try reflexivity; discriminate H. Qed.

Lemma number_char_ascii c : Json.is_number_char c = true -> Js.is_ascii7 c = true.
Proof. each_byte c; intros H; try reflexivity; discriminate H. Qed.

Lemma forallb_impl {A} (f g : A -> bool) l :
  (forall x, f x = true -> g x = true) -> forallb f l = true -> forallb g l = true.
Proof.
  intros Hfg. rewrite !forallb_forall. auto.
Qed.

Lemma forallb_flat_map {A B} (f : B -> bool) (g : A -> list B) (h : A -> bool) l :
  (forall x, h x = true -> forallb f (g x) = true) ->
  forallb h l = true -> forallb f (flat_map g l) = true.
Proof.
  intros Hg. induction l as [|x l IH]; cbn; [easy|].
  intros [Hx Hl]%andb_true_iff. rewrite forallb_app, Hg, IH; auto.
Qed.

Lemma json_stringify_ascii p :
  forallb Js.is_ascii7 (JWTPayload.userId p) = true ->
  forallb Js.is_ascii7 (JWTPayload.email p) = true ->
  forallb Js.is_ascii7 (Json.stringify p) = true.
Proof.
  intros Hu He. unfold Json.stringify, Json.quote.
  rewrite !forallb_app.
  rewrite (forallb_flat_map _ _ _ _ quote_unit_ascii Hu).
  rewrite (forallb_flat_map _ _ _ _ quote_unit_ascii He).
  rewrite !(forallb_impl _ _ _ number_char_ascii (dec_number_chars _)).
  reflexivity.
Qed.

Lemma json_stringify_nonempty p : Json.stringify p <> [].
Proof. discriminate. Qed.

Lemma sample_mac_length k m : length (Sample.mac k m) = 32%nat.
Proof. unfold Sample.mac. now rewrite length_map, length_seq. Qed.

Lemma sample_kdf_length pw salt iterations bits :
  length (Sample.kdf pw salt iterations bits) = Z.to_nat (bits / 8).
Proof. unfold Sample.kdf. now rewrite length_map, length_seq. Qed.

Lemma sample_key_nonempty k : k <> [] -> Sample.key_ok k = true.
Proof. now destruct k. Qed.

(** Stand-ins for the primitives of [crypto.subtle], with their laws. *)
Definition sample_crypto : WebCrypto := {|
  hmac_key_ok := Sample.key_ok;
  hmac_sha256 := Sample.mac;
  pbkdf2_sha256 := Sample.kdf;
  hmac_key_nonempty := sample_key_nonempty;
  hmac_sha256_length := sample_mac_length;
  pbkdf2_sha256_length := sample_kdf_length
|}.

(** [JSON.stringify] and the parser of its texts, with their laws. *)
Definition json_codec : JsonCodec := {|
  JSON_stringify := Json.stringify;
  JSON_parse := Json.parse;
  JSON_parse_stringify := json_parse_stringify;
  JSON_stringify_nonempty := json_stringify_nonempty;
  JSON_stringify_ascii := json_stringify_ascii
|}.


(** ** Splitting a token *)

Lemma split_nonempty sep s : Js.split sep s <> [].
Proof.
  destruct s as [|c s]; cbn; [discriminate|].
  destruct (c =? sep)%char; [discriminate|].
  destruct (Js.split sep s); discriminate.
Qed.

(** [(a + sep + b).split(sep)] is [a.split(sep)] followed by
    [b.split(sep)]. *)
Lemma split_app sep a b :
  Js.split sep (a ++ sep :: b) = Js.split sep a ++ Js.split sep b.
Proof.
  induction a as [|c a IH]; cbn.
  - now rewrite Ascii.eqb_refl.
  - destruct (c =? sep)%char; [now rewrite IH|].
    rewrite IH. pose proof (split_nonempty sep a).
    now destruct (Js.split sep a).
Qed.

Lemma split_none sep s :
  forallb (fun c => negb (c =? sep)%char) s = true -> Js.split sep s = [s].
Proof.
  induction s as [|c s IH]; cbn; [easy|].
  intros [Hc Hs]%andb_true_iff. apply negb_true_iff in Hc.
  now rewrite Hc, IH.
Qed.

Lemma url_char_not_dot s : negb (url_char s =? ".")%char = true.
Proof. each_sextet s; reflexivity. Qed.

Lemma segment_no_dot data :
  forallb (fun c => negb (c =? ".")%char) (base64UrlEncode data) = true.
Proof.
  assert (H : forall b, forallb (fun c => negb (c =? ".")%char)
                          (base64UrlEncode (OfBytes b)) = true).
  { intros b. rewrite base64UrlEncode_bytes. apply forallb_forall.
    intros c [s [<- _]]%in_map_iff. apply url_char_not_dot. }
  destruct data; apply H.
Qed.

Lemma segment_empty b :
  is_empty (base64UrlEncode (OfBytes b)) = is_empty b.
Proof.
  rewrite base64UrlEncode_bytes. now destruct b as [|x [|y [|z l]]].
Qed.

(** The three segments of a token built from three encoded parts. *)
Lemma split_token h p sg :
  Js.split "." ((base64UrlEncode h ++ "." ++ base64UrlEncode p)
                  ++ "." ++ base64UrlEncode sg)
  = [base64UrlEncode h; base64UrlEncode p; base64UrlEncode sg].
Proof.
  change ("." ++ ?X) with ("."%char :: X).
  rewrite split_app, split_app.
  now rewrite !split_none by apply segment_no_dot.
Qed.

(** UTF-8 leaves ASCII text as it is. *)
Lemma encode_ascii s : forallb Js.is_ascii7 s = true -> Js.encode s = s.
Proof.
  induction s as [|c s IH]; [easy|].
  cbn [forallb]. intros [Hc Hs]%andb_true_iff.
  change (Js.encode (c :: s)) with (Js.utf8_unit c ++ Js.encode s).
  unfold Js.utf8_unit. unfold Js.is_ascii7 in Hc. rewrite Hc, IH by assumption.
  reflexivity.
Qed.

Lemma encode_nonempty s : s <> [] -> Js.encode s <> [].
Proof.
  destruct s as [|c s]; [easy|]. intros _. cbn. unfold Js.utf8_unit.
  now destruct (Js.code c <? 128).
Qed.

(** ** Signing and verifying *)

Section TokenFacts.
Context {C : WebCrypto} {J : JsonCodec}.

Lemma createJWT_eq userId email secret now_ms :
  secret <> [] ->
  createJWT userId email secret now_ms =
  Some ((base64UrlEncode (OfString header_json) ++ "."
          ++ base64UrlEncode
               (OfString (JSON_stringify
                  {| JWTPayload.userId := userId; JWTPayload.email := email;
                     JWTPayload.iat := now_ms / 1000;
                     JWTPayload.exp := now_ms / 1000 + 7 * 24 * 60 * 60 |})))
        ++ "."
        ++ base64UrlEncode
             (OfBytes (hmac_sha256 (Js.encode secret)
                (Js.encode
                   (base64UrlEncode (OfString header_json) ++ "."
                      ++ base64UrlEncode
                           (OfString (JSON_stringify
                              {| JWTPayload.userId := userId;
                                 JWTPayload.email := email;
                                 JWTPayload.iat := now_ms / 1000;
                                 JWTPayload.exp :=
                                   now_ms / 1000 + 7 * 24 * 60 * 60 |}))))))).
Proof.
  intros Hs. unfold createJWT, signMessage.
  now rewrite (hmac_key_nonempty _ (encode_nonempty _ Hs)).
Qed.

Lemma hmac_nonempty k m : is_empty (hmac_sha256 k m) = false.
Proof.
  pose proof (hmac_sha256_length k m) as H.
  now destruct (hmac_sha256 k m).
Qed.

(** What [verifyJWT] does with a token that [createJWT] has just built:
    the three segments are found again, the signature matches, and the
    payload text is parsed as it comes back from Base64, one code unit
    per UTF-8 byte. *)
Lemma verify_created_text userId email secret now_ms now_ms' token :
  secret <> [] ->
  createJWT userId email secret now_ms = Some token ->
  verifyJWT token secret now_ms' =
  match JSON_parse
          (Js.encode
             (JSON_stringify
                {| JWTPayload.userId := userId; JWTPayload.email := email;
                   JWTPayload.iat := now_ms / 1000;
                   JWTPayload.exp := now_ms / 1000 + 7 * 24 * 60 * 60 |})) with
  | Some payload =>
      if JWTPayload.exp payload <? now_ms' / 1000 then None else Some payload
  | None => None
  end.
Proof.
  intros Hs. rewrite createJWT_eq by assumption.
  intros Htoken. apply (inj Some) in Htoken. subst token.
  set (jp := {| JWTPayload.userId := userId |}).
  unfold verifyJWT. rewrite split_token.
  change (base64UrlEncode (OfString ?s)) with (base64UrlEncode (OfBytes (Js.encode s))).
  rewrite !segment_empty, hmac_nonempty.
  replace (is_empty (Js.encode header_json)) with false by reflexivity.
  destruct (is_empty (Js.encode (JSON_stringify jp))) eqn:Ej.
  { exfalso. apply (encode_nonempty _ (JSON_stringify_nonempty jp)).
    now destruct (Js.encode (JSON_stringify jp)). }
  cbn [orb].
  unfold verifySignature. rewrite base64Url_roundtrip. cbn [mbind option_bind].
  rewrite (hmac_key_nonempty _ (encode_nonempty _ Hs)).
  rewrite bool_decide_eq_true_2 by reflexivity.
  now rewrite base64Url_roundtrip.
Qed.

(** A token verifies as long as its payload text is ASCII and it has not
    expired. *)
Lemma verify_created userId email secret now_ms now_ms' token :
  secret <> [] ->
  forallb Js.is_ascii7 userId = true ->
  forallb Js.is_ascii7 email = true ->
  now_ms' / 1000 <= now_ms / 1000 + 7 * 24 * 60 * 60 ->
  createJWT userId email secret now_ms = Some token ->
  verifyJWT token secret now_ms' =
  Some {| JWTPayload.userId := userId; JWTPayload.email := email;
          JWTPayload.iat := now_ms / 1000;
          JWTPayload.exp := now_ms / 1000 + 7 * 24 * 60 * 60 |}.
Proof.
  intros Hs Hu He Hnow Htoken.
  rewrite (verify_created_text _ _ _ _ _ _ Hs Htoken).
  rewrite encode_ascii by (apply JSON_stringify_ascii; assumption).
  rewrite JSON_parse_stringify. cbn [JWTPayload.exp].
  destruct (Z.ltb_spec (now_ms / 1000 + 7 * 24 * 60 * 60) (now_ms' / 1000)); [lia|].
  reflexivity.
Qed.

(** Segments after the third are never looked at. *)
Lemma verify_extra_segments token extra secret now_ms :
  (3 <= length (Js.split "." token))%nat ->
  verifyJWT (token ++ "." ++ extra) secret now_ms = verifyJWT token secret now_ms.
Proof.
  intros Hlen. unfold verifyJWT.
  change ("." ++ ?X) with ("."%char :: X). rewrite split_app.
  destruct (Js.split "." token) as [|h [|p [|sg rest]]]; cbn in Hlen; try lia.
  reflexivity.
Qed.

End TokenFacts.

(** ** Hashing and verifying a password *)

Lemma hex_chunk b rest :
  Hex.chunks (Hex.padStart2 (Hex.toString16 b) ++ rest)
  = Hex.padStart2 (Hex.toString16 b) :: Hex.chunks rest.
Proof. each_byte b; reflexivity. Qed.

Lemma hex_parse b :
  Hex.toUint8 (Hex.parseInt16 (Hex.padStart2 (Hex.toString16 b))) = b.
Proof. each_byte b; reflexivity. Qed.

Lemma chunks_encode bytes :
  Hex.chunks (Hex.encode bytes)
  = map (fun b => Hex.padStart2 (Hex.toString16 b)) bytes.
Proof.
  induction bytes as [|b bytes IH]; [reflexivity|].
  unfold Hex.encode. cbn [flat_map map]. rewrite hex_chunk. f_equal. apply IH.
Qed.

(** The bytes [verifyPassword] reads from a stored string. *)
Definition decoded (hash : JsString) : Uint8Array :=
  map (fun byte => Hex.toUint8 (Hex.parseInt16 byte)) (Hex.chunks hash).

Lemma decoded_encode bytes : decoded (Hex.encode bytes) = bytes.
Proof.
  unfold decoded. rewrite chunks_encode, map_map.
  rewrite (map_ext _ id) by apply hex_parse. apply map_id.
Qed.


Lemma code_inj c d : Js.code c = Js.code d -> c = d.
Proof.
  unfold Js.code. intros H%N2Z.inj.
  now rewrite <- (ascii_N_embedding c), <- (ascii_N_embedding d), H.
Qed.

Lemma xor_fold_zero l acc :
  fold_left
    (fun result '(c, s) => Z.lor result (Z.lxor (Js.code c) (Js.code s)))
    l acc = 0
  <-> acc = 0 /\ Forall (fun '(c, s) => c = s) l.
Proof.
  revert acc. induction l as [|[c s] l IH]; intros acc; cbn [fold_left].
  - split; [intros ->; auto | tauto].
  - rewrite IH, Z.lor_eq_0_iff, Z.lxor_eq_0_iff, Forall_cons_iff.
    split.
    + intros [[-> ->%code_inj] Hl]. auto.
    + intros [-> [-> Hl]]. auto.
Qed.

(** The accumulated XOR is 0 exactly when the two arrays are equal. *)
Lemma xor_accumulate_zero (c s : Uint8Array) :
  length c = length s -> (xor_accumulate c s = 0 <-> c = s).
Proof.
  unfold xor_accumulate. rewrite xor_fold_zero.
  revert s. induction c as [|x c IH]; intros [|y s] Hlen; try discriminate.
  - cbn. split; auto.
  - cbn [combine]. rewrite Forall_cons_iff. injection Hlen as Hlen.
    specialize (IH s Hlen). split.
    + intros [_ [-> Hl]]. f_equal. tauto.
    + intros [= -> ->]. split; [reflexivity|]. split; [reflexivity|]. tauto.
Qed.

(** On a string of code units below 256 the encoder of [Utf16] is the
    one of [Js]. *)
Lemma encode_of_latin1 s : Utf16.encode (Utf16.of_latin1 s) = Js.encode s.
Proof.
  induction s as [|c s IH]; [reflexivity|].
  change (Utf16.of_latin1 (c :: s)) with (("000"%char, c) :: Utf16.of_latin1 s).
  change (Js.encode (c :: s)) with (Js.utf8_unit c ++ Js.encode s).
  rewrite <- IH.
  generalize (Utf16.of_latin1 s) as r. intros r.
  destruct c as [[] [] [] [] [] [] [] []]; reflexivity.
Qed.

Section PasswordFacts.
Context {C : WebCrypto}.

Lemma derived_length pw salt : length (pbkdf2_sha256 pw salt 100000 256) = 32%nat.
Proof. now rewrite pbkdf2_sha256_length. Qed.

(** [verifyPassword] in terms of the bytes it decodes. *)
Lemma verifyPassword_decoded password hash :
  verifyPassword password hash = true <->
  length (decoded hash) = 48%nat /\
  skipn 16 (decoded hash)
  = pbkdf2_sha256 (Utf16.encode password) (firstn 16 (decoded hash)) 100000 256.
Proof.
  unfold verifyPassword.
  assert (Hd : length (decoded hash) = length (Hex.chunks hash))
    by apply length_map.
  destruct (Hex.chunks hash) as [|ch chs] eqn:Ech.
  - split; [discriminate|]. intros [H _]. rewrite Hd in H. discriminate.
  - rewrite <- Ech. fold (decoded hash). clear Hd Ech.
    set (d := decoded hash) in *.
    set (dk := pbkdf2_sha256 _ _ _ _).
    pose proof (derived_length (Utf16.encode password) (firstn 16 d)) as Hdk.
    fold dk in Hdk.
    destruct (length dk =? length (skipn 16 d))%nat eqn:El; cbn [negb].
    + apply Nat.eqb_eq in El. rewrite Z.eqb_eq, (xor_accumulate_zero _ _ El).
      rewrite length_skipn in El. split.
      * intros E. split; [lia | easy].
      * intros [_ E]. easy.
    + apply Nat.eqb_neq in El. rewrite length_skipn in El.
      split; [discriminate|]. intros [H _]. lia.
Qed.

Lemma verify_hashed password salt :
  length salt = 16%nat ->
  verifyPassword password (hashPassword password salt) = true.
Proof.
  intros Hs. apply verifyPassword_decoded. unfold hashPassword.
  rewrite decoded_encode, length_app, derived_length, Hs.
  split; [reflexivity|].
  now rewrite (drop_app_length' _ _ 16), (take_app_length' _ _ 16) by auto.
Qed.

(** Against a stored hash, [verifyPassword] accepts the passwords whose
    derived key under the stored salt is the stored key. *)
Lemma verify_hashed_iff password salt attempt :
  length salt = 16%nat ->
  verifyPassword attempt (hashPassword password salt) = true
  <-> pbkdf2_sha256 (Utf16.encode attempt) salt 100000 256
      = pbkdf2_sha256 (Utf16.encode password) salt 100000 256.
Proof.
  intros Hs. rewrite verifyPassword_decoded. unfold hashPassword.
  rewrite decoded_encode, length_app, derived_length, Hs.
  rewrite (drop_app_length' _ _ 16), (take_app_length' _ _ 16) by auto.
  split; [now intros [_ <-] | now intros ->].
Qed.

End PasswordFacts.

(** ** Regular expressions, [trim] and [toLowerCase] *)

(** Every character class of [r] lies inside [Q]. *)
Fixpoint classes_in (Q : ascii -> bool) (r : Regex.t) : Prop :=
  match r with
  | Regex.Class p => forall c, p c = true -> Q c = true
  | Regex.Seq a b | Regex.Alt a b => classes_in Q a /\ classes_in Q b
  | Regex.Star a => classes_in Q a
  | Regex.Void | Regex.Eps => True
  end.

(** A syntactic reason for matching nothing. *)
Fixpoint dead (r : Regex.t) : bool :=
  match r with
  | Regex.Void => true
  | Regex.Seq a b => dead a || dead b
  | Regex.Alt a b => dead a && dead b
  | _ => false
  end.

Lemma dead_not_nullable r : dead r = true -> Regex.nullable r = false.
Proof.
  induction r; cbn; try discriminate; try reflexivity.
  - intros [H|H]%orb_true_iff; [rewrite IHr1 | rewrite IHr2]; auto.
    apply andb_false_r.
  - intros [H1 H2]%andb_true_iff. now rewrite IHr1, IHr2.
Qed.

Lemma dead_deriv c r : dead r = true -> dead (Regex.deriv c r) = true.
Proof.
  induction r; cbn; try discriminate; try reflexivity.
  - intros [H|H]%orb_true_iff.
    + rewrite (dead_not_nullable _ H). cbn. now rewrite IHr1.
    + destruct (Regex.nullable r1); cbn; rewrite ?H, ?IHr2 by assumption;
        now rewrite ?orb_true_r.
  - intros [H1 H2]%andb_true_iff. now rewrite IHr1, IHr2.
Qed.

Lemma dead_test r s : dead r = true -> Regex.test r s = false.
Proof.
  unfold Regex.test. revert r. induction s as [|c s IH]; intros r H; cbn.
  - now apply dead_not_nullable.
  - apply IH. now apply dead_deriv.
Qed.

Lemma deriv_outside Q c r :
  classes_in Q r -> Q c = false -> dead (Regex.deriv c r) = true.
Proof.
  intros Hr Hc. induction r; cbn in *; try reflexivity.
  - destruct (p c) eqn:E; [|reflexivity]. apply Hr in E. congruence.
  - destruct Hr as [H1 H2].
    destruct (Regex.nullable r1); cbn; now rewrite IHr1, ?IHr2.
  - destruct Hr as [H1 H2]. now rewrite IHr1, IHr2.
  - now rewrite IHr.
Qed.

Lemma classes_deriv Q c r : classes_in Q r -> classes_in Q (Regex.deriv c r).
Proof.
  induction r; cbn; try tauto.
  - intros _. now destruct (p c).
  - intros [H1 H2]. destruct (Regex.nullable r1); cbn; tauto.
Qed.

(** A string that matches consists of characters of the classes. *)
Lemma test_inside Q r s :
  classes_in Q r -> Regex.test r s = true -> forallb Q s = true.
Proof.
  revert r. induction s as [|c s IH]; intros r Hr Ht; [reflexivity|].
  cbn. destruct (Q c) eqn:Ec.
  - apply (IH (Regex.deriv c r)); [now apply classes_deriv | exact Ht].
  - change (Regex.test (Regex.deriv c r) s = true) in Ht.
    rewrite dead_test in Ht by (now apply (deriv_outside Q)). discriminate.
Qed.

Definition not_space (c : ascii) : bool := negb (Js.is_space c).

Lemma email_no_space s :
  Regex.test email_regex s = true -> forallb not_space s = true.
Proof.
  apply test_inside. cbn.
  assert (H1 : forall c, not_space_at c = true -> not_space c = true).
  { intros c. unfold not_space_at, not_space.
    now destruct (Js.is_space c). }
  assert (H2 : forall c d, not_space d = true -> (c =? d)%char = true -> not_space c = true).
  { intros c d Hd ->%Ascii.eqb_eq. exact Hd. }
  repeat split; auto; intros c; now apply H2.
Qed.


Lemma trimStart_id s : forallb not_space s = true -> Js.trimStart s = s.
Proof.
  destruct s as [|c s]; [reflexivity|]. cbn. unfold not_space.
  now destruct (Js.is_space c).
Qed.

Lemma forallb_rev {A} (f : A -> bool) l : forallb f (rev l) = forallb f l.
Proof.
  induction l as [|x l IH]; [reflexivity|].
  cbn. rewrite forallb_app, IH. cbn. rewrite andb_true_r. apply andb_comm.
Qed.

(** [trim] and [toLowerCase] on a string without white space. *)
Lemma trim_id s : forallb not_space s = true -> Js.trim s = s.
Proof.
  intros H. unfold Js.trim, Js.trimEnd.
  rewrite (trimStart_id s H), trimStart_id, rev_involutive; [reflexivity|].
  now rewrite forallb_rev.
Qed.



(** ** Validation *)

Section ValidationFacts.
Context {R : JsRuntime}.

Lemma validateInput_cons data rule rules :
  validateInput data (rule :: rules)
  = (pushed ← rule_errors data rule;
     rest ← validateInput data rules;
     Some {| isValid := (length (pushed ++ errors rest) =? 0)%nat;
             errors := pushed ++ errors rest |}).
Proof.
  unfold validateInput. cbn [mapM].
  destruct (rule_errors data rule) as [pushed|]; [|reflexivity].
  cbn. destruct (mapM (rule_errors data) rules) as [l|]; reflexivity.
Qed.

Lemma validateInput_isValid data rules v :
  validateInput data rules = Some v ->
  isValid v = (length (errors v) =? 0)%nat.
Proof.
  unfold validateInput. destruct (mapM _ _); [|discriminate].
  now intros [= <-].
Qed.

(** A valid result has no message. *)
Lemma valid_accepted data rules v :
  validateInput data rules = Some v -> isValid v = true -> v = accepted.
Proof.
  intros Hv Ht. rewrite (validateInput_isValid _ _ _ Hv) in Ht.
  destruct v as [b errs]. cbn [errors] in Ht.
  apply Nat.eqb_eq, length_zero_iff_nil in Ht. subst errs.
  apply validateInput_isValid in Hv. cbn in Hv. now subst b.
Qed.

Lemma validateInput_valid data rules :
  validateInput data rules = Some accepted <->
  forall rule, In rule rules -> rule_errors data rule = Some [].
Proof.
  induction rules as [|r rules IH].
  - split; [intros _ rule [] | reflexivity].
  - rewrite validateInput_cons. split.
    + destruct (rule_errors data r) as [pushed|] eqn:Er; [|discriminate].
      cbn [mbind option_bind].
      destruct (validateInput data rules) as [v|] eqn:Ev; [|discriminate].
      cbn [mbind option_bind]. intros [= Hv He].
      apply app_eq_nil in He as [-> He].
      intros rule [<-|Hin]; [exact Er|].
      apply IH; [|exact Hin]. f_equal.
      apply (valid_accepted data rules v Ev).
      rewrite (validateInput_isValid _ _ _ Ev), He. reflexivity.
    + intros H. rewrite (H r) by now left. cbn [mbind option_bind].
      assert (Hr : validateInput data rules = Some accepted).
      { apply IH. intros rule Hin. apply H. now right. }
      now rewrite Hr.
Qed.

(** What a rule pushes for a falsy value. *)
Lemma rule_errors_falsy data rule :
  Value.truthy (Value.field_of data (field rule)) = false ->
  rule_errors data rule =
  Some (if required rule then [field rule ++ " is required"] else []).
Proof.
  intros H. unfold rule_errors. now rewrite H.
Qed.


(** What a rule pushes for a value that is true and has a text. *)
Lemma rule_errors_text data rule text :
  Value.truthy (Value.field_of data (field rule)) = true ->
  Value.toString (Value.field_of data (field rule)) = Some text ->
  rule_errors data rule =
  if required rule && is_empty (Js.trim text)
  then Some [field rule ++ " is required"]
  else
    tooShort ← length_below (Value.field_of data (field rule)) (minLength rule);
    tooLong ← length_above (Value.field_of data (field rule)) (maxLength rule);
    Some
      ((if match type rule with Some TEmail => true | _ => false end
           && negb (Regex.test email_regex text)
        then [field rule ++ " must be a valid email"] else [])
       ++ (if tooShort : bool
           then [field rule ++ " must be at least "
                   ++ Number.dec (default 0 (minLength rule)) ++ " characters"]
           else [])
       ++ (if tooLong : bool
           then [field rule ++ " must not exceed "
                   ++ Number.dec (default 0 (maxLength rule)) ++ " characters"]
           else [])
       ++ (match pattern rule with
           | Some test =>
               if negb (test text) then [field rule ++ " format is invalid"] else []
           | None => []
           end)).
Proof.
  intros Ht Hs. unfold rule_errors. rewrite Ht, Hs. cbn [negb fmap option_fmap option_map].
  destruct (required rule); cbn [mbind option_bind andb].
  - destruct (is_empty (Js.trim text)); [reflexivity|].
    destruct (type rule) as [[]|]; cbn [mbind option_bind andb];
      destruct (length_below _ _) as [[]|]; cbn [mbind option_bind]; try reflexivity;
      destruct (length_above _ _) as [[]|]; cbn [mbind option_bind]; try reflexivity;
      destruct (pattern rule); reflexivity.
  - destruct (type rule) as [[]|]; cbn [mbind option_bind andb];
      destruct (length_below _ _) as [[]|]; cbn [mbind option_bind]; try reflexivity;
      destruct (length_above _ _) as [[]|]; cbn [mbind option_bind]; try reflexivity;
      destruct (pattern rule); reflexivity.
Qed.

(** The messages of a rule for a string. *)
Definition string_errors (rule : ValidationRule) (s : JsString) : list JsString :=
  if required rule && is_empty (Js.trim s)
  then [field rule ++ " is required"]
  else
    (if match type rule with Some TEmail => true | _ => false end
        && negb (Regex.test email_regex s)
     then [field rule ++ " must be a valid email"] else [])
    ++ (match minLength rule with
        | Some n =>
            if negb (n =? 0) && (Z.of_nat (length s) <? n)
            then [field rule ++ " must be at least " ++ Number.dec n ++ " characters"]
            else []
        | None => []
        end)
    ++ (match maxLength rule with
        | Some n =>
            if negb (n =? 0) && (Z.of_nat (length s) >? n)
            then [field rule ++ " must not exceed " ++ Number.dec n ++ " characters"]
            else []
        | None => []
        end)
    ++ (match pattern rule with
        | Some test =>
            if negb (test s) then [field rule ++ " format is invalid"] else []
        | None => []
        end).

Lemma rule_errors_string data rule s :
  Value.field_of data (field rule) = JStr s ->
  rule_errors data rule
  = Some (if is_empty s
          then (if required rule then [field rule ++ " is required"] else [])
          else string_errors rule s).
Proof.
  intros Hs. destruct s as [|c s].
  - rewrite rule_errors_falsy by now rewrite Hs. reflexivity.
  - rewrite (rule_errors_text data rule (c :: s)) by now rewrite Hs.
    rewrite Hs. cbn [is_empty]. unfold string_errors, length_below, length_above.
    destruct (required rule && is_empty (Js.trim (c :: s))); [reflexivity|].
    unfold Value.length_lt, Value.length_gt. cbn [Value.length_of].
    destruct (minLength rule) as [n|], (maxLength rule) as [m|];
      cbn [mbind option_bind default negb andb];
      try destruct (n =? 0); try destruct (m =? 0);
      cbn [mbind option_bind default negb andb]; reflexivity.
Qed.



End ValidationFacts.

(** ** The rate limiter *)

(** Successive calls of [checkRate] for one key at the given times. *)
Fixpoint checkRates (key : JsString) (maxAttempts windowMs : Z)
  (times : list Z) (a : RateLimiter.attempts) : list bool * RateLimiter.attempts :=
  match times with
  | [] => ([], a)
  | now :: times' =>
      let '(allowed, a') := RateLimiter.checkRate key maxAttempts windowMs now a in
      let '(rest, a'') := checkRates key maxAttempts windowMs times' a' in
      (allowed :: rest, a'')
  end.

Lemma checkRate_fresh (key : JsString) (maxAttempts windowMs now : Z)
  (a : RateLimiter.attempts) :
  (a !! key = None \/
   exists r, a !! key = Some r /\ RateLimiter.resetTime r < now) ->
  RateLimiter.checkRate key maxAttempts windowMs now a
  = (true, <[key := {| RateLimiter.count := 1;
                       RateLimiter.resetTime := now + windowMs |}]> a).
Proof.
  unfold RateLimiter.checkRate. intros [->|(r & -> & Hr)]; [reflexivity|].
  destruct (Z.gtb_spec now (RateLimiter.resetTime r)); [reflexivity|lia].
Qed.

Lemma checkRate_below (key : JsString) (maxAttempts windowMs now : Z)
  (a : RateLimiter.attempts) r :
  a !! key = Some r -> now <= RateLimiter.resetTime r ->
  RateLimiter.count r < maxAttempts ->
  RateLimiter.checkRate key maxAttempts windowMs now a
  = (true, <[key := {| RateLimiter.count := RateLimiter.count r + 1;
                       RateLimiter.resetTime := RateLimiter.resetTime r |}]> a).
Proof.
  unfold RateLimiter.checkRate. intros -> Hn Hc.
  destruct (Z.gtb_spec now (RateLimiter.resetTime r)); [lia|].
  destruct (Z.geb_spec (RateLimiter.count r) maxAttempts); [lia|reflexivity].
Qed.

Lemma checkRate_reached (key : JsString) (maxAttempts windowMs now : Z)
  (a : RateLimiter.attempts) r :
  a !! key = Some r -> now <= RateLimiter.resetTime r ->
  maxAttempts <= RateLimiter.count r ->
  RateLimiter.checkRate key maxAttempts windowMs now a = (false, a).
Proof.
  unfold RateLimiter.checkRate. intros -> Hn Hc.
  destruct (Z.gtb_spec now (RateLimiter.resetTime r)); [lia|].
  destruct (Z.geb_spec (RateLimiter.count r) maxAttempts); [reflexivity|lia].
Qed.

(** Inside one window: the calls that still fit are allowed, the others
    are rejected, and the counter stops at the maximum. *)
Lemma checkRates_window (key : JsString) (maxAttempts windowMs : Z) times :
  forall (a : RateLimiter.attempts) r,
  a !! key = Some r ->
  Forall (fun t => t <= RateLimiter.resetTime r) times ->
  RateLimiter.count r <= maxAttempts ->
  let room := Z.to_nat (maxAttempts - RateLimiter.count r) in
  let used := Nat.min room (length times) in
  checkRates key maxAttempts windowMs times a
  = (repeat true used ++ repeat false (length times - used),
     <[key := {| RateLimiter.count := RateLimiter.count r + Z.of_nat used;
                 RateLimiter.resetTime := RateLimiter.resetTime r |}]> a).
Proof.
  induction times as [|t times IH]; intros a r Ha Ht Hc room used.
  - subst used. rewrite Nat.min_0_r. cbn. f_equal. rewrite Z.add_0_r.
    symmetry. apply insert_id. now destruct r.
  - apply Forall_cons in Ht as [Ht Hts]. cbn [checkRates].
    destruct (Z.lt_ge_cases (RateLimiter.count r) maxAttempts) as [Hlt|Hge].
    + rewrite (checkRate_below _ _ _ _ _ _ Ha Ht Hlt).
      specialize (IH (<[key := {| RateLimiter.count := RateLimiter.count r + 1;
                                   RateLimiter.resetTime := RateLimiter.resetTime r |}]> a)
                    {| RateLimiter.count := RateLimiter.count r + 1;
                       RateLimiter.resetTime := RateLimiter.resetTime r |}).
      cbn [RateLimiter.count RateLimiter.resetTime] in IH.
      rewrite IH; [|apply lookup_insert_eq|assumption|lia].
      rewrite insert_insert_eq.
      assert (Hroom : room = S (Z.to_nat (maxAttempts - (RateLimiter.count r + 1))))
        by (subst room; lia).
      subst used. rewrite Hroom. cbn [length Nat.min Nat.sub repeat app].
      do 3 f_equal. lia.
    + rewrite (checkRate_reached _ _ _ _ _ _ Ha Ht Hge).
      rewrite (IH a r Ha Hts Hc).
      assert (Hroom : Z.to_nat (maxAttempts - RateLimiter.count r) = 0%nat) by lia.
      subst used room. rewrite !Hroom. cbn [Nat.min Nat.sub length repeat app].
      rewrite ?Nat.sub_0_r. reflexivity.
Qed.

(** C5: [checkRate] opens a window with count 1 for an unknown key or
    once the stored [resetTime] is past, and allows the call; inside the
    window it allows calls while the count is below [maxAttempts] and
    rejects them, without counting, once it is reached, so that after the
    call that opens the window [maxAttempts - 1] further calls are
    allowed.  With [maxAttempts = 3], four calls in one window give three
    allowed calls and a rejected one, and a further call is allowed
    exactly when the window has elapsed. *)
Theorem checkRate_fixed_window (key : JsString) (maxAttempts windowMs : Z)
  (a : RateLimiter.attempts) (t1 t2 t3 t4 t5 : Z) :
  (a !! key = None \/
   exists r, a !! key = Some r /\ RateLimiter.resetTime r < t1) ->
  t2 <= t1 + windowMs -> t3 <= t1 + windowMs -> t4 <= t1 + windowMs ->
  let opened :=
    <[key := {| RateLimiter.count := 1;
                RateLimiter.resetTime := t1 + windowMs |}]> a in
  RateLimiter.checkRate key maxAttempts windowMs t1 a = (true, opened)
  /\ (forall now (b : RateLimiter.attempts) r,
        b !! key = Some r -> now <= RateLimiter.resetTime r ->
        RateLimiter.checkRate key maxAttempts windowMs now b
        = if RateLimiter.count r >=? maxAttempts then (false, b)
          else (true, <[key := {| RateLimiter.count := RateLimiter.count r + 1;
                                  RateLimiter.resetTime := RateLimiter.resetTime r |}]> b))
  /\ (forall times,
        1 <= maxAttempts ->
        Forall (fun t => t <= t1 + windowMs) times ->
        let further := Nat.min (Z.to_nat (maxAttempts - 1)) (length times) in
        (checkRates key maxAttempts windowMs (t1 :: times) a).1
        = true :: repeat true further ++ repeat false (length times - further))
  /\ (let '(results, after) := checkRates key 3 windowMs [t1; t2; t3; t4] a in
      results = [true; true; true; false]
      /\ after !! key = Some {| RateLimiter.count := 3;
                                RateLimiter.resetTime := t1 + windowMs |}
      /\ ((RateLimiter.checkRate key 3 windowMs t5 after).1 = true
          <-> t1 + windowMs < t5)).
Proof.
  intros Hfresh H2 H3 H4 opened. split; [|split; [|split]].
  - now apply checkRate_fresh.
  - intros now b r Hb Hnow.
    destruct (Z.geb_spec (RateLimiter.count r) maxAttempts).
    + now apply (checkRate_reached _ _ _ _ _ r).
    + now apply checkRate_below.
  - intros times Hmax Htimes further. cbn [checkRates].
    rewrite (checkRate_fresh _ _ _ _ _ Hfresh). fold opened.
    rewrite (checkRates_window key maxAttempts windowMs times opened
               {| RateLimiter.count := 1;
                  RateLimiter.resetTime := t1 + windowMs |});
      [reflexivity|apply lookup_insert_eq|assumption|].
    cbn [RateLimiter.count]. lia.
  - cbn [checkRates]. rewrite (checkRate_fresh _ _ _ _ _ Hfresh).
    fold opened.
    pose proof (checkRates_window key 3 windowMs [t2; t3; t4] opened
                  {| RateLimiter.count := 1;
                     RateLimiter.resetTime := t1 + windowMs |}) as Hw.
    cbn [RateLimiter.count RateLimiter.resetTime] in Hw.
    change (checkRates key 3 windowMs [t2; t3; t4] opened) with
      (let '(allowed, a') := RateLimiter.checkRate key 3 windowMs t2 opened in
       let '(rest, a'') := checkRates key 3 windowMs [t3; t4] a' in
       (allowed :: rest, a'')) in Hw.
    cbn [checkRates] in Hw.
    rewrite Hw; [|apply lookup_insert_eq|repeat constructor; assumption|lia].
    subst opened. cbn. split; [reflexivity|]. rewrite insert_insert_eq.
    split; [apply lookup_insert_eq|].
    unfold RateLimiter.checkRate. rewrite lookup_insert_eq.
    cbn [RateLimiter.count RateLimiter.resetTime].
    destruct (Z.gtb_spec t5 (t1 + windowMs)); cbn; split; intros; try lia; easy.
Qed.

Lemma checkRate_fixed_window_witness :
  (checkRates "login:203.0.113.7" 3 900000 [0; 10; 20; 30] ∅).1
  = [true; true; true; false]
  /\ ((RateLimiter.checkRate "login:203.0.113.7" 3 900000 900001
         (checkRates "login:203.0.113.7" 3 900000 [0; 10; 20; 30] ∅).2).1 = true
      <-> 0 + 900000 < 900001).
Proof.
  pose proof (checkRate_fixed_window "login:203.0.113.7" 3 900000 ∅
                0 10 20 30 900001 (or_introl eq_refl)
                ltac:(lia) ltac:(lia) ltac:(lia)) as (_ & _ & _ & H).
  cbv zeta in H.
  destruct (checkRates "login:203.0.113.7" 3 900000 [0; 10; 20; 30] ∅)
    as [results after].
  destruct H as (H1 & _ & H2). split; [exact H1 | exact H2].
Defined.

(** ** Validation of falsy values *)



(** ** Claims on the password hasher *)

Section PasswordClaims.
Context {C : WebCrypto}.

Lemma hashPassword_length password salt :
  length salt = 16%nat -> length (hashPassword password salt) = 96%nat.
Proof.
  intros Hs. unfold hashPassword, Hex.encode.
  assert (H : forall l, length (flat_map (fun b => Hex.padStart2 (Hex.toString16 b)) l)
                        = (2 * length l)%nat).
  { induction l as [|b l IH]; [reflexivity|].
    cbn [flat_map]. rewrite length_app, IH.
    replace (length (Hex.padStart2 (Hex.toString16 b))) with 2%nat
      by (each_byte b; reflexivity).
    cbn [length]. lia. }
  rewrite H, length_app, Hs, derived_length. reflexivity.
Qed.

(** C7: for every password, which is any string of 16-bit code units
    and so every text of Unicode, and every 16-byte salt: the stored
    string is the 96 hexadecimal digits of the salt followed by the key
    derived from the UTF-8 bytes of the password (PBKDF2-HMAC-SHA256,
    100000 iterations, 32 bytes), and [verifyPassword] accepts the
    password for it.  It does so by reading the salt and the key back
    and deriving again with the same parameters: against this stored
    string it accepts exactly the attempts whose key derived with this
    salt, 100000 iterations and 32 bytes is the stored key, and it
    refuses every attempt once one character of the stored key is
    changed. *)
Theorem verify_after_hash (password : Utf16.t) (salt : Uint8Array) :
  length salt = 16%nat ->
  hashPassword password salt
  = Hex.encode (salt ++ pbkdf2_sha256 (Utf16.encode password) salt 100000 256)
  /\ length (hashPassword password salt) = 96%nat
  /\ verifyPassword password (hashPassword password salt) = true
  /\ (forall attempt,
        verifyPassword attempt (hashPassword password salt) = true
        <-> pbkdf2_sha256 (Utf16.encode attempt) salt 100000 256
            = pbkdf2_sha256 (Utf16.encode password) salt 100000 256)
  /\ (forall key,
        length key = 32%nat ->
        verifyPassword password (Hex.encode (salt ++ key)) = true
        <-> key = pbkdf2_sha256 (Utf16.encode password) salt 100000 256).
Proof.
  intros Hs. split; [reflexivity|]. split; [|split; [|split]].
  - now apply hashPassword_length.
  - now apply verify_hashed.
  - intros attempt. now apply verify_hashed_iff.
  - intros key Hk. rewrite verifyPassword_decoded.
    rewrite decoded_encode, length_app, Hk, Hs.
    rewrite (drop_app_length' _ _ 16), (take_app_length' _ _ 16) by auto.
    split; [now intros [_ ->] | now intros ->].
Qed.

End PasswordClaims.

(** A password with a character of two bytes, one of three and one of
    four (a surrogate pair): [p], a-umlaut, the euro sign, U+1F600. *)
Definition unicode_password : Utf16.t :=
  [ ("000"%char, "p"%char); ("000"%char, "228"%char); ("032"%char, "172"%char);
    ("216"%char, "061"%char); ("222"%char, "000"%char) ].

Lemma verify_after_hash_witness :
  Utf16.encode unicode_password
  = [ "p"%char; "195"%char; "164"%char; "226"%char; "130"%char; "172"%char;
      "240"%char; "159"%char; "152"%char; "128"%char ]
  /\ @verifyPassword sample_crypto unicode_password
       (@hashPassword sample_crypto unicode_password "0123456789abcdef") = true.
Proof.
  split; [reflexivity|].
  exact (proj1 (proj2 (proj2
           (@verify_after_hash sample_crypto unicode_password "0123456789abcdef"
              eq_refl)))).
Defined.

(** ** Claims on the token codec *)

(** A token signed for [u-1] with the secret [secret] when [Date.now()]
    is 1000, on the reference platform. *)
Definition sample_token : JsString :=
  Eval vm_compute in
    default [] (@createJWT sample_crypto json_codec "u-1" "a@b.co" "secret" 1000).

Section TokenClaims.
Context {C : WebCrypto} {J : JsonCodec}.

(** The payload a token carries in its second segment, whatever its
    signature is. *)
Definition token_payload (token : JsString) : option JWTPayload.t :=
  match Js.split "." token with
  | _ :: encodedPayload :: _ => base64UrlDecode encodedPayload false ≫= JSON_parse
  | _ => None
  end.

(** What [verifyJWT] returns is the payload of the token, and it has not
    expired. *)
Lemma verifyJWT_sound token secret now_ms payload :
  verifyJWT token secret now_ms = Some payload ->
  token_payload token = Some payload /\ now_ms / 1000 <= JWTPayload.exp payload.
Proof.
  unfold verifyJWT, token_payload.
  destruct (Js.split "." token) as [|h [|p [|sg rest]]]; try discriminate.
  destruct (is_empty h || is_empty p || is_empty sg); [discriminate|].
  destruct (verifySignature _ sg secret) as [[]|]; try discriminate.
  destruct (base64UrlDecode p false) as [text|]; [|discriminate]. cbn.
  destruct (JSON_parse text) as [q|]; [|discriminate].
  destruct (Z.ltb_spec (JWTPayload.exp q) (now_ms / 1000)); [discriminate|].
  intros [= ->]. auto.
Qed.

(** C8: a token whose payload has an expiry strictly below the current
    time in seconds is rejected, whatever its signature is. *)
Theorem verifyJWT_expired (token secret : JsString) (now_ms : Z)
  (payload : JWTPayload.t) :
  token_payload token = Some payload ->
  JWTPayload.exp payload < now_ms / 1000 ->
  verifyJWT token secret now_ms = None.
Proof.
  intros Hp Hexp.
  destruct (verifyJWT token secret now_ms) as [q|] eqn:E; [|reflexivity].
  apply verifyJWT_sound in E as [Hq Hle]. rewrite Hp in Hq.
  injection Hq as <-. lia.
Qed.

(** C2, as the code has it.  [verifyJWT] reads the first three segments:
    a token with fewer than three, or with an empty one among them, is
    rejected, and what follows the third segment is ignored, so that a
    token followed by a dot and anything else verifies like the token
    itself.  In particular a signed token with such a tail has at least
    four segments and is accepted. *)
Theorem verifyJWT_extra_segments (userId email secret extra token : JsString)
  (now_ms now_ms' : Z) :
  secret <> [] ->
  forallb Js.is_ascii7 userId = true ->
  forallb Js.is_ascii7 email = true ->
  now_ms' / 1000 <= now_ms / 1000 + 7 * 24 * 60 * 60 ->
  createJWT userId email secret now_ms = Some token ->
  (forall t s n, (length (Js.split "." t) < 3)%nat -> verifyJWT t s n = None)
  /\ (forall t s n h p sg rest,
        Js.split "." t = h :: p :: sg :: rest ->
        h = [] \/ p = [] \/ sg = [] -> verifyJWT t s n = None)
  /\ (forall t x s n,
        (3 <= length (Js.split "." t))%nat ->
        verifyJWT (t ++ "." ++ x) s n = verifyJWT t s n)
  /\ (4 <= length (Js.split "." (token ++ "." ++ extra)))%nat
  /\ verifyJWT (token ++ "." ++ extra) secret now_ms'
     = Some {| JWTPayload.userId := userId; JWTPayload.email := email;
               JWTPayload.iat := now_ms / 1000;
               JWTPayload.exp := now_ms / 1000 + 7 * 24 * 60 * 60 |}.
Proof.
  intros Hs Hu He Hnow Htoken.
  assert (H3 : length (Js.split "." token) = 3%nat).
  { rewrite createJWT_eq in Htoken by assumption.
    apply (inj Some) in Htoken. subst token. now rewrite split_token. }
  split; [|split; [|split; [|split]]].
  - intros t s n Hlt. unfold verifyJWT.
    destruct (Js.split "." t) as [|h [|p [|sg rest]]]; try reflexivity.
    cbn in Hlt. lia.
  - intros t s n h p sg rest Hsplit Hempty. unfold verifyJWT. rewrite Hsplit.
    destruct Hempty as [->|[->| ->]]; cbn [is_empty orb];
      now rewrite ?orb_true_r.
  - intros t x s n Hlen. now apply verify_extra_segments.
  - change ("." ++ extra) with ("."%char :: extra).
    rewrite split_app, length_app, H3.
    pose proof (split_nonempty "." extra).
    destruct (Js.split "." extra); [contradiction|cbn; lia].
  - rewrite verify_extra_segments by lia.
    now apply (verify_created userId email secret now_ms now_ms').
Qed.

End TokenClaims.

Lemma verifyJWT_expired_witness :
  @verifyJWT sample_crypto json_codec sample_token "secret" 2000
  = Some {| JWTPayload.userId := "u-1"; JWTPayload.email := "a@b.co";
            JWTPayload.iat := 1; JWTPayload.exp := 604801 |}
  /\ @verifyJWT sample_crypto json_codec sample_token "secret" 604802000 = None.
Proof.
  split; [vm_compute; reflexivity|].
  apply (@verifyJWT_expired sample_crypto json_codec sample_token "secret" 604802000
           {| JWTPayload.userId := "u-1"; JWTPayload.email := "a@b.co";
              JWTPayload.iat := 1; JWTPayload.exp := 604801 |}).
  - vm_compute. reflexivity.
  - vm_compute. reflexivity.
Defined.

Lemma verifyJWT_extra_segments_witness :
  (4 <= length (Js.split "." (sample_token ++ "." ++ "anything")))%nat
  /\ @verifyJWT sample_crypto json_codec (sample_token ++ "." ++ "anything") "secret" 2000
     = Some {| JWTPayload.userId := "u-1"; JWTPayload.email := "a@b.co";
               JWTPayload.iat := 1000 / 1000;
               JWTPayload.exp := 1000 / 1000 + 7 * 24 * 60 * 60 |}.
Proof.
  refine (proj2 (proj2 (proj2 (@verifyJWT_extra_segments sample_crypto json_codec
            "u-1" "a@b.co" "secret" "anything" sample_token 1000 2000 _ _ _ _ _)))).
  - discriminate.
  - reflexivity.
  - reflexivity.
  - vm_compute. discriminate.
  - vm_compute. reflexivity.
Defined.

(** The claim of C2 fails on this token: it has four segments and
    [verifyJWT] returns the payload of its first three. *)
Lemma verifyJWT_four_segments_accepted :
  length (Js.split "." (sample_token ++ ".anything")) = 4%nat
  /\ @verifyJWT sample_crypto json_codec (sample_token ++ ".anything") "secret" 2000
     = Some {| JWTPayload.userId := "u-1"; JWTPayload.email := "a@b.co";
               JWTPayload.iat := 1; JWTPayload.exp := 604801 |}.
Proof. split; vm_compute; reflexivity. Qed.

(** ** Payloads outside ASCII *)

Lemma encode_app a b : Js.encode (a ++ b) = Js.encode a ++ Js.encode b.
Proof. apply flat_map_app. Qed.

Lemma string_body_literal c X :
  (c =? Js.dquote)%char = false -> (c =? "\")%char = false ->
  (Js.code c <? 32) = false ->
  Json.string_body (c :: X) =
  match Json.string_body X with
  | Some (body, rest) => Some (c :: body, rest)
  | None => None
  end.
Proof.
  intros H1 H2 H3. cbn [Json.string_body]. rewrite H1, H2, H3.
  now destruct (Json.string_body X) as [[body rest]|].
Qed.

Ltac concrete_units c :=
  let q := eval vm_compute in (Js.encode (Json.quote_unit c)) in
  change (Js.encode (Json.quote_unit c)) with q;
  let u := eval vm_compute in (Js.utf8_unit c) in
  change (Js.utf8_unit c) with u.

Lemma string_body_encoded_unit c X :
  Json.string_body (Js.encode (Json.quote_unit c) ++ X) =
  match Json.string_body X with
  | Some (body, rest) => Some (Js.utf8_unit c ++ body, rest)
  | None => None
  end.
Proof.
  each_byte c;
    first [ reflexivity
          | match goal with
            | |- context [Json.quote_unit ?c] => concrete_units c
            end;
            cbn [app]; rewrite !string_body_literal by reflexivity;
            now destruct (Json.string_body X) as [[body rest]|] ].
Qed.

Lemma string_body_encoded s r :
  Json.string_body (Js.encode (flat_map Json.quote_unit s) ++ [Js.dquote] ++ r)
  = Some (Js.encode s, r).
Proof.
  induction s as [|c s IH]; [reflexivity|].
  cbn [flat_map]. rewrite encode_app, <- app_assoc, string_body_encoded_unit, IH.
  reflexivity.
Qed.

Lemma string_encoded_quote s r :
  Json.string (Js.encode (Json.quote s) ++ r) = Some (Js.encode s, r).
Proof.
  unfold Json.string, Json.quote. rewrite !encode_app, <- !app_assoc.
  change (Js.encode [Js.dquote]) with [Js.dquote].
  rewrite expect_app. apply string_body_encoded.
Qed.

Lemma encode_dec z : Js.encode (Number.dec z) = Number.dec z.
Proof.
  apply encode_ascii.
  exact (forallb_impl _ _ _ number_char_ascii (dec_number_chars z)).
Qed.

(** The text of a payload, once encoded to UTF-8 and read back one code
    unit per byte, parses to the payload with its two strings encoded. *)
Lemma json_parse_encoded p :
  Json.parse (Js.encode (Json.stringify p))
  = Some {| JWTPayload.userId := Js.encode (JWTPayload.userId p);
            JWTPayload.email := Js.encode (JWTPayload.email p);
            JWTPayload.iat := JWTPayload.iat p;
            JWTPayload.exp := JWTPayload.exp p |}.
Proof.
  destruct p as [uid em ex ia].
  unfold Json.parse, Json.stringify.
  cbn [JWTPayload.userId JWTPayload.email JWTPayload.exp JWTPayload.iat].
  rewrite !encode_app, !encode_dec.
  change (Js.encode "{") with ("{" : JsString).
  change (Js.encode ",") with ("," : JsString).
  change (Js.encode "}") with ("}" : JsString).
  change (Js.encode (Json.member ?n)) with (Json.member n).
  rewrite !(app_assoc "{"), !(app_assoc ","), expect_app. cbn [mbind option_bind].
  rewrite string_encoded_quote. cbn [mbind option_bind].
  rewrite expect_app. cbn [mbind option_bind].
  rewrite string_encoded_quote. cbn [mbind option_bind].
  rewrite expect_app. cbn [mbind option_bind].
  rewrite <- (app_assoc ","). change ("," : JsString) with [","%char].
  rewrite number_dec_sep by reflexivity. cbn [mbind option_bind].
  rewrite app_assoc, expect_app. cbn [mbind option_bind].
  change ("}" : JsString) with ["}"%char].
  rewrite number_dec by reflexivity. reflexivity.
Qed.

(** UTF-8 lengthens a string that is not ASCII. *)
Lemma encode_length s :
  forallb Js.is_ascii7 s = false -> (length s < length (Js.encode s))%nat.
Proof.
  assert (Hle : forall t, (length t <= length (Js.encode t))%nat).
  { induction t as [|c t IH]; [reflexivity|].
    change (Js.encode (c :: t)) with (Js.utf8_unit c ++ Js.encode t).
    rewrite length_app. unfold Js.utf8_unit.
    destruct (Js.code c <? 128); cbn [length]; lia. }
  induction s as [|c s IH]; [discriminate|].
  change (Js.encode (c :: s)) with (Js.utf8_unit c ++ Js.encode s).
  rewrite length_app. cbn [forallb length]. unfold Js.is_ascii7, Js.utf8_unit.
  destruct (Js.code c <? 128); cbn [andb length].
  - intros H. apply IH in H. lia.
  - intros _. specialize (Hle s). lia.
Qed.

Section EncodedPayloads.
Context {C : WebCrypto}.

(** With [JSON.stringify] and [JSON.parse] as above, a token verifies
    until it expires, and the payload returned has the UTF-8 bytes of the
    two strings that were signed. *)
Lemma verify_created_encoded userId email secret now_ms later token :
  secret <> [] ->
  later / 1000 <= now_ms / 1000 + 7 * 24 * 60 * 60 ->
  @createJWT C json_codec userId email secret now_ms = Some token ->
  @verifyJWT C json_codec token secret later
  = Some {| JWTPayload.userId := Js.encode userId;
            JWTPayload.email := Js.encode email;
            JWTPayload.iat := now_ms / 1000;
            JWTPayload.exp := now_ms / 1000 + 7 * 24 * 60 * 60 |}.
Proof.
  intros Hs Hlater E.
  rewrite (@verify_created_text C json_codec _ _ _ _ later _ Hs E).
  cbn [JSON_parse JSON_stringify json_codec].
  rewrite json_parse_encoded.
  cbn [JWTPayload.userId JWTPayload.email JWTPayload.exp JWTPayload.iat].
  destruct (Z.ltb_spec (now_ms / 1000 + 7 * 24 * 60 * 60) (later / 1000));
    [lia|reflexivity].
Qed.

End EncodedPayloads.

Section NonAsciiClaims.
Context {C : WebCrypto}.

(** C6, as the code has it, with [JSON.stringify] and [JSON.parse] as
    above.  Verifying a token right after signing it succeeds for every
    payload and every non-empty secret, and the expiry is the issue time
    plus 7 * 86400 seconds; the [userId] and the [email] returned are the
    code units of the UTF-8 bytes of what was signed.  For an ASCII
    [userId] this is the [userId] itself; a [userId] outside ASCII comes
    back longer than it was. *)
Theorem verifyJWT_returns_utf8_bytes (userId email secret : JsString)
  (now_ms : Z) :
  secret <> [] ->
  exists token,
    @createJWT C json_codec userId email secret now_ms = Some token
    /\ @verifyJWT C json_codec token secret now_ms
       = Some {| JWTPayload.userId := Js.encode userId;
                 JWTPayload.email := Js.encode email;
                 JWTPayload.iat := now_ms / 1000;
                 JWTPayload.exp := now_ms / 1000 + 7 * 86400 |}
    /\ (forallb Js.is_ascii7 userId = true -> Js.encode userId = userId)
    /\ (forallb Js.is_ascii7 userId = false ->
        (length userId < length (Js.encode userId))%nat).
Proof.
  intros Hs.
  destruct (@createJWT C json_codec userId email secret now_ms) as [token|] eqn:E.
  - exists token. split; [reflexivity|]. split; [|split].
    + rewrite (@verify_created_text C json_codec _ _ _ _ now_ms _ Hs E).
      change (Json.parse (Js.encode (Json.stringify
                {| JWTPayload.userId := userId; JWTPayload.email := email;
                   JWTPayload.iat := now_ms / 1000;
                   JWTPayload.exp := now_ms / 1000 + 7 * 24 * 60 * 60 |})))
        with (@JSON_parse json_codec (Js.encode (@JSON_stringify json_codec
                {| JWTPayload.userId := userId; JWTPayload.email := email;
                   JWTPayload.iat := now_ms / 1000;
                   JWTPayload.exp := now_ms / 1000 + 7 * 24 * 60 * 60 |}))).
      cbn [JSON_parse JSON_stringify json_codec].
      rewrite json_parse_encoded.
      cbn [JWTPayload.userId JWTPayload.email JWTPayload.exp JWTPayload.iat].
      destruct (Z.ltb_spec (now_ms / 1000 + 7 * 24 * 60 * 60) (now_ms / 1000));
        [lia|reflexivity].
    + apply encode_ascii.
    + apply encode_length.
  - rewrite createJWT_eq in E by assumption. discriminate.
Qed.

End NonAsciiClaims.

(** The [userId] signed is the one code unit 233 (e with an acute accent);
    the [userId] returned has the two code units 195 and 169. *)
Lemma verifyJWT_returns_utf8_bytes_witness :
  exists token,
    @createJWT sample_crypto json_codec ["233"%char] "a@b.co" "secret" 1000
    = Some token
    /\ @verifyJWT sample_crypto json_codec token "secret" 1000
       = Some {| JWTPayload.userId := ["195"%char; "169"%char];
                 JWTPayload.email := "a@b.co";
                 JWTPayload.iat := 1; JWTPayload.exp := 604801 |}.
Proof.
  destruct (@verifyJWT_returns_utf8_bytes sample_crypto ["233"%char] "a@b.co"
              "secret" 1000) as (token & H1 & H2 & _).
  - discriminate.
  - exists token. split; [exact H1 | exact H2].
Defined.

(** ** Claims on the whoami handler *)

Lemma find_none_iff {A} (f : A -> bool) l :
  find f l = None <-> forall x, In x l -> f x = false.
Proof.
  split; [apply find_none|].
  induction l as [|x l IH]; [reflexivity|]. intros H. cbn.
  rewrite (H x) by now left. apply IH. intros y Hy. apply H. now right.
Qed.

(** The lookup by id returns active records only. *)
Lemma getUserById_active db id user :
  getUserById db id = Some user ->
  User.id user = id /\ User.is_active user = true.
Proof.
  intros [_ [H1 H2]%andb_true_iff]%find_some.
  split; [|exact H2]. now apply bool_decide_eq_true in H1.
Qed.

Lemma getUserById_deactivated db id :
  (forall user, In user db -> User.id user = id -> User.is_active user = false) ->
  getUserById db id = None.
Proof.
  intros H. apply find_none_iff. intros user Hin.
  unfold Js.eqb. destruct (bool_decide_reflect (User.id user = id)) as [E|E].
  - now rewrite (H user Hin E).
  - reflexivity.
Qed.

Lemma deleteSession_lookup kv token now_ms :
  (getSessionUser (deleteSession kv token) token now_ms).2 = None.
Proof.
  unfold getSessionUser, deleteSession, KV.get, KV.delete.
  now rewrite lookup_delete_eq.
Qed.

(** Unfolding a handler down to the steps of the source. *)
Ltac run_handler :=
  cbv [me_try me_handler login_try login_handler checkRate as_string
       mbind mret handler_bind handler_ret
       Handler.bind Handler.ret Handler.throw Handler.get Handler.call
       Handler.truthy Handler.present Handler.throw_if].

Section WhoamiClaims.
Context {C : WebCrypto} {J : JsonCodec}.

(** The steps of the handler once the cookie carries a token that
    verifies. *)
Lemma me_try_verified env cookieHeader token payload now_ms :
  cookieHeader <> [] ->
  cookie_token cookieHeader = Some token ->
  token <> [] ->
  verifyJWT token (jwtSecret env) now_ms = Some payload ->
  (me_try env (Some cookieHeader) now_ms).2 =
  if session_mismatch (getSessionUser (kv env) token now_ms).2
       (JWTPayload.userId payload)
  then inl (SecurityError "SESSION_NOT_FOUND" 401 "Session has expired")
  else
    match getUserById (db env) (JWTPayload.userId payload) with
    | None => inl (SecurityError "USER_NOT_FOUND" 404 "User account not found")
    | Some user =>
        if negb (User.is_active user)
        then inl (SecurityError "USER_DEACTIVATED" 403
                    "User account has been deactivated")
        else inr {| status := 200;
                    body := UserBody (User.id user) (User.email user)
                              (User.display_name user) (User.created_at user)
                              (User.updated_at user);
                    setCookie := None |}
    end.
Proof.
  intros Hc Ht Hne Hv. run_handler.
  destruct cookieHeader as [|c0 cs]; [contradiction|].
  rewrite Ht. destruct token as [|t0 ts]; [contradiction|].
  rewrite Hv.
  destruct (getSessionUser (kv env) (t0 :: ts) now_ms) as [kv' session].
  cbn [snd].
  destruct (session_mismatch session (JWTPayload.userId payload)); [reflexivity|].
  destruct (getUserById (db env) (JWTPayload.userId payload)) as [user|];
    [|reflexivity].
  now destruct (negb (User.is_active user)).
Qed.

Lemma session_match session userId :
  session_mismatch session userId = false -> session = Some userId.
Proof.
  destruct session as [[|s0 ss]|]; try discriminate. cbn.
  intros H%negb_false_iff. apply bool_decide_eq_true in H. now rewrite H.
Qed.

(** A 200 from the handler means that the token verified and that the
    session store holds the [userId] of its payload under the token. *)
Lemma me_try_authenticated env cookie now_ms response :
  (me_try env cookie now_ms).2 = inr response ->
  exists cookieHeader token payload,
    cookie = Some cookieHeader
    /\ cookie_token cookieHeader = Some token
    /\ verifyJWT token (jwtSecret env) now_ms = Some payload
    /\ (getSessionUser (kv env) token now_ms).2 = Some (JWTPayload.userId payload)
    /\ status response = 200.
Proof.
  run_handler.
  destruct cookie as [[|c0 cs]|]; try discriminate.
  destruct (cookie_token (c0 :: cs)) as [[|t0 ts]|] eqn:Ht; try discriminate.
  destruct (verifyJWT (t0 :: ts) (jwtSecret env) now_ms) as [payload|] eqn:Hv;
    try discriminate.
  destruct (getSessionUser (kv env) (t0 :: ts) now_ms) as [kv' session] eqn:Hs.
  destruct (session_mismatch session (JWTPayload.userId payload)) eqn:Hm;
    try discriminate.
  destruct (getUserById (db env) (JWTPayload.userId payload)) as [user|];
    try discriminate.
  destruct (negb (User.is_active user)); try discriminate.
  cbn [snd]. intros [= <-].
  exists (c0 :: cs), (t0 :: ts), payload.
  split; [reflexivity|]. split; [exact Ht|]. split; [exact Hv|].
  split; [|reflexivity].
  rewrite Hs. cbn [snd]. now apply session_match.
Qed.

(** C4: when the token verifies but the session store does not hold the
    [userId] of its payload under this token (the entry is absent, has
    expired, was deleted, or holds another or an empty id), the handler
    throws SESSION_NOT_FOUND with status 401, not INVALID_TOKEN; and
    whenever it answers with a user, the token verified and the session
    holds the [userId] of the payload. *)
Theorem me_session_check (env : EnvironmentAdapter)
  (cookieHeader token : JsString) (payload : JWTPayload.t) (now_ms : Z) :
  cookieHeader <> [] ->
  cookie_token cookieHeader = Some token ->
  token <> [] ->
  verifyJWT token (jwtSecret env) now_ms = Some payload ->
  ((getSessionUser (kv env) token now_ms).2 <> Some (JWTPayload.userId payload)
   \/ JWTPayload.userId payload = [] ->
   (me_try env (Some cookieHeader) now_ms).2
   = inl (SecurityError "SESSION_NOT_FOUND" 401 "Session has expired")
   /\ status (me_GET env (Some cookieHeader) now_ms).2 = 401)
  /\ (me_try (with_kv (deleteSession (kv env) token) env)
        (Some cookieHeader) now_ms).2
     = inl (SecurityError "SESSION_NOT_FOUND" 401 "Session has expired")
  /\ (forall env' cookie' now_ms' response,
        (me_try env' cookie' now_ms').2 = inr response ->
        exists cookieHeader' token' payload',
          cookie' = Some cookieHeader'
          /\ cookie_token cookieHeader' = Some token'
          /\ verifyJWT token' (jwtSecret env') now_ms' = Some payload'
          /\ (getSessionUser (kv env') token' now_ms').2
             = Some (JWTPayload.userId payload')
          /\ status response = 200).
Proof.
  intros Hc Ht Hne Hv. split; [|split].
  - intros Hs.
    assert (E : (me_try env (Some cookieHeader) now_ms).2
                = inl (SecurityError "SESSION_NOT_FOUND" 401 "Session has expired")).
    { rewrite (me_try_verified _ _ _ _ _ Hc Ht Hne Hv).
      destruct (session_mismatch _ _) eqn:Hm; [reflexivity|].
      exfalso. pose proof (session_match _ _ Hm) as E.
      destruct Hs as [Hs|Hs]; [contradiction|].
      rewrite E, Hs in Hm. discriminate Hm. }
    split; [exact E|]. unfold me_GET.
    destruct (me_try env (Some cookieHeader) now_ms) as [kv' r].
    cbn [snd] in E. now subst r.
  - rewrite (me_try_verified _ _ token payload); try assumption.
    cbn [kv with_kv]. now rewrite deleteSession_lookup.
  - apply me_try_authenticated.
Qed.

(** C1, as the code has it: the lookup by id returns active records only,
    so the USER_DEACTIVATED branch of the handler is never taken; with a
    token that verifies and a live session for its [userId], a record that
    has been deactivated gives USER_NOT_FOUND and status 404. *)
Theorem me_deactivated_user (env : EnvironmentAdapter)
  (cookieHeader token : JsString) (payload : JWTPayload.t) (now_ms : Z) :
  cookieHeader <> [] ->
  cookie_token cookieHeader = Some token ->
  token <> [] ->
  verifyJWT token (jwtSecret env) now_ms = Some payload ->
  (getSessionUser (kv env) token now_ms).2 = Some (JWTPayload.userId payload) ->
  JWTPayload.userId payload <> [] ->
  (forall user, In user (db env) ->
     User.id user = JWTPayload.userId payload -> User.is_active user = false) ->
  (me_try env (Some cookieHeader) now_ms).2
  = inl (SecurityError "USER_NOT_FOUND" 404 "User account not found")
  /\ status (me_GET env (Some cookieHeader) now_ms).2 = 404
  /\ (forall env' cookie' now_ms',
        (me_try env' cookie' now_ms').2
        <> inl (SecurityError "USER_DEACTIVATED" 403
                  "User account has been deactivated")).
Proof.
  intros Hc Ht Hne Hv Hs Hu Hd.
  assert (E : (me_try env (Some cookieHeader) now_ms).2
              = inl (SecurityError "USER_NOT_FOUND" 404 "User account not found")).
  { rewrite (me_try_verified _ _ _ _ _ Hc Ht Hne Hv), Hs.
    destruct (JWTPayload.userId payload) as [|u0 us] eqn:Eu; [contradiction|].
    cbn [session_mismatch]. unfold Js.eqb.
    rewrite bool_decide_eq_true_2 by reflexivity. cbn [negb].
    now rewrite (getUserById_deactivated _ _ Hd). }
  split; [exact E|]. split.
  - unfold me_GET. destruct (me_try env (Some cookieHeader) now_ms) as [kv' r].
    cbn [snd] in E. now subst r.
  - intros env' cookie' now_ms'. run_handler.
    destruct cookie' as [[|c0 cs]|]; try discriminate.
    destruct (cookie_token (c0 :: cs)) as [[|t0 ts]|]; try discriminate.
    destruct (verifyJWT (t0 :: ts) (jwtSecret env') now_ms') as [pl|];
      try discriminate.
    destruct (getSessionUser (kv env') (t0 :: ts) now_ms') as [kv' session].
    destruct (session_mismatch session (JWTPayload.userId pl)); try discriminate.
    destruct (getUserById (db env') (JWTPayload.userId pl)) as [user|] eqn:Eg;
      try discriminate.
    apply getUserById_active in Eg as [_ ->]. discriminate.
Qed.

End WhoamiClaims.

(** A concrete request: the cookie carries [sample_token], the session
    store binds it to [u-1], and the record of [u-1] is the only row. *)
Definition sample_cookie : JsString := "theme=dark; auth-token=" ++ sample_token.

Definition sample_user (active : bool) : User.t :=
  {| User.id := "u-1"; User.email := "a@b.co";
     User.password_hash := []; User.display_name := "Alice";
     User.created_at := "2024-01-01 00:00:00";
     User.updated_at := "2024-01-01 00:00:00";
     User.is_active := active |}.

Definition sample_env (active : bool) (sessions : KV.store) : EnvironmentAdapter :=
  {| db := [sample_user active]; kv := sessions; jwtSecret := "secret";
     environment := "development" |}.

Definition sample_payload : JWTPayload.t :=
  {| JWTPayload.userId := "u-1"; JWTPayload.email := "a@b.co";
     JWTPayload.iat := 1; JWTPayload.exp := 604801 |}.

Definition sample_sessions : KV.store := createSession ∅ "u-1" sample_token 1000.

(** With the session in place and the record active the handler answers
    200; once the session is deleted it throws SESSION_NOT_FOUND. *)
Lemma me_session_check_witness :
  status (@me_GET sample_crypto json_codec (sample_env true sample_sessions)
            (Some sample_cookie) 2000).2 = 200
  /\ (@me_try sample_crypto json_codec
        (with_kv (deleteSession sample_sessions sample_token)
           (sample_env true sample_sessions))
        (Some sample_cookie) 2000).2
     = inl (SecurityError "SESSION_NOT_FOUND" 401 "Session has expired").
Proof.
  split; [vm_compute; reflexivity|].
  refine (proj1 (proj2 (@me_session_check sample_crypto json_codec
            (sample_env true sample_sessions) sample_cookie sample_token
            sample_payload 2000 _ _ _ _))).
  - discriminate.
  - vm_compute. reflexivity.
  - discriminate.
  - vm_compute. reflexivity.
Defined.

(** The record of [u-1] deactivated after the login: 404, USER_NOT_FOUND. *)
Lemma me_deactivated_user_witness :
  (@me_try sample_crypto json_codec (sample_env false sample_sessions)
     (Some sample_cookie) 2000).2
  = inl (SecurityError "USER_NOT_FOUND" 404 "User account not found")
  /\ status (@me_GET sample_crypto json_codec (sample_env false sample_sessions)
               (Some sample_cookie) 2000).2 = 404.
Proof.
  pose proof (@me_deactivated_user sample_crypto json_codec
    (sample_env false sample_sessions) sample_cookie sample_token
    sample_payload 2000) as H.
  destruct H as (H1 & H2 & _).
  - discriminate.
  - vm_compute. reflexivity.
  - discriminate.
  - vm_compute. reflexivity.
  - vm_compute. reflexivity.
  - discriminate.
  - intros user [<-|[]] _. reflexivity.
  - split; assumption.
Defined.

(** ** Claims on the login handler *)


Section LoginClaims.
Context {C : WebCrypto} {J : JsonCodec} {R : JsRuntime}.






End LoginClaims.






(** ** Claims on stored strings that are not well formed *)







Section StoredStringClaims.
Context {C : WebCrypto}.



End StoredStringClaims.


(** * Further properties

    Properties of the same code beyond the ones above: the encodings, the
    password and token functions, the stores, the validator, the rate
    limiter and the handlers, each read off the source. *)

(** ** Base64 with the URL alphabet *)

(** [A-Za-z0-9_-]. *)
Definition is_url_safe (c : ascii) : bool :=
  let n := Js.code c in
  ((65 <=? n) && (n <=? 90)) || ((97 <=? n) && (n <=? 122))
  || ((48 <=? n) && (n <=? 57)) || (n =? 45) || (n =? 95).

(** What [atob] can read once [-] and [_] are replaced: the two
    alphabets, [=] and ASCII white space. *)
Definition is_base64_input (c : ascii) : bool :=
  is_url_safe c || (c =? "+")%char || (c =? "/")%char || (c =? "=")%char
  || Base64.is_ascii_whitespace c.

Definition bytes_of (data : EncodeInput) : Uint8Array :=
  match data with OfString s => Js.encode s | OfBytes b => b end.

Lemma url_char_safe s : is_url_safe (url_char s) = true.
Proof. each_sextet s; reflexivity. Qed.

Lemma sextets_length b :
  length (Base64.sextets_of_bytes b) = ((4 * length b + 2) / 3)%nat.
Proof.
  induction b as [| | |a b c l IH] using list_ind3; try reflexivity.
  cbn [Base64.sextets_of_bytes length]. rewrite IH.
  replace (4 * S (S (S (length l))) + 2)%nat with (4 * length l + 2 + 4 * 3)%nat by lia.
  rewrite Nat.div_add by lia. lia.
Qed.

Lemma base64UrlEncode_of data :
  base64UrlEncode data = map url_char (Base64.sextets_of_bytes (bytes_of data)).
Proof. destruct data; apply (base64UrlEncode_bytes _). Qed.

(** X1: the text [base64UrlEncode] returns has the characters of the URL
    alphabet only (no [+], [/] or [=]), and ceil(4n/3) of them for n
    bytes. *)
Theorem base64UrlEncode_url_safe (data : EncodeInput) :
  forallb is_url_safe (base64UrlEncode data) = true
  /\ length (base64UrlEncode data) = ((4 * length (bytes_of data) + 2) / 3)%nat.
Proof.
  rewrite base64UrlEncode_of, length_map, sextets_length. split; [|reflexivity].
  apply forallb_forall. intros c [s [<- _]]%in_map_iff. apply url_char_safe.
Qed.

(** X2: decoding what was encoded gives the bytes back, in both modes of
    [base64UrlDecode]; for a string these are its UTF-8 bytes, which are
    the string itself exactly when it is ASCII. *)
Theorem base64UrlDecode_encode (data : EncodeInput) (asArrayBuffer : bool) :
  base64UrlDecode (base64UrlEncode data) asArrayBuffer = Some (bytes_of data)
  /\ (forall s, bytes_of (OfString s) = s <-> forallb Js.is_ascii7 s = true).
Proof.
  split.
  - destruct data as [s|b]; [|apply base64Url_roundtrip].
    apply (base64Url_roundtrip (Js.encode s)).
  - intros s. cbn [bytes_of]. split; [|apply encode_ascii].
    intros E. destruct (forallb Js.is_ascii7 s) eqn:Ha; [reflexivity|].
    apply encode_length in Ha. rewrite E in Ha. lia.
Qed.

Lemma value_not_input c :
  is_base64_input c = false -> Base64.value c = None.
Proof. each_byte c; first [discriminate | reflexivity]. Qed.

Lemma strip_padding_keeps c d :
  In c d -> (c =? "=")%char = false -> In c (Base64.strip_padding d).
Proof.
  intros Hin Hc. unfold Base64.strip_padding.
  destruct (length d mod 4 =? 0)%nat; [|assumption].
  destruct (rev d) as [|c1 [|c2 r]] eqn:Er; try assumption.
  destruct (Ascii.eqb_spec c1 "="); [|assumption].
  apply in_rev in Hin. rewrite Er in Hin.
  destruct Hin as [->|Hin]; [subst; discriminate|].
  destruct (Ascii.eqb_spec c2 "=").
  - destruct Hin as [->|Hin]; [subst; discriminate|]. rewrite <- in_rev. exact Hin.
  - rewrite <- in_rev. exact Hin.
Qed.

(** X3: [base64UrlDecode] throws ([atob] raises InvalidCharacterError) as
    soon as the text has one character that is neither of the Base64
    alphabets, nor [=], nor ASCII white space. *)
Theorem base64UrlDecode_invalid_character (str : JsString) (asArrayBuffer : bool) :
  forallb is_base64_input str = false ->
  base64UrlDecode str asArrayBuffer = None.
Proof.
  intros H.
  assert (Hex : exists c, In c str /\ is_base64_input c = false).
  { induction str as [|c s IH]; [discriminate|]. cbn [forallb] in H.
    destruct (is_base64_input c) eqn:Ec.
    - destruct (IH H) as (x & Hx & Ex). exists x. split; [now right|exact Ex].
    - exists c. split; [now left|exact Ec]. }
  destruct Hex as (c & Hin & Hc).
  assert (Hplain : (c =? "=")%char = false /\ Base64.is_ascii_whitespace c = false
                   /\ (c =? "-")%char = false /\ (c =? "_")%char = false).
  { revert Hc. clear. each_byte c; first [discriminate | now repeat split]. }
  destruct Hplain as (Heq & Hws & Hm & Hu).
  unfold base64UrlDecode, Base64.atob.
  set (d := Base64.strip_padding _).
  assert (Hd : In c d).
  { apply strip_padding_keeps; [|exact Heq].
    apply filter_In. split; [|now rewrite Hws].
    apply in_or_app. left. unfold Js.replaceAll.
    apply in_map_iff. exists c. split.
    - now rewrite Hu.
    - apply in_map_iff. exists c. split; [now rewrite Hm|exact Hin]. }
  destruct (length d mod 4 =? 1)%nat; [reflexivity|].
  rewrite (mapM_None_2 Base64.value d); [reflexivity|].
  apply Exists_exists. exists c. split; [now apply list_elem_of_In|now apply value_not_input].
Qed.

Lemma base64UrlDecode_invalid_character_witness :
  base64UrlDecode "QUJD!" false = None.
Proof. apply base64UrlDecode_invalid_character. reflexivity. Defined.

(** ** Stored password hashes *)

(** [0-9a-f]. *)
Definition is_lower_hex (c : ascii) : bool :=
  let n := Js.code c in
  ((48 <=? n) && (n <=? 57)) || ((97 <=? n) && (n <=? 102)).

Lemma hex_pair b :
  length (Hex.padStart2 (Hex.toString16 b)) = 2%nat
  /\ forallb is_lower_hex (Hex.padStart2 (Hex.toString16 b)) = true.
Proof. each_byte b; split; reflexivity. Qed.

Lemma hex_encode_length bytes :
  length (Hex.encode bytes) = (2 * length bytes)%nat.
Proof.
  induction bytes as [|b l IH]; [reflexivity|].
  change (Hex.encode (b :: l))
    with (Hex.padStart2 (Hex.toString16 b) ++ Hex.encode l).
  rewrite length_app, IH, (proj1 (hex_pair b)). cbn [length]. lia.
Qed.

Lemma hex_encode_lower bytes : forallb is_lower_hex (Hex.encode bytes) = true.
Proof.
  induction bytes as [|b l IH]; [reflexivity|].
  change (Hex.encode (b :: l))
    with (Hex.padStart2 (Hex.toString16 b) ++ Hex.encode l).
  now rewrite forallb_app, IH, (proj2 (hex_pair b)).
Qed.

Lemma hex_encode_inj a b : Hex.encode a = Hex.encode b -> a = b.
Proof.
  intros E. rewrite <- (decoded_encode a), <- (decoded_encode b). now rewrite E.
Qed.

Section StoredHashes.
Context {C : WebCrypto}.

Lemma decoded_hashPassword password salt :
  length salt = 16%nat ->
  firstn 16 (decoded (hashPassword password salt)) = salt
  /\ skipn 16 (decoded (hashPassword password salt))
     = pbkdf2_sha256 (Utf16.encode password) salt 100000 256.
Proof.
  intros Hs. unfold hashPassword. rewrite decoded_encode. split.
  - rewrite firstn_app, <- Hs, firstn_all, Nat.sub_diag. cbn [firstn].
    apply app_nil_r.
  - rewrite skipn_app, <- Hs, skipn_all, Nat.sub_diag. reflexivity.
Qed.

(** X4: with a 16-byte salt, [hashPassword] returns 96 lower-case
    hexadecimal digits, the first 32 of which are the salt; two stored
    strings are equal only when the salts and the derived keys are. *)
Theorem hashPassword_format (password : Utf16.t) (salt : Uint8Array) :
  length salt = 16%nat ->
  length (hashPassword password salt) = 96%nat
  /\ forallb is_lower_hex (hashPassword password salt) = true
  /\ firstn 32 (hashPassword password salt) = Hex.encode salt
  /\ (forall password' salt',
        length salt' = 16%nat ->
        hashPassword password' salt' = hashPassword password salt ->
        salt' = salt
        /\ pbkdf2_sha256 (Utf16.encode password') salt 100000 256
           = pbkdf2_sha256 (Utf16.encode password) salt 100000 256).
Proof.
  intros Hs. split; [|split; [|split]].
  - unfold hashPassword.
    rewrite hex_encode_length, length_app, Hs, derived_length. reflexivity.
  - apply hex_encode_lower.
  - unfold hashPassword, Hex.encode. rewrite flat_map_app.
    fold (Hex.encode salt).
    replace 32%nat with (length (Hex.encode salt) + 0)%nat
      by (rewrite hex_encode_length, Hs; reflexivity).
    rewrite firstn_app_2. cbn [firstn]. apply app_nil_r.
  - intros password' salt' Hs' E. apply hex_encode_inj in E.
    assert (E1 : salt' = salt).
    { apply (f_equal (firstn 16)) in E.
      rewrite !firstn_app, <- Hs' in E at 1.
      rewrite firstn_all, Hs', <- Hs in E.
      rewrite firstn_all, Hs, !Nat.sub_diag in E. cbn [firstn] in E.
      now rewrite !app_nil_r in E. }
    split; [exact E1|]. subst salt'. now apply app_inv_head in E.
Qed.

(** X5: against a stored hash, another password is accepted exactly when
    PBKDF2 derives the same key from it with the stored salt. *)
Theorem verifyPassword_other_password (password guess : Utf16.t)
  (salt : Uint8Array) :
  length salt = 16%nat ->
  verifyPassword guess (hashPassword password salt)
  = bool_decide (pbkdf2_sha256 (Utf16.encode guess) salt 100000 256
                 = pbkdf2_sha256 (Utf16.encode password) salt 100000 256).
Proof.
  intros Hs.
  destruct (decoded_hashPassword password salt Hs) as [Hf Hk].
  destruct (bool_decide_reflect
              (pbkdf2_sha256 (Utf16.encode guess) salt 100000 256
               = pbkdf2_sha256 (Utf16.encode password) salt 100000 256)) as [E|E].
  - apply verifyPassword_decoded. rewrite Hf, Hk. split; [|now rewrite E].
    unfold hashPassword. rewrite decoded_encode, length_app, Hs, derived_length.
    reflexivity.
  - destruct (verifyPassword guess (hashPassword password salt)) eqn:Ev;
      [|reflexivity].
    apply verifyPassword_decoded in Ev as [_ Ev]. rewrite Hf, Hk in Ev.
    now symmetry in Ev.
Qed.

End StoredHashes.

Lemma hashPassword_format_witness :
  length (@hashPassword sample_crypto (Utf16.of_latin1 "pw") "0123456789abcdef") = 96%nat
  /\ firstn 32 (@hashPassword sample_crypto (Utf16.of_latin1 "pw") "0123456789abcdef")
     = "30313233343536373839616263646566".
Proof.
  destruct (@hashPassword_format sample_crypto (Utf16.of_latin1 "pw") "0123456789abcdef" eq_refl)
    as (H1 & _ & H3 & _).
  split; [exact H1|]. rewrite H3. reflexivity.
Defined.

Lemma verifyPassword_other_password_witness :
  @verifyPassword sample_crypto (Utf16.of_latin1 "guess")
    (@hashPassword sample_crypto (Utf16.of_latin1 "pw") "0123456789abcdef") = false.
Proof.
  rewrite (@verifyPassword_other_password sample_crypto (Utf16.of_latin1 "pw")
             (Utf16.of_latin1 "guess") "0123456789abcdef" eq_refl).
  vm_compute. reflexivity.
Defined.

Lemma mod3_step n : (S (S (S n)) mod 3 = n mod 3)%nat.
Proof.
  replace (S (S (S n))) with (n + 1 * 3)%nat by lia. apply Nat.Div0.mod_add.
Qed.

Lemma btoa_padding b :
  Base64.padding (length b)
  = ((4 - length (Base64.sextets_of_bytes b) mod 4) mod 4)%nat.
Proof.
  unfold Base64.padding.
  induction b as [| | |a b c l IH] using list_ind3; try reflexivity.
  cbn [length Base64.sextets_of_bytes]. now rewrite mod3_step, mod4_step.
Qed.

(** X6: [base64UrlDecode] reads standard Base64 as well: what [btoa]
    produces, with [+], [/] and its [=] padding, decodes to the bytes. *)
Theorem base64UrlDecode_btoa (b : Uint8Array) (asArrayBuffer : bool) :
  base64UrlDecode (Base64.btoa b) asArrayBuffer = Some b.
Proof.
  unfold base64UrlDecode, Base64.btoa.
  set (sx := Base64.sextets_of_bytes b).
  assert (Hplain : Js.replaceAll "_" "/"
            (Js.replaceAll "-" "+"
               (map Base64.char sx ++ repeat "="%char (Base64.padding (length b))))
          = map Base64.char sx ++ repeat "="%char (Base64.padding (length b))).
  { unfold Js.replaceAll. rewrite map_map. rewrite <- (map_id (_ ++ _)) at 2.
    apply map_ext_in. intros c [[s [<- _]]%in_map_iff | ->%repeat_spec]%in_app_or;
      [|reflexivity].
    destruct (b64_char_plain s) as (_ & _ & -> & ->). reflexivity. }
  rewrite Hplain, btoa_padding. fold sx.
  pose proof (sextets_length_mod4 b) as Hne. fold sx in Hne.
  replace ((4 - length (map Base64.char sx ++ repeat "="%char
                          ((4 - length sx mod 4) mod 4)) mod 4) mod 4)%nat
    with 0%nat.
  - cbn [repeat]. rewrite app_nil_r, atob_padded by exact Hne.
    unfold sx. now rewrite bytes_of_sextets_of_bytes.
  - rewrite length_app, length_map, repeat_length.
    pose proof (Nat.mod_upper_bound (length sx) 4 ltac:(lia)) as Hub.
    pose proof (Nat.div_mod_eq (length sx) 4) as Hdm.
    destruct (length sx mod 4)%nat as [|[|[|[|k]]]] eqn:E; try lia.
    + change ((4 - 0) mod 4)%nat with 0%nat. rewrite Nat.add_0_r, E. reflexivity.
    + change ((4 - 2) mod 4)%nat with 2%nat.
      replace (length sx + 2)%nat with (0 + (S (length sx / 4)) * 4)%nat by lia.
      now rewrite Nat.Div0.mod_add.
    + change ((4 - 3) mod 4)%nat with 1%nat.
      replace (length sx + 1)%nat with (0 + (S (length sx / 4)) * 4)%nat by lia.
      now rewrite Nat.Div0.mod_add.
Qed.

(** ** Tokens *)

Definition no_dot (s : JsString) : bool :=
  forallb (fun c => negb (c =? ".")%char) s.

Lemma split_three h p sg :
  no_dot h = true -> no_dot p = true -> no_dot sg = true ->
  Js.split "." (h ++ "." ++ p ++ "." ++ sg) = [h; p; sg].
Proof.
  intros Hh Hp Hsg.
  change ("." ++ p ++ "." ++ sg) with ("."%char :: p ++ "."%char :: sg).
  rewrite split_app, split_app, !split_none by assumption. reflexivity.
Qed.

Section TokenProperties.
Context {C : WebCrypto} {J : JsonCodec}.

(** The payload [createJWT] signs. *)
Definition issued (userId email : JsString) (now_ms : Z) : JWTPayload.t :=
  {| JWTPayload.userId := userId; JWTPayload.email := email;
     JWTPayload.iat := now_ms / 1000;
     JWTPayload.exp := now_ms / 1000 + 7 * 24 * 60 * 60 |}.

(** X7: a token verifies under the secret it was signed with from the
    moment it was issued until its expiry, 604800 seconds later, and at
    no later time; the payload returned is the one signed. *)
Theorem verifyJWT_lifetime (userId email secret token : JsString)
  (now_ms now_ms' : Z) :
  secret <> [] ->
  forallb Js.is_ascii7 userId = true ->
  forallb Js.is_ascii7 email = true ->
  createJWT userId email secret now_ms = Some token ->
  verifyJWT token secret now_ms'
  = if now_ms' / 1000 <=? now_ms / 1000 + 604800
    then Some (issued userId email now_ms) else None.
Proof.
  intros Hs Hu He Htoken.
  rewrite (verify_created_text _ _ _ _ now_ms' _ Hs Htoken).
  rewrite encode_ascii by now apply JSON_stringify_ascii.
  rewrite JSON_parse_stringify. cbn [JWTPayload.exp].
  change (7 * 24 * 60 * 60) with 604800.
  destruct (Z.ltb_spec (now_ms / 1000 + 604800) (now_ms' / 1000)),
    (Z.leb_spec (now_ms' / 1000) (now_ms / 1000 + 604800)); try lia; reflexivity.
Qed.

(** X8: [createJWT] fails only when [importKey] refuses the secret.  The
    token it returns has three segments: the constant header, the payload
    and a signature of 43 characters, all in the URL alphabet. *)
Theorem createJWT_shape (userId email secret : JsString) (now_ms : Z) :
  (createJWT userId email secret now_ms = None
   <-> hmac_key_ok (Js.encode secret) = false)
  /\ (forall token,
        createJWT userId email secret now_ms = Some token ->
        exists signature,
          Js.split "." token
          = [ ("eyJhbGciOiJIUzI1NiIsInR5cCI6IkpXVCJ9" : JsString);
              base64UrlEncode
                (OfString (JSON_stringify (issued userId email now_ms)));
              signature ]
          /\ length signature = 43%nat
          /\ forallb is_url_safe signature = true).
Proof.
  unfold createJWT, signMessage. cbv zeta. fold (issued userId email now_ms).
  destruct (hmac_key_ok (Js.encode secret)); cbn [mbind option_bind].
  2: { split; [split; reflexivity|discriminate]. }
  split; [split; discriminate|].
  intros token Ht. apply (inj Some) in Ht. subst token.
  eexists. split; [|split].
  - rewrite split_token.
    change (base64UrlEncode (OfString header_json))
      with ("eyJhbGciOiJIUzI1NiIsInR5cCI6IkpXVCJ9" : JsString).
    reflexivity.
  - rewrite base64UrlEncode_of, length_map, sextets_length.
    cbn [bytes_of]. rewrite hmac_sha256_length. reflexivity.
  - rewrite base64UrlEncode_of. apply forallb_forall.
    intros c [s [<- _]]%in_map_iff. apply url_char_safe.
Qed.

(** X9: a signature made for another message or under another secret is
    rejected: [verifyJWT] returns [null] unless HMAC gives the same tag
    for the two. *)
Theorem verifyJWT_foreign_signature (h p message secret secret' signature : JsString)
  (now_ms : Z) :
  no_dot h = true -> no_dot p = true ->
  signMessage message secret = Some signature ->
  hmac_sha256 (Js.encode secret') (Js.encode (h ++ "." ++ p))
  <> hmac_sha256 (Js.encode secret) (Js.encode message) ->
  verifyJWT (h ++ "." ++ p ++ "." ++ signature) secret' now_ms = None.
Proof.
  intros Hh Hp Hsig Hne. unfold signMessage in Hsig.
  destruct (hmac_key_ok (Js.encode secret)); [|discriminate].
  apply (inj Some) in Hsig. subst signature.
  unfold verifyJWT. rewrite split_three; try assumption; [|apply segment_no_dot].
  destruct (is_empty h || is_empty p || is_empty _); [reflexivity|].
  unfold verifySignature. rewrite base64Url_roundtrip. cbn [mbind option_bind].
  destruct (hmac_key_ok (Js.encode secret')); [|reflexivity].
  now rewrite bool_decide_eq_false_2.
Qed.

(** X10: [verifyJWT] never decodes the header: whatever the first segment
    is, a token whose signature covers it verifies, and the payload of
    the second segment is returned while it has not expired. *)
Theorem verifyJWT_any_header (h secret signature : JsString)
  (payload : JWTPayload.t) (now_ms : Z) :
  h <> [] -> no_dot h = true ->
  forallb Js.is_ascii7 (JWTPayload.userId payload) = true ->
  forallb Js.is_ascii7 (JWTPayload.email payload) = true ->
  signMessage
    (h ++ "." ++ base64UrlEncode (OfString (JSON_stringify payload))) secret
  = Some signature ->
  verifyJWT
    (h ++ "." ++ base64UrlEncode (OfString (JSON_stringify payload))
       ++ "." ++ signature) secret now_ms
  = if JWTPayload.exp payload <? now_ms / 1000 then None else Some payload.
Proof.
  intros Hne Hh Hu He Hsig. unfold signMessage in Hsig.
  destruct (hmac_key_ok (Js.encode secret)) eqn:Hk; [|discriminate].
  apply (inj Some) in Hsig. subst signature.
  unfold verifyJWT.
  rewrite split_three; try assumption; try apply segment_no_dot.
  destruct h as [|h0 hs]; [contradiction|]. cbn [is_empty orb].
  change (is_empty (base64UrlEncode (OfString (JSON_stringify payload))))
    with (is_empty (base64UrlEncode (OfBytes (Js.encode (JSON_stringify payload))))).
  rewrite !segment_empty, hmac_nonempty.
  rewrite (encode_ascii (JSON_stringify payload))
    by now apply JSON_stringify_ascii.
  assert (Hj : is_empty (JSON_stringify payload) = false).
  { pose proof (JSON_stringify_nonempty payload).
    now destruct (JSON_stringify payload). }
  rewrite Hj. cbn [orb].
  unfold verifySignature. rewrite base64Url_roundtrip. cbn [mbind option_bind].
  rewrite Hk, bool_decide_eq_true_2 by reflexivity.
  change (base64UrlDecode (base64UrlEncode (OfString (JSON_stringify payload))) false)
    with (base64UrlDecode
            (base64UrlEncode (OfBytes (Js.encode (JSON_stringify payload)))) false).
  rewrite base64Url_roundtrip.
  rewrite encode_ascii by now apply JSON_stringify_ascii.
  now rewrite JSON_parse_stringify.
Qed.

End TokenProperties.

Lemma verifyJWT_lifetime_witness :
  @verifyJWT sample_crypto json_codec sample_token "secret" 604801999
  = Some {| JWTPayload.userId := "u-1"; JWTPayload.email := "a@b.co";
            JWTPayload.iat := 1; JWTPayload.exp := 604801 |}
  /\ @verifyJWT sample_crypto json_codec sample_token "secret" 604802000 = None.
Proof.
  split.
  - rewrite (@verifyJWT_lifetime sample_crypto json_codec "u-1" "a@b.co" "secret"
               sample_token 1000 604801999); try reflexivity. discriminate.
  - rewrite (@verifyJWT_lifetime sample_crypto json_codec "u-1" "a@b.co" "secret"
               sample_token 1000 604802000); try reflexivity. discriminate.
Defined.

(** The segments of [sample_token]. *)
Definition sample_segments : list JsString :=
  Eval vm_compute in Js.split "." sample_token.

Lemma verifyJWT_foreign_signature_witness :
  @verifyJWT sample_crypto json_codec sample_token "other" 2000 = None.
Proof.
  refine (@verifyJWT_foreign_signature sample_crypto json_codec
            (nth 0 sample_segments []) (nth 1 sample_segments [])
            (nth 0 sample_segments [] ++ "." ++ nth 1 sample_segments [])
            "secret" "other" (nth 2 sample_segments []) 2000 _ _ _ _).
  - reflexivity.
  - reflexivity.
  - vm_compute. reflexivity.
  - vm_compute. discriminate.
Defined.

Lemma verifyJWT_any_header_witness :
  exists signature,
    @signMessage sample_crypto
      ("anything" ++ "."
         ++ base64UrlEncode (OfString (@JSON_stringify json_codec sample_payload)))
      "secret" = Some signature
    /\ @verifyJWT sample_crypto json_codec
         ("anything" ++ "."
            ++ base64UrlEncode (OfString (@JSON_stringify json_codec sample_payload))
            ++ "." ++ signature) "secret" 2000
       = Some sample_payload.
Proof.
  eexists. split; [vm_compute; reflexivity|].
  rewrite (@verifyJWT_any_header sample_crypto json_codec "anything" "secret" _
             sample_payload 2000);
    try reflexivity; discriminate.
Defined.

(** ** Sessions *)

Lemma session_key_inj token token' :
  session_key token = session_key token' -> token = token'.
Proof. unfold session_key. apply app_inv_head. Qed.

(** X11: a session is read back under its token for 604800000 ms after
    [createSession]; the first read after that returns [null] and removes
    the entry, so every later read returns [null] as well.  Creating a
    session again for the same token replaces the user and restarts the
    period. *)
Theorem session_round_trip (kv : KV.store) (userId token : JsString)
  (now_ms now_ms' : Z) :
  0 <= now_ms ->
  getSessionUser (createSession kv userId token now_ms) token now_ms'
  = (if now_ms' <=? now_ms + 604800000
     then (createSession kv userId token now_ms, Some userId)
     else (deleteSession kv token, None))
  /\ (now_ms + 604800000 < now_ms' ->
      forall later,
        (getSessionUser
           (getSessionUser (createSession kv userId token now_ms) token now_ms').1
           token later).2 = None)
  /\ (forall userId',
        createSession (createSession kv userId token now_ms) userId' token now_ms'
        = createSession kv userId' token now_ms').
Proof.
  intros Hnow.
  assert (E : getSessionUser (createSession kv userId token now_ms) token now_ms'
              = if now_ms' <=? now_ms + 604800000
                then (createSession kv userId token now_ms, Some userId)
                else (deleteSession kv token, None)).
  { unfold getSessionUser, createSession, deleteSession, KV.get, KV.put, KV.delete.
    change (7 * 24 * 60 * 60 =? 0) with false. cbv iota.
    rewrite lookup_insert_eq. cbn [KV.expires KV.value].
    change (7 * 24 * 60 * 60 * 1000) with 604800000.
    destruct (Z.eqb_spec (now_ms + 604800000) 0); [lia|]. cbn [negb andb].
    destruct (Z.gtb_spec now_ms' (now_ms + 604800000)),
      (Z.leb_spec now_ms' (now_ms + 604800000)); try lia; [|reflexivity].
    now rewrite delete_insert_eq. }
  split; [exact E|]. split.
  - intros Hlate later. rewrite E.
    destruct (Z.leb_spec now_ms' (now_ms + 604800000)); [lia|].
    cbn [fst]. apply deleteSession_lookup.
  - intros userId'. unfold createSession, KV.put.
    change (7 * 24 * 60 * 60 =? 0) with false. cbv iota.
    apply insert_insert_eq.
Qed.

Lemma session_round_trip_witness :
  getSessionUser (createSession ∅ "u-1" "t" 1000) "t" 604801000
  = (createSession ∅ "u-1" "t" 1000, Some ("u-1" : JsString))
  /\ (getSessionUser (createSession ∅ "u-1" "t" 1000) "t" 604801001).2 = None.
Proof.
  destruct (session_round_trip ∅ "u-1" "t" 1000 604801000) as (H1 & _); [lia|].
  destruct (session_round_trip ∅ "u-1" "t" 1000 604801001) as (H2 & _); [lia|].
  split; [exact H1|]. rewrite H2. reflexivity.
Defined.

(** What a read leaves in the store under another key. *)
Lemma KV_get_other (key key' : JsString) (now_ms : Z) (s : KV.store) :
  key <> key' -> (KV.get key now_ms s).1 !! key' = s !! key'.
Proof.
  intros Hne. unfold KV.get.
  destruct (s !! key) as [it|]; [|reflexivity].
  destruct (KV.expires it) as [e|]; [|reflexivity].
  destruct (negb (e =? 0) && (now_ms >? e)); [|reflexivity].
  cbn [fst]. now apply lookup_delete_ne.
Qed.

Lemma KV_get_lookup (key : JsString) (now_ms : Z) (s s' : KV.store) :
  s' !! key = s !! key -> (KV.get key now_ms s').2 = (KV.get key now_ms s).2.
Proof.
  intros E. unfold KV.get. rewrite E.
  destruct (s !! key) as [it|]; [|reflexivity].
  destruct (KV.expires it) as [e|]; [|reflexivity].
  now destruct (negb (e =? 0) && (now_ms >? e)).
Qed.

(** X12: the sessions of two different tokens do not interfere: creating,
    deleting or reading (and so possibly expiring) the session of one
    token leaves what is read under the other unchanged. *)
Theorem session_isolation (kv : KV.store) (userId token token' : JsString)
  (now_ms now_ms' : Z) :
  token <> token' ->
  (getSessionUser (createSession kv userId token now_ms) token' now_ms').2
  = (getSessionUser kv token' now_ms').2
  /\ (getSessionUser (deleteSession kv token) token' now_ms').2
     = (getSessionUser kv token' now_ms').2
  /\ (getSessionUser (getSessionUser kv token now_ms).1 token' now_ms').2
     = (getSessionUser kv token' now_ms').2.
Proof.
  intros Hne.
  assert (Hk : session_key token <> session_key token')
    by (intros E; now apply session_key_inj in E).
  unfold getSessionUser. split; [|split]; apply KV_get_lookup.
  - unfold createSession, KV.put. now apply lookup_insert_ne.
  - unfold deleteSession, KV.delete. now apply lookup_delete_ne.
  - now apply KV_get_other.
Qed.

Lemma session_isolation_witness :
  (getSessionUser (deleteSession (createSession ∅ "u-1" "t1" 0) "t2") "t1" 5).2
  = Some ("u-1" : JsString).
Proof.
  destruct (session_isolation (createSession ∅ "u-1" "t1" 0) "u-2" "t2" "t1" 0 5)
    as (_ & H & _); [discriminate|].
  rewrite H. reflexivity.
Defined.

(** ** The rate limiter, further *)

(** X13: the counters of two different keys do not interfere: a call for
    one key changes neither the record, nor the remaining time, nor the
    next answer for another key. *)
Theorem checkRate_independent_keys (key key' : JsString)
  (maxAttempts windowMs now maxAttempts' windowMs' now' : Z)
  (a : RateLimiter.attempts) :
  key <> key' ->
  (RateLimiter.checkRate key maxAttempts windowMs now a).2 !! key' = a !! key'
  /\ RateLimiter.getRemainingTime key' now'
       (RateLimiter.checkRate key maxAttempts windowMs now a).2
     = RateLimiter.getRemainingTime key' now' a
  /\ (RateLimiter.checkRate key' maxAttempts' windowMs' now'
        (RateLimiter.checkRate key maxAttempts windowMs now a).2).1
     = (RateLimiter.checkRate key' maxAttempts' windowMs' now' a).1.
Proof.
  intros Hne.
  assert (E : (RateLimiter.checkRate key maxAttempts windowMs now a).2 !! key'
              = a !! key').
  { unfold RateLimiter.checkRate.
    destruct (a !! key) as [r|]; [|now apply lookup_insert_ne].
    destruct (now >? RateLimiter.resetTime r); [now apply lookup_insert_ne|].
    destruct (RateLimiter.count r >=? maxAttempts); [reflexivity|].
    now apply lookup_insert_ne. }
  split; [exact E|]. split.
  - unfold RateLimiter.getRemainingTime. now rewrite E.
  - unfold RateLimiter.checkRate at 1 3. rewrite E.
    destruct (a !! key') as [r|]; [|reflexivity].
    destruct (now' >? RateLimiter.resetTime r); [reflexivity|].
    now destruct (RateLimiter.count r >=? maxAttempts').
Qed.

Lemma checkRate_independent_keys_witness :
  (RateLimiter.checkRate "login:email:a@b.co" 5 900000 10
     (RateLimiter.checkRate "login:203.0.113.7" 10 900000 0 ∅).2).1 = true.
Proof.
  destruct (checkRate_independent_keys "login:203.0.113.7" "login:email:a@b.co"
              10 900000 0 5 900000 10 ∅) as (_ & _ & H); [discriminate|].
  rewrite H. reflexivity.
Defined.

(** X14: a refused call changes nothing, and [getRemainingTime] then tells
    when the key is free again: a later call is allowed exactly when it
    comes after the current time plus the remaining time. *)
Theorem checkRate_refused (key : JsString) (maxAttempts windowMs now : Z)
  (a a' : RateLimiter.attempts) :
  RateLimiter.checkRate key maxAttempts windowMs now a = (false, a') ->
  a' = a
  /\ 0 <= RateLimiter.getRemainingTime key now a
  /\ forall t,
       (RateLimiter.checkRate key maxAttempts windowMs t a).1
       = (now + RateLimiter.getRemainingTime key now a <? t).
Proof.
  unfold RateLimiter.checkRate, RateLimiter.getRemainingTime.
  destruct (a !! key) as [r|]; [|discriminate].
  destruct (Z.gtb_spec now (RateLimiter.resetTime r)); [discriminate|].
  destruct (RateLimiter.count r >=? maxAttempts) eqn:Ec; [|discriminate].
  intros [= <-]. split; [reflexivity|]. split; [lia|].
  intros t. rewrite Z.max_r by lia.
  replace (now + (RateLimiter.resetTime r - now)) with (RateLimiter.resetTime r)
    by lia.
  destruct (Z.gtb_spec t (RateLimiter.resetTime r)),
    (Z.ltb_spec (RateLimiter.resetTime r) t); try lia; reflexivity.
Qed.

Lemma checkRate_refused_witness :
  RateLimiter.checkRate "k" 1 900000 10
    (RateLimiter.checkRate "k" 1 900000 0 ∅).2
  = (false, (RateLimiter.checkRate "k" 1 900000 0 ∅).2)
  /\ (RateLimiter.checkRate "k" 1 900000 900010
        (RateLimiter.checkRate "k" 1 900000 0 ∅).2).1 = true.
Proof.
  assert (E : RateLimiter.checkRate "k" 1 900000 10
                (RateLimiter.checkRate "k" 1 900000 0 ∅).2
              = (false, (RateLimiter.checkRate "k" 1 900000 0 ∅).2))
    by (vm_compute; reflexivity).
  split; [exact E|].
  destruct (checkRate_refused _ _ _ _ _ _ E) as (_ & _ & H).
  rewrite H. reflexivity.
Defined.

(** ** Regular expressions and the email pattern *)

(** The strings a regular expression matches. *)
Inductive matches : Regex.t -> JsString -> Prop :=
| matches_eps : matches Regex.Eps []
| matches_class p c : p c = true -> matches (Regex.Class p) [c]
| matches_seq r1 r2 s1 s2 :
    matches r1 s1 -> matches r2 s2 -> matches (Regex.Seq r1 r2) (s1 ++ s2)
| matches_alt_l r1 r2 s : matches r1 s -> matches (Regex.Alt r1 r2) s
| matches_alt_r r1 r2 s : matches r2 s -> matches (Regex.Alt r1 r2) s
| matches_star_nil r : matches (Regex.Star r) []
| matches_star_app r s1 s2 :
    matches r s1 -> matches (Regex.Star r) s2 -> matches (Regex.Star r) (s1 ++ s2).

Lemma nullable_matches r : Regex.nullable r = true <-> matches r [].
Proof.
  split.
  - induction r as [| |p|r1 IH1 r2 IH2|r1 IH1 r2 IH2|r IH]; cbn [Regex.nullable];
      try discriminate.
    + intros _. constructor.
    + intros [H1 H2]%andb_true_iff.
      apply (matches_seq r1 r2 [] []); auto.
    + intros [H|H]%orb_true_iff; [apply matches_alt_l|apply matches_alt_r]; auto.
    + intros _. constructor.
  - intros H. remember [] as s eqn:Es.
    induction H as [|p c Hp|r1 r2 s1 s2 H1 IH1 H2 IH2|r1 r2 s H IH|r1 r2 s H IH
                   |r|r s1 s2 H1 IH1 H2 IH2]; cbn [Regex.nullable];
      try reflexivity; try discriminate.
    + apply app_eq_nil in Es as [-> ->]. now rewrite IH1, IH2.
    + now rewrite IH.
    + rewrite IH by assumption. apply orb_true_r.
Qed.

Lemma deriv_sound c r : forall s, matches (Regex.deriv c r) s -> matches r (c :: s).
Proof.
  induction r as [| |p|r1 IH1 r2 IH2|r1 IH1 r2 IH2|r IH]; intros s;
    cbn [Regex.deriv].
  - inversion 1.
  - inversion 1.
  - destruct (p c) eqn:Hp; inversion 1; subst. now constructor.
  - destruct (Regex.nullable r1) eqn:Hn.
    + inversion 1 as [| | |? ? ? Hl|? ? ? Hr| |]; subst.
      * inversion Hl as [| |? ? s1 s2 Ha Hb| | | |]; subst.
        apply (matches_seq r1 r2 (c :: s1) s2); auto.
      * apply (matches_seq r1 r2 [] (c :: s)); [now apply nullable_matches|auto].
    + inversion 1 as [| |? ? s1 s2 Ha Hb| | | |]; subst.
      apply (matches_seq r1 r2 (c :: s1) s2); auto.
  - inversion 1; subst; [apply matches_alt_l|apply matches_alt_r]; auto.
  - inversion 1 as [| |? ? s1 s2 Ha Hb| | | |]; subst.
    apply (matches_star_app r (c :: s1) s2); auto.
Qed.

Lemma deriv_complete r cs :
  matches r cs -> forall c s, cs = c :: s -> matches (Regex.deriv c r) s.
Proof.
  induction 1 as [|p c0 Hp|r1 r2 s1 s2 H1 IH1 H2 IH2|r1 r2 s0 H IH|r1 r2 s0 H IH
                 |r|r s1 s2 H1 IH1 H2 IH2]; intros c s E; cbn [Regex.deriv].
  - discriminate.
  - injection E as -> <-. rewrite Hp. constructor.
  - destruct s1 as [|c1 s1'].
    + cbn [app] in E. apply nullable_matches in H1. rewrite H1.
      apply matches_alt_r. now apply IH2.
    + cbn [app] in E. injection E as -> <-.
      assert (Hd : matches (Regex.Seq (Regex.deriv c r1) r2) (s1' ++ s2))
        by (constructor; auto).
      destruct (Regex.nullable r1); [now apply matches_alt_l|exact Hd].
  - apply matches_alt_l. auto.
  - apply matches_alt_r. auto.
  - discriminate.
  - destruct s1 as [|c1 s1'].
    + cbn [app] in E. now apply IH2.
    + cbn [app] in E. injection E as -> <-. constructor; auto.
Qed.

(** [test] accepts the strings the expression matches. *)
Lemma test_matches r s : Regex.test r s = true <-> matches r s.
Proof.
  unfold Regex.test. revert r.
  induction s as [|c s IH]; intros r; cbn [fold_left].
  - apply nullable_matches.
  - rewrite IH. split; [apply deriv_sound|].
    intros H. now apply (deriv_complete r (c :: s)).
Qed.

Lemma matches_star_class p s :
  matches (Regex.Star (Regex.Class p)) s <-> forallb p s = true.
Proof.
  split.
  - intros H. remember (Regex.Star (Regex.Class p)) as r eqn:Er.
    induction H as [| | | | | |r0 s1 s2 H1 _ H2 IH2]; try discriminate;
      [reflexivity|].
    injection Er as ->. inversion H1; subst. cbn [app forallb].
    rewrite IH2 by reflexivity. now rewrite andb_true_r.
  - induction s as [|c s IH]; [constructor|].
    cbn [forallb]. intros [Hc Hs]%andb_true_iff.
    apply (matches_star_app _ [c] s); [now constructor|auto].
Qed.

Lemma matches_plus_class p s :
  matches (Regex.Plus (Regex.Class p)) s <-> s <> [] /\ forallb p s = true.
Proof.
  unfold Regex.Plus. split.
  - inversion 1 as [| |? ? s1 s2 Ha Hb| | | |]; subst. inversion Ha; subst.
    apply matches_star_class in Hb. cbn [app forallb].
    split; [discriminate|]. now rewrite Hb, andb_true_r.
  - intros [Hne Hs]. destruct s as [|c s]; [contradiction|].
    cbn [forallb] in Hs. apply andb_true_iff in Hs as [Hc Hs].
    apply (matches_seq _ _ [c] s); [now constructor|].
    now apply matches_star_class.
Qed.

Lemma matches_char (q : ascii -> bool) s :
  matches (Regex.Class q) s <-> exists c, s = [c] /\ q c = true.
Proof.
  split.
  - inversion 1; subst. eauto.
  - intros (c & -> & Hc). now constructor.
Qed.

(** The parts of a string the email pattern matches. *)
Lemma email_regex_parts (s : JsString) :
  Regex.test email_regex s = true ->
  exists local domain tld,
    s = local ++ "@" ++ domain ++ "." ++ tld
    /\ local <> [] /\ domain <> [] /\ tld <> []
    /\ forallb not_space_at (local ++ domain ++ tld) = true.
Proof.
  rewrite test_matches. unfold email_regex.
  inversion 1 as [| |? ? a s1 Ha H1| | | |]; subst.
  inversion H1 as [| |? ? at1 s2 Hat H2| | | |]; subst.
  inversion H2 as [| |? ? b s3 Hb H3| | | |]; subst.
  inversion H3 as [| |? ? dot c Hdot Hc| | | |]; subst.
  apply matches_plus_class in Ha as [Ha1 Ha2].
  apply matches_plus_class in Hb as [Hb1 Hb2].
  apply matches_plus_class in Hc as [Hc1 Hc2].
  apply matches_char in Hat as (x & -> & Hx%Ascii.eqb_eq).
  apply matches_char in Hdot as (y & -> & Hy%Ascii.eqb_eq). subst x y.
  exists a, b, c. repeat split; try assumption.
  now rewrite !forallb_app, Ha2, Hb2, Hc2.
Qed.

(** X15: the email pattern of [validateInput] accepts exactly the strings
    of the form local@domain.tld in which the three parts are not empty
    and have neither white space nor [@]. *)
Theorem email_regex_spec (s : JsString) :
  Regex.test email_regex s = true <->
  exists local domain tld,
    s = local ++ "@" ++ domain ++ "." ++ tld
    /\ local <> [] /\ domain <> [] /\ tld <> []
    /\ forallb not_space_at (local ++ domain ++ tld) = true.
Proof.
  split; [apply email_regex_parts|].
  intros (a & b & c & -> & Ha & Hb & Hc & Hall).
  apply test_matches. unfold email_regex.
  rewrite !forallb_app in Hall.
  apply andb_true_iff in Hall as [Ha2 [Hb2 Hc2]%andb_true_iff].
  apply matches_seq; [now apply matches_plus_class|].
  apply (matches_seq _ _ ["@"%char]); [now constructor|].
  apply matches_seq; [now apply matches_plus_class|].
  apply (matches_seq _ _ ["."%char]); [now constructor|].
  now apply matches_plus_class.
Qed.

(** ** The text of a number *)

(** The characters of the text of a number: digits, the sign, the
    point, those of the exponent and the letters of [Infinity]. *)
Definition is_number_text_char (c : ascii) : bool :=
  is_digit c || existsb (fun x => (c =? x)%char) ("-.e+Infity" : JsString).

Lemma forallb_firstn {A} (f : A -> bool) n l :
  forallb f l = true -> forallb f (firstn n l) = true.
Proof.
  revert n. induction l as [|x l IH]; intros [|n]; cbn; try reflexivity.
  intros [-> H]%andb_true_iff. now apply IH.
Qed.

Lemma forallb_skipn {A} (f : A -> bool) n l :
  forallb f l = true -> forallb f (skipn n l) = true.
Proof.
  revert n. induction l as [|x l IH]; intros [|n]; cbn; try reflexivity.
  - easy.
  - intros [_ H]%andb_true_iff. now apply IH.
Qed.

Lemma forallb_repeat {A} (f : A -> bool) x n :
  f x = true -> forallb f (repeat x n) = true.
Proof. intros H. induction n; cbn; [reflexivity|]. now rewrite H. Qed.

Lemma dec_text_chars z : forallb is_number_text_char (Number.dec z) = true.
Proof.
  apply (forallb_impl Json.is_number_char); [|apply dec_number_chars].
  intros c. each_byte c; intros H; try reflexivity; discriminate H.
Qed.

Lemma dec_pos_digits p : forallb is_digit (Number.dec (Zpos p)) = true.
Proof.
  unfold Number.dec. cbn [Z.to_int].
  assert (H : forall u, forallb is_digit (NilEmpty.string_of_uint u) = true)
    by (induction u; cbn; auto).
  cbn [NilZero.string_of_int]. unfold NilZero.string_of_uint.
  destruct (Pos.to_uint p); first [apply H | reflexivity].
Qed.

Lemma dec_pos_nonempty p : Number.dec (Zpos p) <> [].
Proof.
  unfold Number.dec. cbn [Z.to_int NilZero.string_of_int].
  unfold NilZero.string_of_uint.
  destruct (Pos.to_uint p); discriminate.
Qed.

Lemma number_text_chars x :
  forallb is_number_text_char (Number.toString x) = true.
Proof.
  destruct x as [|[]|negative s n]; try reflexivity.
  unfold Number.toString.
  set (digits := Number.dec (Zpos s)).
  assert (Hd : forallb is_number_text_char digits = true) by apply dec_text_chars.
  rewrite forallb_app. apply andb_true_iff. split; [now destruct negative|].
  destruct ((Z.of_nat (length digits) <=? n) && (n <=? 21)).
  { rewrite forallb_app, Hd. now apply forallb_repeat. }
  destruct ((0 <? n) && (n <=? 21)).
  { now rewrite !forallb_app, forallb_firstn, forallb_skipn. }
  destruct ((-6 <? n) && (n <=? 0)).
  { rewrite !forallb_app, Hd, andb_true_r. cbn [forallb app].
    now apply forallb_repeat. }
  assert (He : forallb is_number_text_char
                 ("e" ++ (if n - 1 <? 0 then "-" : JsString else "+")
                    ++ Number.dec (Z.abs (n - 1))) = true).
  { rewrite !forallb_app, dec_text_chars. now destruct (n - 1 <? 0). }
  destruct digits as [|d [|d' more]]; [reflexivity| |].
  - cbn [forallb] in Hd |- *. apply andb_true_iff in Hd as [-> _]. exact He.
  - cbn [forallb] in Hd. apply andb_true_iff in Hd as [Hd1 Hd2].
    cbn [forallb app]. rewrite Hd1. cbn [andb].
    apply andb_true_iff in Hd2 as [Hd2 Hd3].
    rewrite forallb_app. cbn [forallb]. rewrite Hd2, forallb_app, Hd3.
    cbn [andb]. exact He.
Qed.

(** ** What the login handler accepts as a body *)

Lemma email_not_empty e : Regex.test email_regex e = true -> e <> [].
Proof.
  intros (a & b & c & -> & Ha & _)%email_regex_parts. now destruct a.
Qed.

Lemma email_has_at e :
  Regex.test email_regex e = true -> In "@"%char e.
Proof.
  intros (a & b & c & -> & _)%email_regex_parts.
  apply in_or_app. right. now left.
Qed.

Lemma number_not_email x : Regex.test email_regex (Number.toString x) = false.
Proof.
  destruct (Regex.test email_regex (Number.toString x)) eqn:E; [|reflexivity].
  apply email_has_at in E.
  pose proof (number_text_chars x) as H.
  rewrite forallb_forall in H. now apply H in E.
Qed.

Lemma number_text_nonempty x : Number.toString x <> [].
Proof.
  destruct x as [|[]|negative s n]; try discriminate.
  unfold Number.toString. destruct negative; [discriminate|]. cbn [Number.sign app].
  pose proof (dec_pos_nonempty s) as Hd.
  destruct (Number.dec (Zpos s)) as [|d more]; [now destruct Hd|].
  repeat match goal with
         | |- context [if ?b then _ else _] => destruct b
         end; try discriminate.
  all: first [destruct (firstn _ _); discriminate | destruct more; discriminate].
Qed.

Lemma number_text_not_blank x : is_empty (Js.trim (Number.toString x)) = false.
Proof.
  rewrite trim_id.
  - pose proof (number_text_nonempty x). now destruct (Number.toString x).
  - apply (forallb_impl is_number_text_char); [|apply number_text_chars].
    intros c. each_byte c; intros H; try reflexivity; discriminate H.
Qed.

Section LoginBodies.
Context {R : JsRuntime}.

(** A value that is true and whose text cannot be had makes a required
    rule throw. *)
Lemma rule_errors_throw data rule :
  required rule = true ->
  Value.truthy (Value.field_of data (field rule)) = true ->
  Value.toString (Value.field_of data (field rule)) = None ->
  rule_errors data rule = None.
Proof.
  intros Hr Ht Hs. unfold rule_errors. now rewrite Ht, Hr, Hs.
Qed.

(** An email rule with a text that is no address does not come out
    empty. *)
Lemma rule_errors_not_email data rule text :
  type rule = Some TEmail ->
  Value.truthy (Value.field_of data (field rule)) = true ->
  Value.toString (Value.field_of data (field rule)) = Some text ->
  Regex.test email_regex text = false ->
  rule_errors data rule <> Some [].
Proof.
  intros Hty Ht Hs He. rewrite (rule_errors_text data rule text Ht Hs).
  destruct (required rule && is_empty (Js.trim text)); [discriminate|].
  destruct (length_below _ _) as [tooShort|]; [|discriminate].
  destruct (length_above _ _) as [tooLong|]; [|discriminate].
  cbn [mbind option_bind]. rewrite Hty, He. discriminate.
Qed.

Definition login_rule_email : ValidationRule :=
  {| field := "email"; required := true; type := Some TEmail;
     minLength := None; maxLength := Some 255; pattern := None |}.

Definition login_rule_password : ValidationRule :=
  {| field := "password"; required := true; type := None;
     minLength := Some 1; maxLength := Some 128; pattern := None |}.

(** The email rule of the login handler. *)
Lemma login_email_rule (data : gmap JsString JsValue) :
  rule_errors data login_rule_email = Some []
  <-> exists e,
        Regex.test email_regex e = true
        /\ ((Value.field_of data "email" = JStr e /\ Z.of_nat (length e) <= 255)
            \/ exists items,
                 Value.field_of data "email" = JArr items
                 /\ Value.toString (JArr items) = Some e
                 /\ Z.of_nat (length items) <= 255).
Proof.
  destruct (Value.field_of data "email") as [| |b|x|e|items|members] eqn:Ev.
  1-4, 7: split;
    [|intros (e & _ & [[He _]|(items & He & _)]); discriminate He].
  - rewrite rule_errors_falsy by (cbn [field login_rule_email]; now rewrite Ev).
    discriminate.
  - rewrite rule_errors_falsy by (cbn [field login_rule_email]; now rewrite Ev).
    discriminate.
  - destruct b.
    + intros H. exfalso. revert H.
      apply (rule_errors_not_email data _ "true"); try reflexivity;
        cbn [field login_rule_email]; now rewrite Ev.
    + rewrite rule_errors_falsy by (cbn [field login_rule_email]; now rewrite Ev).
      discriminate.
  - destruct (decide (x = Number.Zero)) as [->|Hx].
    + rewrite rule_errors_falsy by (cbn [field login_rule_email]; now rewrite Ev).
      discriminate.
    + intros H. exfalso. revert H.
      apply (rule_errors_not_email data _ (Number.toString x)); try reflexivity;
        cbn [field login_rule_email]; rewrite ?Ev; try reflexivity.
      * cbn. now rewrite bool_decide_eq_false_2.
      * apply number_not_email.
  - destruct (Value.toString (JObj members)) as [text|] eqn:Es.
    + intros H. exfalso. revert H.
      apply (rule_errors_not_email data _ text); try reflexivity;
        cbn [field login_rule_email]; rewrite ?Ev; try reflexivity; try exact Es.
      cbn [Value.toString] in Es.
      destruct (Value.own members "toString"); [discriminate|].
      apply (inj Some) in Es. now subst text.
    + rewrite rule_errors_throw; try reflexivity; try discriminate;
        cbn [field login_rule_email]; now rewrite Ev.
  - rewrite (rule_errors_string data _ e) by exact Ev.
    destruct e as [|c e'] eqn:Ee.
    { split; [discriminate|].
      intros (e0 & Ht & [[[= <-] _]|(items & He & _)]); discriminate. }
    rewrite <- Ee in *. assert (Hne : is_empty e = false) by now subst e.
    rewrite Hne. unfold string_errors.
    cbn [field required type minLength maxLength pattern login_rule_email andb app].
    destruct (Regex.test email_regex e) eqn:Et.
    + rewrite trim_id by now apply email_no_space.
      rewrite Hne. cbn [negb app]. change (255 =? 0) with false. cbn [negb andb].
      destruct (Z.gtb_spec (Z.of_nat (length e)) 255) as [Hl|Hl].
      * split; [discriminate|].
        intros (e0 & _ & [[[= <-] Hle]|(items & He & _)]); [lia|discriminate].
      * rewrite app_nil_r. split; [|reflexivity]. intros _. exists e. split; [exact Et|].
        left. split; [reflexivity|lia].
    + split.
      * destruct (is_empty (Js.trim e)); discriminate.
      * intros (e0 & Ht & [[[= <-] _]|(items & He & _)]); [congruence|discriminate].
  - destruct (Value.toString (JArr items)) as [text|] eqn:Es.
    2: { rewrite rule_errors_throw; try reflexivity;
           cbn [field login_rule_email]; rewrite ?Ev; try reflexivity; try exact Es.
         split; [discriminate|].
         intros (e0 & _ & [[He _]|(items' & [= <-] & He & _)]);
           [discriminate|congruence]. }
    destruct (Regex.test email_regex text) eqn:Et.
    2: { split.
         - intros H. exfalso. revert H.
           apply (rule_errors_not_email data _ text); try reflexivity;
             cbn [field login_rule_email]; rewrite ?Ev; try reflexivity; assumption.
         - intros (e0 & Ht & [[He _]|(items' & [= <-] & He & _)]);
             [discriminate|congruence]. }
    rewrite (rule_errors_text data _ text)
      by (cbn [field login_rule_email]; rewrite ?Ev; try reflexivity; exact Es).
    cbn [field required type minLength maxLength pattern login_rule_email andb].
    rewrite Ev, Et, trim_id by now apply email_no_space.
    assert (Hne : is_empty text = false)
      by (apply email_not_empty in Et; now destruct text).
    rewrite Hne. unfold length_below, length_above, Value.length_gt.
    cbn [Value.length_of mbind option_bind negb app].
    change (255 =? 0) with false. cbn [mbind option_bind].
    destruct (Z.gtb_spec (Z.of_nat (length items)) 255) as [Hl|Hl].
    + split; [discriminate|].
      intros (e0 & _ & [[He _]|(items' & [= <-] & _ & Hle)]); [discriminate|lia].
    + split; [|reflexivity]. intros _. exists text. split; [exact Et|].
      right. exists items. repeat split; [exact Es|lia].
Qed.

(** The values the password rule of the login handler lets through: a
    string or an array of 1 to 128 characters or elements whose text is
    not blank, [true], a number other than 0, and an object without a
    member [toString] whose member [length], read as a number, is
    neither below 1 nor above 128. *)
Definition login_password_accepted (v : JsValue) : Prop :=
  match v with
  | JUndefined | JNull => False
  | JBool b => b = true
  | JNum x => x <> Number.Zero
  | JStr p => Js.trim p <> [] /\ Z.of_nat (length p) <= 128
  | JArr items =>
      (exists text, Value.toString v = Some text /\ Js.trim text <> [])
      /\ 1 <= Z.of_nat (length items) <= 128
  | JObj members =>
      Value.own members "toString" = None
      /\ Value.length_lt v 1 = Some false
      /\ Value.length_gt v 128 = Some false
  end.

(** The two comparisons of a rule on a value that has no [length]. *)
Lemma length_undefined v bound :
  Value.length_of v = Value.Member JUndefined ->
  length_below v bound = Some false /\ length_above v bound = Some false.
Proof.
  intros H. unfold length_below, length_above, Value.length_lt, Value.length_gt.
  rewrite H. cbn. destruct bound as [n|]; [|easy]. now destruct (n =? 0).
Qed.

(** The password rule of the login handler. *)
Lemma login_password_rule (data : gmap JsString JsValue) :
  rule_errors data login_rule_password = Some []
  <-> login_password_accepted (Value.field_of data "password").
Proof.
  destruct (Value.field_of data "password") as [| |b|x|p|items|members] eqn:Ev;
    cbn [login_password_accepted].
  - rewrite rule_errors_falsy by (cbn [field login_rule_password]; now rewrite Ev).
    easy.
  - rewrite rule_errors_falsy by (cbn [field login_rule_password]; now rewrite Ev).
    easy.
  - destruct b.
    + rewrite (rule_errors_text data _ "true")
        by (cbn [field login_rule_password]; now rewrite Ev).
      cbn [field required type minLength maxLength pattern login_rule_password].
      rewrite Ev.
      destruct (length_undefined (JBool true) (Some 1) eq_refl) as [-> _].
      destruct (length_undefined (JBool true) (Some 128) eq_refl) as [_ ->].
      easy.
    + rewrite rule_errors_falsy
        by (cbn [field login_rule_password]; now rewrite Ev).
      easy.
  - destruct (decide (x = Number.Zero)) as [->|Hx].
    + rewrite rule_errors_falsy
        by (cbn [field login_rule_password]; now rewrite Ev).
      easy.
    + rewrite (rule_errors_text data _ (Number.toString x)).
      2, 3: cbn [field login_rule_password]; rewrite Ev; cbn;
        rewrite ?bool_decide_eq_false_2 by assumption; reflexivity.
      cbn [field required type minLength maxLength pattern login_rule_password].
      rewrite Ev, number_text_not_blank.
      destruct (length_undefined (JNum x) (Some 1) eq_refl) as [-> _].
      destruct (length_undefined (JNum x) (Some 128) eq_refl) as [_ ->].
      easy.
  - rewrite (rule_errors_string data _ p) by exact Ev.
    destruct p as [|c p'] eqn:Ep.
    { split; [discriminate|]. intros [H _]. now destruct H. }
    rewrite <- Ep in *. assert (Hne : is_empty p = false) by now subst p.
    rewrite Hne. unfold string_errors.
    cbn [field required type minLength maxLength pattern login_rule_password
         andb app].
    destruct (Js.trim p) as [|t0 ts] eqn:Et; cbn [is_empty].
    { split; [discriminate|]. intros [H _]. now destruct H. }
    change (1 =? 0) with false. change (128 =? 0) with false. cbn [negb andb].
    assert (Hlow : (Z.of_nat (length p) <? 1) = false)
      by (apply Z.ltb_ge; subst p; cbn [length]; lia).
    rewrite Hlow. cbn [app].
    destruct (Z.gtb_spec (Z.of_nat (length p)) 128) as [Hl|Hl].
    + split; [discriminate|]. intros [_ H]. lia.
    + split; [|reflexivity]. intros _. split; [discriminate|lia].
  - destruct (Value.toString (JArr items)) as [text|] eqn:Es.
    2: { rewrite rule_errors_throw; try reflexivity;
           cbn [field login_rule_password]; rewrite ?Ev; try reflexivity;
           try exact Es.
         split; [discriminate|]. intros [(text & [=] & _) _]. }
    rewrite (rule_errors_text data _ text)
      by (cbn [field login_rule_password]; rewrite ?Ev; try reflexivity; exact Es).
    cbn [field required type minLength maxLength pattern login_rule_password
         andb].
    rewrite Ev.
    destruct (Js.trim text) as [|t0 ts] eqn:Et; cbn [is_empty].
    { split; [discriminate|]. intros [(text' & [= <-] & H) _]. now destruct H. }
    unfold length_below, length_above, Value.length_lt, Value.length_gt.
    cbn [Value.length_of mbind option_bind].
    change (1 =? 0) with false. change (128 =? 0) with false.
    cbn [mbind option_bind].
    destruct (Z.ltb_spec (Z.of_nat (length items)) 1) as [Hl|Hl].
    { split; [discriminate|]. intros [_ H]. lia. }
    destruct (Z.gtb_spec (Z.of_nat (length items)) 128) as [Hg|Hg].
    { split; [discriminate|]. intros [_ H]. lia. }
    split; [|reflexivity]. intros _. split; [|lia].
    exists text. split; [reflexivity|]. rewrite Et. discriminate.
  - destruct (Value.own members "toString") as [w|] eqn:Eo.
    { rewrite rule_errors_throw; try reflexivity;
        cbn [field login_rule_password]; rewrite ?Ev; try reflexivity.
      - split; [discriminate|]. now intros [H _].
      - cbn [Value.toString]. now rewrite Eo. }
    rewrite (rule_errors_text data _ "[object Object]").
    2, 3: cbn [field login_rule_password]; rewrite Ev; cbn [Value.toString];
      rewrite ?Eo; reflexivity.
    cbn [field required type minLength maxLength pattern login_rule_password].
    rewrite Ev. change (true && is_empty (Js.trim "[object Object]")) with false.
    cbv iota. unfold length_below, length_above.
    change (1 =? 0) with false. change (128 =? 0) with false. cbv iota.
    destruct (Value.length_lt (JObj members) 1) as [[]|];
      destruct (Value.length_gt (JObj members) 128) as [[]|];
      cbn [mbind option_bind app];
      (split; [try discriminate | try reflexivity]);
      try (intros (_ & H1 & H2); discriminate).
    intros _. auto.
Qed.

(** X16: the body of a login request is accepted by the validation
    exactly when its [email] is a string that matches the email pattern
    and has at most 255 characters, or an array of at most 255 elements
    whose text (the elements joined by commas) matches the pattern, and
    its [password] is one of: a string of at most 128 characters that is
    not blank, an array of 1 to 128 elements whose text is not blank,
    [true], a number other than 0, an object without a member [toString]
    whose member [length], read as a number, is neither below 1 nor
    above 128. *)
Theorem login_validation (data : gmap JsString JsValue) :
  validateInput data login_rules = Some accepted
  <-> (exists e,
         Regex.test email_regex e = true
         /\ ((Value.field_of data "email" = JStr e /\ Z.of_nat (length e) <= 255)
             \/ exists items,
                  Value.field_of data "email" = JArr items
                  /\ Value.toString (JArr items) = Some e
                  /\ Z.of_nat (length items) <= 255))
      /\ login_password_accepted (Value.field_of data "password").
Proof.
  rewrite validateInput_valid, <- login_email_rule, <- login_password_rule.
  unfold login_rules. split.
  - intros H. split; apply H; [now left|now right; left].
  - intros [H1 H2] rule [<-|[<-|[]]]; assumption.
Qed.

End LoginBodies.

(** ** Cookies, logout and the task requests *)

(** The characters of a token: the URL alphabet and the dot. *)
Definition is_token_char (c : ascii) : bool := is_url_safe c || (c =? ".")%char.

Lemma token_char_plain c :
  is_token_char c = true ->
  not_space c = true /\ (c =? ";")%char = false /\ (c =? "=")%char = false.
Proof. each_byte c; first [discriminate | now repeat split]. Qed.

Lemma trimEnd_id s : forallb not_space s = true -> Js.trimEnd s = s.
Proof.
  intros H. unfold Js.trimEnd.
  rewrite trimStart_id by now rewrite forallb_rev.
  apply rev_involutive.
Qed.

Lemma parseCookies_app h part :
  forallb (fun c => negb (c =? ";")%char) part = true ->
  parseCookies (h ++ ";" ++ part)
  = match Js.split "=" (Js.trim part) with
    | key :: rest => <[key := head rest]> (parseCookies h)
    | [] => parseCookies h
    end.
Proof.
  intros Hp. unfold parseCookies.
  change (";" ++ part) with (";"%char :: part).
  rewrite split_app, fold_left_app, (split_none ";" part) by exact Hp.
  reflexivity.
Qed.

Lemma auth_cookie_parts token :
  forallb is_token_char token = true ->
  Js.split "=" ("auth-token=" ++ token) = [("auth-token" : JsString); token]
  /\ forallb not_space ("auth-token=" ++ token) = true
  /\ forallb (fun c => negb (c =? ";")%char) ("auth-token=" ++ token) = true.
Proof.
  intros Ht.
  assert (H : forall c, In c token ->
            not_space c = true /\ (c =? ";")%char = false /\ (c =? "=")%char = false).
  { intros c Hc. apply token_char_plain. rewrite forallb_forall in Ht. auto. }
  split; [|split].
  - change ("auth-token=" ++ token) with ("auth-token" ++ "="%char :: token).
    rewrite split_app, (split_none "=" token); [reflexivity|].
    apply forallb_forall. intros c Hc. now destruct (H c Hc) as (_ & _ & ->).
  - rewrite forallb_app. apply andb_true_iff. split; [reflexivity|].
    apply forallb_forall. intros c Hc. now destruct (H c Hc) as (-> & _).
  - rewrite forallb_app. apply andb_true_iff. split; [reflexivity|].
    apply forallb_forall. intros c Hc. now destruct (H c Hc) as (_ & -> & _).
Qed.

(** X17: the token is read from the cookie named [auth-token]: from a
    header that holds this cookie alone, and from one where it comes
    last, whatever precedes it (an earlier [auth-token] included). *)
Theorem cookie_token_last (header token : JsString) :
  forallb is_token_char token = true ->
  cookie_token ("auth-token=" ++ token) = Some token
  /\ cookie_token (header ++ "; auth-token=" ++ token) = Some token.
Proof.
  intros Ht. destruct (auth_cookie_parts token Ht) as (Hsplit & Hns & Hsc).
  unfold cookie_token. split.
  - unfold parseCookies. rewrite split_none by exact Hsc.
    cbn [fold_left]. rewrite trim_id by exact Hns. rewrite Hsplit.
    now rewrite lookup_insert_eq.
  - change (header ++ "; auth-token=" ++ token)
      with (header ++ ";" ++ (" " ++ "auth-token=" ++ token)).
    rewrite parseCookies_app.
    + assert (Etrim : Js.trim (" " ++ "auth-token=" ++ token)
                      = "auth-token=" ++ token).
      { unfold Js.trim. change (Js.trimStart (" " ++ "auth-token=" ++ token))
          with ("auth-token=" ++ token). now apply trimEnd_id. }
      rewrite Etrim, Hsplit. now rewrite lookup_insert_eq.
    + exact Hsc.
Qed.

Lemma cookie_token_last_witness :
  cookie_token ("auth-token=old; theme=dark" ++ "; auth-token=" ++ "aaa.bbb.ccc")
  = Some ("aaa.bbb.ccc" : JsString).
Proof.
  apply (cookie_token_last "auth-token=old; theme=dark" "aaa.bbb.ccc"). reflexivity.
Defined.

(** Unfolding the other handlers down to the steps of the source. *)
Ltac run_steps :=
  cbv [logout_try logout_handler register_try register_handler
       me_try me_handler login_try login_handler checkRate as_string
       mbind mret handler_bind handler_ret
       Handler.bind Handler.ret Handler.throw Handler.get Handler.call
       Handler.truthy Handler.present Handler.throw_if].

Section LogoutProperties.
Context {C : WebCrypto} {J : JsonCodec}.

(** The whoami handler on a store that has no session for the token of
    the cookie. *)
Lemma me_GET_no_session env cookieHeader token now_ms :
  cookieHeader <> [] ->
  cookie_token cookieHeader = Some token ->
  token <> [] ->
  (getSessionUser (kv env) token now_ms).2 = None ->
  status (me_GET env (Some cookieHeader) now_ms).2 = 401.
Proof.
  intros Hc Ht Hne Hs. unfold me_GET.
  destruct (me_try env (Some cookieHeader) now_ms) as [kv' r] eqn:E.
  assert (Er : r = (me_try env (Some cookieHeader) now_ms).2) by now rewrite E.
  destruct (verifyJWT token (jwtSecret env) now_ms) as [payload|] eqn:Hv.
  - rewrite (me_try_verified _ _ _ _ _ Hc Ht Hne Hv), Hs in Er. now subst r.
  - revert Er. run_steps.
    destruct cookieHeader as [|c0 cs]; [contradiction|].
    rewrite Ht. destruct token as [|t0 ts]; [contradiction|].
    rewrite Hv. intros ->. reflexivity.
Qed.

(** X18: the logout handler never throws and always answers 200.  Without
    a [Cookie] header it leaves the store as it is; with the token in the
    cookie it deletes the session of this token and no other, and clears
    the cookie; the whoami handler then answers 401 to the same cookie. *)
Theorem logout_revokes_session (env : EnvironmentAdapter)
  (cookieHeader token : JsString) :
  cookieHeader <> [] ->
  cookie_token cookieHeader = Some token ->
  token <> [] ->
  (forall env' cookie',
     exists response,
       (logout_try env' cookie').2 = inr response
       /\ message_status response = 200)
  /\ logout_try env None
     = (kv env, inr {| message_status := 200; message := "No session to logout";
                       message_setCookie := None |})
  /\ (logout_try env (Some cookieHeader)).1 = deleteSession (kv env) token
  /\ (logout_try env (Some cookieHeader)).2
     = inr {| message_status := 200; message := "Logout successful";
              message_setCookie :=
                Some ("auth-token=; HttpOnly; "
                        ++ (if Js.eqb (environment env) "production"
                            then "Secure;" : JsString else [])
                        ++ " SameSite=Strict; Path=/; Max-Age=0") |}
  /\ (forall token' now_ms,
        token' <> token ->
        (getSessionUser (logout_try env (Some cookieHeader)).1 token' now_ms).2
        = (getSessionUser (kv env) token' now_ms).2)
  /\ (forall now_ms,
        status (me_GET (with_kv (logout_try env (Some cookieHeader)).1 env)
                  (Some cookieHeader) now_ms).2 = 401).
Proof.
  intros Hc Ht Hne.
  assert (E : (logout_try env (Some cookieHeader)).1 = deleteSession (kv env) token).
  { run_steps. destruct cookieHeader as [|c0 cs]; [contradiction|].
    rewrite Ht. destruct token as [|t0 ts]; [contradiction|]. reflexivity. }
  split; [|split; [|split; [|split; [|split]]]].
  - intros env' cookie'. run_steps.
    destruct cookie' as [[|c0 cs]|]; try (eexists; split; reflexivity).
    destruct (cookie_token (c0 :: cs)) as [[|t0 ts]|];
      eexists; split; reflexivity.
  - reflexivity.
  - exact E.
  - run_steps. destruct cookieHeader as [|c0 cs]; [contradiction|].
    rewrite Ht. destruct token as [|t0 ts]; [contradiction|]. reflexivity.
  - intros token' now_ms Hne'. rewrite E. unfold getSessionUser.
    apply KV_get_lookup. unfold deleteSession, KV.delete.
    apply lookup_delete_ne. intros Ek. apply session_key_inj in Ek. congruence.
  - intros now_ms. apply (me_GET_no_session _ _ token); try assumption.
    rewrite E. cbn [kv with_kv]. apply deleteSession_lookup.
Qed.

(** X19: the request authentication of [/api/tasks] does not consult the
    session store.  After a logout the whoami handler refuses the cookie,
    while a task request with the same cookie is still authenticated as
    the user, for as long as the token verifies. *)
Theorem tasks_authenticated_after_logout (env : EnvironmentAdapter)
  (cookieHeader token : JsString) (payload : JWTPayload.t) (user : User.t)
  (now_ms : Z) :
  cookieHeader <> [] ->
  cookie_token cookieHeader = Some token ->
  token <> [] ->
  verifyJWT token (jwtSecret env) now_ms = Some payload ->
  getUserById (db env) (JWTPayload.userId payload) = Some user ->
  let env' := with_kv (logout_try env (Some cookieHeader)).1 env in
  authenticateRequest (Some cookieHeader) env' now_ms = Some user
  /\ status (me_GET env' (Some cookieHeader) now_ms).2 = 401.
Proof.
  intros Hc Ht Hne Hv Hu env'. split.
  - unfold authenticateRequest, authenticateRequest_by.
    destruct cookieHeader as [|c0 cs]; [contradiction|].
    rewrite Ht. destruct token as [|t0 ts]; [contradiction|].
    cbn [jwtSecret db env' with_kv]. now rewrite Hv.
  - apply (me_GET_no_session _ _ token); try assumption.
    assert (E : (logout_try env (Some cookieHeader)).1
                = deleteSession (kv env) token).
    { run_steps. destruct cookieHeader as [|c0 cs]; [contradiction|].
      rewrite Ht. destruct token as [|t0 ts]; [contradiction|]. reflexivity. }
    unfold env'. rewrite E. cbn [kv with_kv]. apply deleteSession_lookup.
Qed.

End LogoutProperties.

Lemma logout_revokes_session_witness :
  (@logout_try (sample_env true sample_sessions) (Some sample_cookie)).1
  = deleteSession sample_sessions sample_token
  /\ status (@me_GET sample_crypto json_codec
               (with_kv (logout_try (sample_env true sample_sessions)
                           (Some sample_cookie)).1
                  (sample_env true sample_sessions))
               (Some sample_cookie) 2000).2 = 401.
Proof.
  destruct (@logout_revokes_session sample_crypto json_codec
              (sample_env true sample_sessions) sample_cookie sample_token)
    as (_ & _ & H3 & _ & _ & H6).
  - discriminate.
  - vm_compute. reflexivity.
  - discriminate.
  - split; [exact H3|apply H6].
Defined.

Lemma tasks_authenticated_after_logout_witness :
  @authenticateRequest sample_crypto json_codec (Some sample_cookie)
    (with_kv (logout_try (sample_env true sample_sessions) (Some sample_cookie)).1
       (sample_env true sample_sessions)) 2000
  = Some (sample_user true)
  /\ status (@me_GET sample_crypto json_codec
               (with_kv (logout_try (sample_env true sample_sessions)
                           (Some sample_cookie)).1
                  (sample_env true sample_sessions))
               (Some sample_cookie) 2000).2 = 401.
Proof.
  apply (@tasks_authenticated_after_logout sample_crypto json_codec
           (sample_env true sample_sessions) sample_cookie sample_token
           sample_payload (sample_user true) 2000).
  - discriminate.
  - vm_compute. reflexivity.
  - discriminate.
  - vm_compute. reflexivity.
  - vm_compute. reflexivity.
Defined.

(** ** The login handler, further *)

Lemma cookie_token_alone token :
  forallb is_token_char token = true ->
  cookie_token ("auth-token=" ++ token) = Some token.
Proof.
  intros Ht. destruct (auth_cookie_parts token Ht) as (Hsplit & Hns & Hsc).
  unfold cookie_token, parseCookies. rewrite split_none by exact Hsc.
  cbn [fold_left]. rewrite trim_id by exact Hns. rewrite Hsplit.
  now rewrite lookup_insert_eq.
Qed.

Lemma segment_token_chars data :
  forallb is_token_char (base64UrlEncode data) = true.
Proof.
  rewrite base64UrlEncode_of. apply forallb_forall.
  intros c [s [<- _]]%in_map_iff. unfold is_token_char.
  now rewrite url_char_safe.
Qed.

Lemma getSessionUser_created (kv : KV.store) (userId token : JsString)
  (now_ms later : Z) :
  later <= now_ms + 604800000 ->
  (getSessionUser (createSession kv userId token now_ms) token later).2
  = Some userId.
Proof.
  intros Hl. unfold getSessionUser, createSession, KV.get, KV.put.
  change (7 * 24 * 60 * 60 =? 0) with false. cbv iota.
  rewrite lookup_insert_eq. cbn [KV.expires KV.value].
  change (7 * 24 * 60 * 60 * 1000) with 604800000.
  destruct (Z.gtb_spec later (now_ms + 604800000)); [lia|].
  now rewrite andb_false_r.
Qed.

Lemma session_mismatch_same userId :
  userId <> [] -> session_mismatch (Some userId) userId = false.
Proof.
  destruct userId as [|c u]; [contradiction|]. intros _.
  cbn [session_mismatch]. unfold Js.eqb.
  now rewrite bool_decide_eq_true_2.
Qed.

Lemma session_mismatch_other userId userId' :
  userId <> [] -> userId <> userId' ->
  session_mismatch (Some userId) userId' = true.
Proof.
  destruct userId as [|c u]; [contradiction|]. intros _ H.
  cbn [session_mismatch]. unfold Js.eqb.
  now rewrite bool_decide_eq_false_2.
Qed.

Section LoginProperties.
Context {C : WebCrypto} {J : JsonCodec} {R : JsRuntime}.

Lemma created_token_chars userId email secret now_ms token :
  createJWT userId email secret now_ms = Some token ->
  forallb is_token_char token = true /\ token <> [].
Proof.
  unfold createJWT, signMessage. cbv zeta.
  destruct (hmac_key_ok (Js.encode secret)); [|discriminate].
  cbn [mbind option_bind]. intros Ht. apply (inj Some) in Ht. subst token.
  split.
  - rewrite !forallb_app, !segment_token_chars. reflexivity.
  - intros E. apply (f_equal (@length _)) in E. rewrite !length_app in E.
    cbn [length] in E. change (length (list_ascii_of_string ".")) with 1%nat in E.
    lia.
Qed.

(** The steps of the handler once the per-IP limit and the validation
    have let the request through. *)
Lemma login_try_steps s ip data e now_ms a1 :
  RateLimiter.checkRate (rateLimitKey (clientIP_of ip)) 10 (15 * 60 * 1000)
    now_ms (limiter s) = (true, a1) ->
  Value.field_of data "email" = JStr e ->
  validateInput data login_rules = Some accepted ->
  login_try s ip (Some data) now_ms =
  let '(emailAllowed, a2) :=
    RateLimiter.checkRate (emailRateLimitKey e) 5 (15 * 60 * 1000) now_ms a1 in
  if emailAllowed then
    match getUserByEmail (db (env s)) (Js.trim (Js.toLowerCase e)) with
    | None =>
        (set_limiter a2 s,
         inl (SecurityError "INVALID_CREDENTIALS" 401 "Invalid email or password"))
    | Some user =>
        if verifyPassword_value (Value.field_of data "password")
             (User.password_hash user)
        then
          match createJWT (User.id user) (User.email user) (jwtSecret (env s))
                  now_ms with
          | Some token =>
              (set_kv (createSession (kv (env s)) (User.id user) token now_ms)
                 (set_limiter a2 s),
               inr {| status := 200;
                      body := LoginBody "Login successful" (User.id user)
                                (User.email user) (User.display_name user);
                      setCookie :=
                        Some ("auth-token=" ++ token ++ "; HttpOnly; "
                                ++ (if Js.eqb (environment (env s)) "production"
                                    then "Secure;" : JsString else [])
                                ++ " SameSite=Strict; Path=/; Max-Age="
                                ++ Number.dec (7 * 24 * 60 * 60)) |})
          | None => (set_limiter a2 s, inl OtherError)
          end
        else
          (set_limiter a2 s,
           inl (SecurityError "INVALID_CREDENTIALS" 401 "Invalid email or password"))
    end
  else
    (set_limiter a2 s,
     inl (SecurityError "EMAIL_RATE_LIMIT_EXCEEDED" 429
            "Too many attempts for this email. Please try again later.")).
Proof.
  intros Hip He Hv. run_handler. rewrite Hip. cbn [negb].
  rewrite Hv, He. cbn [isValid accepted negb limiter set_limiter].
  destruct (RateLimiter.checkRate (emailRateLimitKey e) 5 (15 * 60 * 1000) now_ms a1)
    as [[] a2]; cbn [negb env set_limiter]; [|reflexivity].
  destruct (getUserByEmail _ _) as [user|]; [|reflexivity].
  destruct (verifyPassword_value _ _); cbn [negb]; [|reflexivity].
  destruct (createJWT _ _ _ _); reflexivity.
Qed.

(** X21: with a valid body and both limits open, an unknown email and a
    wrong password get the same answer, INVALID_CREDENTIALS with status
    401 and one message; no session is stored and no cookie is set, only
    the two counters have moved. *)
Theorem login_bad_credentials (s : Server) (ip : option JsString)
  (data : gmap JsString JsValue) (e : JsString)
  (a1 a2 : RateLimiter.attempts) (now_ms : Z) :
  RateLimiter.checkRate (rateLimitKey (clientIP_of ip)) 10 (15 * 60 * 1000)
    now_ms (limiter s) = (true, a1) ->
  Value.field_of data "email" = JStr e ->
  validateInput data login_rules = Some accepted ->
  RateLimiter.checkRate (emailRateLimitKey e) 5 (15 * 60 * 1000) now_ms a1
  = (true, a2) ->
  (getUserByEmail (db (env s)) (Js.trim (Js.toLowerCase e)) = None
   \/ exists user,
        getUserByEmail (db (env s)) (Js.trim (Js.toLowerCase e)) = Some user
        /\ verifyPassword_value (Value.field_of data "password")
             (User.password_hash user) = false) ->
  login_try s ip (Some data) now_ms
  = (set_limiter a2 s,
     inl (SecurityError "INVALID_CREDENTIALS" 401 "Invalid email or password"))
  /\ login_POST s ip (Some data) now_ms
     = (set_limiter a2 s,
        {| status := 401; body := ErrorBody "Invalid email or password";
           setCookie := None |}).
Proof.
  intros Hip He Hv Hem Hbad.
  assert (E : login_try s ip (Some data) now_ms
              = (set_limiter a2 s,
                 inl (SecurityError "INVALID_CREDENTIALS" 401
                        "Invalid email or password"))).
  { rewrite (login_try_steps s ip data e now_ms a1 Hip He Hv), Hem.
    destruct Hbad as [->|(user & -> & ->)]; reflexivity. }
  split; [exact E|]. unfold login_POST. now rewrite E.
Qed.

(** X22: the two limits of the login handler.  When the per-IP counter is
    full the answer is 429 whatever the body is, and nothing changes.
    When the per-email counter is full the answer is 429 whatever the
    password is, the right one included; the per-IP call has been
    counted, and no session is stored. *)
Theorem login_throttled (s : Server) (ip : option JsString) (now_ms : Z) :
  (forall a1 requestData,
     RateLimiter.checkRate (rateLimitKey (clientIP_of ip)) 10 (15 * 60 * 1000)
       now_ms (limiter s) = (false, a1) ->
     (login_try s ip requestData now_ms).1 = s
     /\ exists minutes,
          (login_try s ip requestData now_ms).2
          = inl (SecurityError "RATE_LIMIT_EXCEEDED" 429
                   ("Too many login attempts. Try again in " ++ Number.dec minutes
                      ++ " minutes."))
          /\ 0 <= minutes)
  /\ (forall a1 data e record,
        RateLimiter.checkRate (rateLimitKey (clientIP_of ip)) 10 (15 * 60 * 1000)
          now_ms (limiter s) = (true, a1) ->
        Value.field_of data "email" = JStr e ->
        validateInput data login_rules = Some accepted ->
        a1 !! emailRateLimitKey e = Some record ->
        5 <= RateLimiter.count record ->
        now_ms <= RateLimiter.resetTime record ->
        login_try s ip (Some data) now_ms
        = (set_limiter a1 s,
           inl (SecurityError "EMAIL_RATE_LIMIT_EXCEEDED" 429
                  "Too many attempts for this email. Please try again later."))).
Proof.
  split.
  - intros a1 requestData Hip.
    assert (Ea : a1 = limiter s /\ 0 <= RateLimiter.getRemainingTime
                   (rateLimitKey (clientIP_of ip)) now_ms (limiter s)).
    { revert Hip. unfold RateLimiter.checkRate, RateLimiter.getRemainingTime.
      destruct (limiter s !! rateLimitKey (clientIP_of ip)) as [r|]; [|discriminate].
      destruct (now_ms >? RateLimiter.resetTime r); [discriminate|].
      destruct (RateLimiter.count r >=? 10); [|discriminate].
      intros [= <-]. split; [reflexivity|lia]. }
    destruct Ea as [-> Hrem].
    run_handler. rewrite Hip. cbn [negb limiter set_limiter fst snd]. split.
    + now destruct s.
    + eexists. split; [reflexivity|].
      unfold ceil_minutes.
      assert (- RateLimiter.getRemainingTime (rateLimitKey (clientIP_of ip))
                  now_ms (limiter s) <= 0) by lia.
      pose proof (Z.div_le_upper_bound
                    (- RateLimiter.getRemainingTime (rateLimitKey (clientIP_of ip))
                         now_ms (limiter s)) 60000 0 ltac:(lia) ltac:(lia)).
      lia.
  - intros a1 data e record Hip He Hv Hrec Hcount Hreset.
    rewrite (login_try_steps s ip data e now_ms a1 Hip He Hv).
    now rewrite (checkRate_reached _ _ _ _ _ record Hrec Hreset Hcount).
Qed.

End LoginProperties.

Section LoginWhoami.
Context {C : WebCrypto} {R : JsRuntime}.
#[local] Existing Instance json_codec.

(** X20: a login with valid credentials answers 200, sets the cookie
    [auth-token] to a fresh token and stores the session.  What the
    whoami handler then answers to a request carrying this cookie,
    during the next 604800000 ms, depends on the [id] of the account
    (which is not empty and is the [id] of no other active row): when it
    is ASCII, as every [id] made by [createUser] is, the answer is the
    record of the user, whatever the email is; when it is not, the answer
    is SESSION_NOT_FOUND, because the token gives the [id] back as its
    UTF-8 bytes.  [JSON.stringify] and [JSON.parse] are the ones of the
    reference platform. *)
Theorem login_then_whoami (s : Server) (ip : option JsString)
  (data : gmap JsString JsValue) (e : JsString) (user : User.t)
  (a1 a2 : RateLimiter.attempts) (now_ms later : Z) :
  RateLimiter.checkRate (rateLimitKey (clientIP_of ip)) 10 (15 * 60 * 1000)
    now_ms (limiter s) = (true, a1) ->
  Value.field_of data "email" = JStr e ->
  validateInput data login_rules = Some accepted ->
  RateLimiter.checkRate (emailRateLimitKey e) 5 (15 * 60 * 1000) now_ms a1
  = (true, a2) ->
  getUserByEmail (db (env s)) (Js.trim (Js.toLowerCase e)) = Some user ->
  verifyPassword_value (Value.field_of data "password")
    (User.password_hash user) = true ->
  getUserById (db (env s)) (User.id user) = Some user ->
  User.id user <> [] ->
  jwtSecret (env s) <> [] ->
  later <= now_ms + 604800000 ->
  exists token,
    createJWT (User.id user) (User.email user) (jwtSecret (env s)) now_ms
    = Some token
    /\ login_try s ip (Some data) now_ms
       = (set_kv (createSession (kv (env s)) (User.id user) token now_ms)
            (set_limiter a2 s),
          inr {| status := 200;
                 body := LoginBody "Login successful" (User.id user)
                           (User.email user) (User.display_name user);
                 setCookie :=
                   Some ("auth-token=" ++ token ++ "; HttpOnly; "
                           ++ (if Js.eqb (environment (env s)) "production"
                               then "Secure;" : JsString else [])
                           ++ " SameSite=Strict; Path=/; Max-Age=604800") |})
    /\ (forallb Js.is_ascii7 (User.id user) = true ->
        (me_try (env (login_try s ip (Some data) now_ms).1)
           (Some ("auth-token=" ++ token)) later).2
        = inr {| status := 200;
                 body := UserBody (User.id user) (User.email user)
                           (User.display_name user) (User.created_at user)
                           (User.updated_at user);
                 setCookie := None |})
    /\ (forallb Js.is_ascii7 (User.id user) = false ->
        (me_try (env (login_try s ip (Some data) now_ms).1)
           (Some ("auth-token=" ++ token)) later).2
        = inl (SecurityError "SESSION_NOT_FOUND" 401 "Session has expired")).
Proof.
  intros Hip He Hv Hem Hu Hp Hid Hne Hsec Hlater.
  destruct (createJWT (User.id user) (User.email user) (jwtSecret (env s)) now_ms)
    as [token|] eqn:Ht.
  2: { rewrite createJWT_eq in Ht by assumption. discriminate. }
  exists token. split; [reflexivity|].
  assert (E : login_try s ip (Some data) now_ms
              = (set_kv (createSession (kv (env s)) (User.id user) token now_ms)
                   (set_limiter a2 s),
                 inr {| status := 200;
                        body := LoginBody "Login successful" (User.id user)
                                  (User.email user) (User.display_name user);
                        setCookie :=
                          Some ("auth-token=" ++ token ++ "; HttpOnly; "
                                  ++ (if Js.eqb (environment (env s)) "production"
                                      then "Secure;" : JsString else [])
                                  ++ " SameSite=Strict; Path=/; Max-Age=604800") |})).
  { rewrite (login_try_steps s ip data e now_ms a1 Hip He Hv), Hem, Hu, Hp, Ht.
    reflexivity. }
  split; [exact E|]. rewrite E. cbn [fst].
  destruct (created_token_chars _ _ _ _ _ Ht) as [Hchars Htne].
  assert (Hverify : verifyJWT token (jwtSecret (env s)) later
                    = Some {| JWTPayload.userId := Js.encode (User.id user);
                              JWTPayload.email := Js.encode (User.email user);
                              JWTPayload.iat := now_ms / 1000;
                              JWTPayload.exp := now_ms / 1000 + 7 * 24 * 60 * 60 |}).
  { apply (verify_created_encoded _ _ _ now_ms); try assumption.
    apply (Z.div_le_mono _ _ 1000) in Hlater; [|lia].
    replace (now_ms + 604800000) with (now_ms + 604800 * 1000) in Hlater by lia.
    rewrite Z.div_add in Hlater by lia. lia. }
  assert (Hme : (me_try
                   (env (set_kv (createSession (kv (env s)) (User.id user) token now_ms)
                           (set_limiter a2 s)))
                   (Some ("auth-token=" ++ token)) later).2
                = if session_mismatch (Some (User.id user)) (Js.encode (User.id user))
                  then inl (SecurityError "SESSION_NOT_FOUND" 401 "Session has expired")
                  else
                    match getUserById (db (env s)) (Js.encode (User.id user)) with
                    | None =>
                        inl (SecurityError "USER_NOT_FOUND" 404 "User account not found")
                    | Some user =>
                        if negb (User.is_active user)
                        then inl (SecurityError "USER_DEACTIVATED" 403
                                    "User account has been deactivated")
                        else inr {| status := 200;
                                    body := UserBody (User.id user) (User.email user)
                                              (User.display_name user)
                                              (User.created_at user)
                                              (User.updated_at user);
                                    setCookie := None |}
                    end).
  { rewrite (me_try_verified
               (env (set_kv (createSession (kv (env s)) (User.id user) token now_ms)
                       (set_limiter a2 s)))
               ("auth-token=" ++ token) token
               {| JWTPayload.userId := Js.encode (User.id user);
                  JWTPayload.email := Js.encode (User.email user);
                  JWTPayload.iat := now_ms / 1000;
                  JWTPayload.exp := now_ms / 1000 + 7 * 24 * 60 * 60 |} later);
      [|discriminate|now apply cookie_token_alone|exact Htne|exact Hverify].
    cbn [kv db env set_kv set_limiter with_kv JWTPayload.userId].
    now rewrite getSessionUser_created by exact Hlater. }
  rewrite Hme. split.
  - intros Ha. rewrite (encode_ascii _ Ha).
    rewrite session_mismatch_same by exact Hne.
    rewrite Hid. destruct (getUserById_active _ _ _ Hid) as [_ ->].
    reflexivity.
  - intros Ha. rewrite session_mismatch_other; [reflexivity|exact Hne|].
    intros Heq. apply encode_length in Ha. rewrite <- Heq in Ha. lia.
Qed.

End LoginWhoami.

(** A server with one registered user, whose password is [correct horse]. *)
Definition registered_hash : JsString :=
  Eval vm_compute in
    @hashPassword sample_crypto (Utf16.of_latin1 "correct horse") "0123456789abcdef".

Definition registered_user : User.t :=
  {| User.id := "u-7"; User.email := "ann@b.co";
     User.password_hash := registered_hash;
     User.display_name := "Ann";
     User.created_at := "2024-01-01 00:00:00";
     User.updated_at := "2024-01-01 00:00:00";
     User.is_active := true |}.

Definition login_server : Server :=
  {| limiter := ∅;
     env := {| db := [registered_user]; kv := ∅; jwtSecret := "secret";
               environment := "production" |} |}.

Definition credentials (email password : JsString) : gmap JsString JsValue :=
  {[ ("email" : JsString) := JStr email; ("password" : JsString) := JStr password ]}.

(** The limiter after the per-IP call and after the per-email call of a
    first request at time [now_ms]. *)
Definition after_ip (now_ms : Z) : RateLimiter.attempts :=
  <[("login:unknown" : JsString) :=
      {| RateLimiter.count := 1; RateLimiter.resetTime := now_ms + 15 * 60 * 1000 |}]> ∅.

Definition after_email (email : JsString) (now_ms : Z) : RateLimiter.attempts :=
  <[("login:email:" ++ email : JsString) :=
      {| RateLimiter.count := 1; RateLimiter.resetTime := now_ms + 15 * 60 * 1000 |}]>
    (after_ip now_ms).

Lemma after_ip_open now_ms :
  RateLimiter.checkRate "login:unknown" 10 (15 * 60 * 1000) now_ms ∅
  = (true, after_ip now_ms).
Proof. apply checkRate_fresh. left. apply lookup_empty. Qed.

Lemma after_email_open email now_ms :
  RateLimiter.checkRate ("login:email:" ++ email) 5 (15 * 60 * 1000) now_ms
    (after_ip now_ms)
  = (true, after_email email now_ms).
Proof.
  apply checkRate_fresh. left. unfold after_ip.
  rewrite lookup_insert_ne by discriminate. apply lookup_empty.
Qed.

Lemma login_then_whoami_witness :
  exists token,
    setCookie
      (@login_POST sample_crypto json_codec sample_runtime login_server None
         (Some (credentials "Ann@B.co" "correct horse")) 1000).2
    = Some ("auth-token=" ++ token
              ++ "; HttpOnly; Secure; SameSite=Strict; Path=/; Max-Age=604800")
    /\ status
         (@me_GET sample_crypto json_codec
            (env (@login_try sample_crypto json_codec sample_runtime login_server None
                    (Some (credentials "Ann@B.co" "correct horse")) 1000).1)
            (Some ("auth-token=" ++ token)) 604801000).2 = 200.
Proof.
  destruct (@login_then_whoami sample_crypto sample_runtime login_server None
              (credentials "Ann@B.co" "correct horse") "Ann@B.co" registered_user
              (after_ip 1000) (after_email "ann@b.co" 1000) 1000 604801000)
    as (token & Ht & Hlogin & Hme).
  1: exact (after_ip_open 1000).
  1: vm_compute; reflexivity.
  1: vm_compute; reflexivity.
  1: exact (after_email_open "ann@b.co" 1000).
  1: vm_compute; reflexivity.
  1: vm_compute; reflexivity.
  1: vm_compute; reflexivity.
  1: discriminate.
  1: discriminate.
  1: lia.
  exists token. split.
  - unfold login_POST. rewrite Hlogin. reflexivity.
  - destruct Hme as [Hme _]. specialize (Hme eq_refl). unfold me_GET.
    destruct (me_try _ _ _) as [kv' r]. cbn [snd] in Hme. now subst r.
Defined.

Lemma login_bad_credentials_witness :
  (@login_POST sample_crypto json_codec sample_runtime login_server None
     (Some (credentials "ann@b.co" "guess")) 1000).2
  = {| status := 401; body := ErrorBody "Invalid email or password";
       setCookie := None |}
  /\ (@login_POST sample_crypto json_codec sample_runtime login_server None
        (Some (credentials "bob@b.co" "correct horse")) 1000).2
     = {| status := 401; body := ErrorBody "Invalid email or password";
          setCookie := None |}.
Proof.
  split.
  - destruct (@login_bad_credentials sample_crypto json_codec sample_runtime login_server None
                (credentials "ann@b.co" "guess") "ann@b.co"
                (after_ip 1000) (after_email "ann@b.co" 1000) 1000) as [_ H].
    + exact (after_ip_open 1000).
    + vm_compute. reflexivity.
    + vm_compute. reflexivity.
    + exact (after_email_open "ann@b.co" 1000).
    + right. exists registered_user. split; vm_compute; reflexivity.
    + rewrite H. reflexivity.
  - destruct (@login_bad_credentials sample_crypto json_codec sample_runtime login_server None
                (credentials "bob@b.co" "correct horse") "bob@b.co"
                (after_ip 1000) (after_email "bob@b.co" 1000) 1000) as [_ H].
    + exact (after_ip_open 1000).
    + vm_compute. reflexivity.
    + vm_compute. reflexivity.
    + exact (after_email_open "bob@b.co" 1000).
    + left. vm_compute. reflexivity.
    + rewrite H. reflexivity.
Defined.

(** The server after five attempts at one email within a minute. *)
Definition busy_server : Server :=
  {| limiter :=
       <[("login:email:ann@b.co" : JsString) :=
           {| RateLimiter.count := 5; RateLimiter.resetTime := 900000 |}]> ∅;
     env := env login_server |}.

Lemma login_throttled_witness :
  (@login_try sample_crypto json_codec sample_runtime busy_server None
     (Some (credentials "ann@b.co" "correct horse")) 60000).2
  = inl (SecurityError "EMAIL_RATE_LIMIT_EXCEEDED" 429
           "Too many attempts for this email. Please try again later.").
Proof.
  destruct (@login_throttled sample_crypto json_codec sample_runtime busy_server None 60000)
    as [_ H].
  rewrite (H (<[("login:unknown" : JsString) :=
                  {| RateLimiter.count := 1;
                     RateLimiter.resetTime := 60000 + 15 * 60 * 1000 |}]>
                (limiter busy_server))
             (credentials "ann@b.co" "correct horse") "ann@b.co"
             {| RateLimiter.count := 5; RateLimiter.resetTime := 900000 |}).
  - reflexivity.
  - apply checkRate_fresh. left. unfold busy_server. cbn [limiter].
    rewrite lookup_insert_ne by discriminate. apply lookup_empty.
  - vm_compute. reflexivity.
  - vm_compute. reflexivity.
  - rewrite lookup_insert_ne by discriminate. apply lookup_insert_eq.
  - cbn. lia.
  - cbn. lia.
Defined.

(** ** Registration *)

(** Some character of the class [p] comes before the first line
    terminator of [s]. *)
Definition on_first_line (p : ascii -> bool) (s : JsString) : Prop :=
  exists pre c post,
    s = pre ++ c :: post
    /\ forallb (fun x => negb (Js.is_line_terminator x)) pre = true
    /\ p c = true.

Lemma rx_ahead_spec p s :
  Regex.test (rx_ahead p) s = true <-> on_first_line p s.
Proof.
  rewrite test_matches. unfold rx_ahead, on_first_line, rx_dot, rx_any. split.
  - inversion 1 as [| |? ? pre s1 Hpre H1| | | |]; subst.
    inversion H1 as [| |? ? s2 post Hc Hpost| | | |]; subst.
    apply matches_star_class in Hpre.
    apply matches_char in Hc as (c & -> & Hc).
    exists pre, c, post. now repeat split.
  - intros (pre & c & post & -> & Hpre & Hc).
    apply matches_seq; [now apply matches_star_class|].
    apply (matches_seq _ _ [c] post); [now constructor|].
    apply matches_star_class. now apply forallb_forall.
Qed.

Lemma rx_first_spec p s :
  Regex.test (Regex.Seq (Regex.Class p) (Regex.Star rx_any)) s = true
  <-> exists c rest, s = c :: rest /\ p c = true.
Proof.
  rewrite test_matches. unfold rx_any. split.
  - inversion 1 as [| |? ? s1 rest Hc _| | | |]; subst.
    apply matches_char in Hc as (c & -> & Hc). now exists c, rest.
  - intros (c & rest & -> & Hc).
    apply (matches_seq _ _ [c] rest); [now constructor|].
    apply matches_star_class. now apply forallb_forall.
Qed.

(** X23: the password pattern of the registration accepts a string exactly
    when its first character is a letter, a digit or one of [@$!%*?&] and
    its first line has a lower-case letter, an upper-case letter, a digit
    and one of [@$!%*?&].  It is not anchored at the end: an accepted
    string followed by any characters is accepted. *)
Theorem password_pattern_spec (s : JsString) :
  (password_pattern s = true
   <-> (exists c rest,
          s = c :: rest
          /\ (is_upper_letter c || is_lower_letter c || is_digit c
              || is_special c) = true)
       /\ on_first_line is_lower_letter s
       /\ on_first_line is_upper_letter s
       /\ on_first_line is_digit s
       /\ on_first_line is_special s)
  /\ (forall t, password_pattern s = true -> password_pattern (s ++ t) = true).
Proof.
  assert (Hspec : forall u,
            password_pattern u = true
            <-> (exists c rest,
                   u = c :: rest
                   /\ (is_upper_letter c || is_lower_letter c || is_digit c
                       || is_special c) = true)
                /\ on_first_line is_lower_letter u
                /\ on_first_line is_upper_letter u
                /\ on_first_line is_digit u
                /\ on_first_line is_special u).
  { intros u. unfold password_pattern.
    rewrite !andb_true_iff, !rx_ahead_spec, rx_first_spec. tauto. }
  split; [apply Hspec|].
  assert (Happ : forall p u t, on_first_line p u -> on_first_line p (u ++ t)).
  { intros p u t (pre & c & post & -> & Hpre & Hc).
    exists pre, c, (post ++ t). rewrite <- app_assoc. now repeat split. }
  intros t (Hfirst & H1 & H2 & H3 & H4)%Hspec. apply Hspec.
  split; [|now repeat split; apply Happ].
  destruct Hfirst as (c & rest & -> & Hc). now exists c, (rest ++ t).
Qed.

Lemma find_app_none {A} (f : A -> bool) l l' :
  find f l = None -> find f (l ++ l') = find f l'.
Proof.
  induction l as [|x l IH]; [reflexivity|]. cbn [find app].
  destruct (f x); [discriminate|exact IH].
Qed.

(** A number that is not below a bound is not below a smaller one. *)
Lemma number_ltb_mono x a b :
  a <= b -> Number.ltb x b = false -> Number.ltb x a = false.
Proof.
  intros Hab. unfold Number.ltb, Number.compare.
  destruct x as [|negative|negative s n].
  - destruct (Z.compare_spec 0 b), (Z.compare_spec 0 a); try reflexivity;
      try discriminate; lia.
  - now destruct negative.
  - set (k := Z.of_nat (length (Number.dec (Z.pos s)))).
    set (m := if negative then Z.neg s else Z.pos s).
    destruct (k <=? n).
    + destruct (Z.compare_spec (m * 10 ^ (n - k)) b),
        (Z.compare_spec (m * 10 ^ (n - k)) a); try reflexivity;
        try discriminate; lia.
    + assert (Hp : 0 <= 10 ^ (k - n)) by (apply Z.pow_nonneg; lia).
      destruct (Z.compare_spec m (b * 10 ^ (k - n))),
        (Z.compare_spec m (a * 10 ^ (k - n))); try reflexivity;
        try discriminate; nia.
Qed.

Section RuleFacts.
Context {R : JsRuntime}.

Lemma length_lt_mono v a b :
  a <= b -> Value.length_lt v b = Some false -> Value.length_lt v a = Some false.
Proof.
  intros Hab. unfold Value.length_lt.
  destruct (Value.length_of v) as [len|w].
  - intros [= H]. f_equal. apply Z.ltb_ge in H. apply Z.ltb_ge. lia.
  - destruct (Value.toNumber w) as [[x|]|]; cbn; try easy.
    intros [= H]. f_equal. now apply (number_ltb_mono x a b).
Qed.

(** What an empty result of a required rule says about the value. *)
Lemma rule_errors_nil data rule :
  required rule = true ->
  rule_errors data rule = Some [] <->
  Value.truthy (Value.field_of data (field rule)) = true
  /\ exists text,
       Value.toString (Value.field_of data (field rule)) = Some text
       /\ Js.trim text <> []
       /\ (type rule = Some TEmail -> Regex.test email_regex text = true)
       /\ length_below (Value.field_of data (field rule)) (minLength rule)
          = Some false
       /\ length_above (Value.field_of data (field rule)) (maxLength rule)
          = Some false
       /\ (forall test, pattern rule = Some test -> test text = true).
Proof.
  intros Hreq.
  destruct (Value.truthy (Value.field_of data (field rule))) eqn:Ht.
  2: { rewrite rule_errors_falsy, Hreq by exact Ht.
       split; [discriminate|]. now intros [H _]. }
  destruct (Value.toString (Value.field_of data (field rule))) as [text|] eqn:Es.
  2: { rewrite rule_errors_throw by assumption.
       split; [discriminate|]. intros [_ (text & H & _)]. discriminate H. }
  rewrite (rule_errors_text data rule text Ht Es), Hreq. cbn [andb].
  destruct (Js.trim text) as [|t0 ts] eqn:Et; cbn [is_empty].
  { split; [discriminate|]. intros [_ (text' & [= <-] & H & _)].
    rewrite Et in H. now destruct H. }
  destruct (length_below _ _) as [tooShort|]; cbn [mbind option_bind].
  2: { split; [discriminate|].
       intros [_ (text' & _ & _ & _ & Hl & _)]. discriminate Hl. }
  destruct (length_above _ _) as [tooLong|]; cbn [mbind option_bind].
  2: { split; [discriminate|].
       intros [_ (text' & _ & _ & _ & _ & Hg & _)]. discriminate Hg. }
  split.
  - intros H. apply (inj Some) in H.
    apply app_eq_nil in H as [H1 H]. apply app_eq_nil in H as [H2 H].
    apply app_eq_nil in H as [H3 H4].
    split; [reflexivity|]. exists text. rewrite Et.
    split; [reflexivity|]. split; [discriminate|]. split; [|split; [|split]].
    + intros Hty. rewrite Hty in H1.
      destruct (Regex.test email_regex text); [reflexivity|discriminate H1].
    + destruct tooShort; [discriminate H2|reflexivity].
    + destruct tooLong; [discriminate H3|reflexivity].
    + intros test Hp. rewrite Hp in H4.
      destruct (test text); [reflexivity|discriminate H4].
  - intros [_ (text' & Hs & _ & Hem & Hl & Hg & Hp)].
    apply (inj Some) in Hs. subst text'.
    apply (inj Some) in Hl. apply (inj Some) in Hg. subst tooShort tooLong.
    f_equal. cbn [app].
    assert (E1 : (if match type rule with Some TEmail => true | _ => false end
                     && negb (Regex.test email_regex text)
                  then [field rule ++ " must be a valid email"] else []) = []).
    { destruct (type rule) as [[]|]; try reflexivity.
      now rewrite Hem. }
    rewrite E1. cbn [app].
    destruct (pattern rule) as [test|]; [|reflexivity].
    now rewrite (Hp test eq_refl).
Qed.

(** A body that passes the validation of the registration passes the
    validation of the login. *)
Lemma register_valid_login data :
  validateInput data register_rules = Some accepted ->
  validateInput data login_rules = Some accepted.
Proof.
  rewrite !validateInput_valid. intros H rule [<-|[<-|[]]].
  - apply H. now left.
  - pose (P := {| field := "password"; required := true; type := None;
                  minLength := Some 12; maxLength := Some 128;
                  pattern := Some password_pattern |}).
    assert (HP : rule_errors data P = Some []) by (apply H; right; now left).
    apply (rule_errors_nil data P eq_refl) in HP
      as (Ht & text & Hs & Htrim & _ & Hlow & Hhigh & _).
    apply rule_errors_nil; [reflexivity|].
    unfold P in *. cbn [field type minLength maxLength pattern] in *.
    split; [exact Ht|]. exists text. repeat split; try assumption; try discriminate.
    unfold length_below in *. change (12 =? 0) with false in Hlow.
    change (1 =? 0) with false. cbv iota in *.
    apply (length_lt_mono _ 1 12); [lia|exact Hlow].
Qed.

End RuleFacts.

Section RegistrationProperties.
Context {C : WebCrypto} {R : JsRuntime}.

(** The steps of the handler once the limit and the validation have let
    the request through. *)
Lemma register_try_steps s ip data e now_ms id salt timestamp a1 :
  RateLimiter.checkRate ("register:" ++ clientIP_of ip) 5 (60 * 60 * 1000)
    now_ms (limiter s) = (true, a1) ->
  Value.field_of data "email" = JStr e ->
  validateInput data register_rules = Some accepted ->
  register_try s ip (Some data) now_ms id salt timestamp =
  match getUserByEmail (db (env s)) (Js.trim (Js.toLowerCase e)) with
  | Some _ =>
      (set_limiter a1 s,
       inl (SecurityError "USER_EXISTS" 409
              "An account with this email already exists"))
  | None =>
      match Value.field_of data "displayName" with
      | JStr d =>
          match createUser_value (db (env s)) (Js.trim (Js.toLowerCase e))
                  (Value.field_of data "password") (Js.trim d)
                  id salt timestamp with
          | (db', Some user) =>
              (set_db db' (set_limiter a1 s),
               inr {| status := 201;
                      body := LoginBody "User created successfully" (User.id user)
                                (User.email user) (User.display_name user);
                      setCookie := None |})
          | (db', None) =>
              (set_db db' (set_limiter a1 s),
               inl (SecurityError "USER_CREATION_FAILED" 500
                      "Failed to create user account"))
          end
      | _ => (set_limiter a1 s, inl OtherError)
      end
  end.
Proof.
  intros Hip He Hv. run_steps. rewrite Hip. cbn [negb].
  rewrite Hv, He. cbn [isValid accepted negb env set_limiter db].
  destruct (getUserByEmail (db (env s)) (Js.trim (Js.toLowerCase e))) as [u|].
  - rewrite bool_decide_eq_true_2 by eauto. reflexivity.
  - rewrite bool_decide_eq_false_2 by (intros [? ?]; discriminate).
    destruct (Value.field_of data "displayName"); try reflexivity.
    cbn [env set_limiter db].
    destruct (createUser_value _ _ _ _ _ _ _) as [db' [user|]]; reflexivity.
Qed.

(** The password of an accepted registration has a text. *)
Lemma encoded_text_truthy v :
  Value.truthy v = true -> Value.encoded_text v = Value.toString v.
Proof. now destruct v. Qed.

Lemma register_valid_password data :
  validateInput data register_rules = Some accepted ->
  exists password,
    Value.toString (Value.field_of data "password") = Some password
    /\ Value.encoded_text (Value.field_of data "password") = Some password.
Proof.
  rewrite validateInput_valid. intros H.
  pose (P := {| field := "password"; required := true; type := None;
                minLength := Some 12; maxLength := Some 128;
                pattern := Some password_pattern |}).
  assert (HP : rule_errors data P = Some []) by (apply H; right; now left).
  apply (rule_errors_nil data P eq_refl) in HP as (Ht & text & Hs & _).
  exists text. split; [exact Hs|].
  cbn [field P] in Ht. now rewrite (encoded_text_truthy _ Ht).
Qed.

End RegistrationProperties.

Section RegistrationFlow.
Context {C : WebCrypto} {J : JsonCodec} {R : JsRuntime}.

(** The row [createUser] inserts. *)
Definition new_user (e : JsString) (password : Utf16.t) (d id : JsString)
  (salt : Uint8Array) (timestamp : JsString) : User.t :=
  {| User.id := id; User.email := Js.trim (Js.toLowerCase e);
     User.password_hash := hashPassword password salt;
     User.display_name := Js.trim d;
     User.created_at := timestamp; User.updated_at := timestamp;
     User.is_active := true |}.

Lemma createUser_fresh db e password d id salt timestamp :
  (forall u, In u db ->
     User.id u <> id /\ User.email u <> Js.trim (Js.toLowerCase e)) ->
  createUser db (Js.trim (Js.toLowerCase e)) password (Js.trim d) id salt timestamp
  = (db ++ [new_user e password d id salt timestamp],
     Some (new_user e password d id salt timestamp))
  /\ getUserByEmail db (Js.trim (Js.toLowerCase e)) = None
  /\ getUserByEmail (db ++ [new_user e password d id salt timestamp])
       (Js.trim (Js.toLowerCase e))
     = Some (new_user e password d id salt timestamp).
Proof.
  intros Hfresh.
  assert (Hid : find (fun u => Js.eqb (User.id u) id) db = None).
  { apply find_none_iff. intros u Hu. apply bool_decide_eq_false_2.
    now apply Hfresh. }
  assert (Hem : getUserByEmail db (Js.trim (Js.toLowerCase e)) = None).
  { apply find_none_iff. intros u Hu. unfold Js.eqb.
    rewrite bool_decide_eq_false_2; [reflexivity|now apply Hfresh]. }
  split; [|split; [exact Hem|]].
  - unfold createUser, insert_user.
    replace (existsb _ db) with false.
    + fold (new_user e password d id salt timestamp).
      rewrite find_app_none by exact Hid. cbn [find new_user User.id].
      unfold Js.eqb. now rewrite bool_decide_eq_true_2.
    + symmetry. apply not_true_is_false. intros (u & Hu & Hor)%existsb_exists.
      destruct (Hfresh u Hu) as [H1 H2]. unfold Js.eqb in Hor.
      rewrite !bool_decide_eq_false_2 in Hor by assumption. discriminate.
  - unfold getUserByEmail in *. rewrite find_app_none by exact Hem.
    cbn [find new_user User.email User.is_active]. unfold Js.eqb.
    now rewrite bool_decide_eq_true_2.
Qed.

(** X24: a registration with a fresh [id] and an email that is not in the
    table answers 201 and appends the row, with the email in lower case
    and the password hashed; a login with the same body then answers 200
    for this user and sets the cookie.  The password is hashed as the
    text the value has, which an accepted body always has. *)
Theorem register_then_login (s : Server) (ip ip' : option JsString)
  (data : gmap JsString JsValue) (e d id timestamp : JsString)
  (salt : Uint8Array) (a1 b1 b2 : RateLimiter.attempts) (now_ms later : Z) :
  RateLimiter.checkRate ("register:" ++ clientIP_of ip) 5 (60 * 60 * 1000)
    now_ms (limiter s) = (true, a1) ->
  Value.field_of data "email" = JStr e ->
  Value.field_of data "displayName" = JStr d ->
  validateInput data register_rules = Some accepted ->
  (forall u, In u (db (env s)) ->
     User.id u <> id /\ User.email u <> Js.trim (Js.toLowerCase e)) ->
  length salt = 16%nat ->
  jwtSecret (env s) <> [] ->
  RateLimiter.checkRate (rateLimitKey (clientIP_of ip')) 10 (15 * 60 * 1000)
    later a1 = (true, b1) ->
  RateLimiter.checkRate (emailRateLimitKey e) 5 (15 * 60 * 1000) later b1
  = (true, b2) ->
  exists password,
    Value.toString (Value.field_of data "password") = Some password
    /\ let user := new_user e (Utf16.of_latin1 password) d id salt timestamp in
       register_try s ip (Some data) now_ms id salt timestamp
       = (set_db (db (env s) ++ [user]) (set_limiter a1 s),
          inr {| status := 201;
                 body := LoginBody "User created successfully" id
                           (Js.trim (Js.toLowerCase e)) (Js.trim d);
                 setCookie := None |})
       /\ exists token,
            (login_try (register_try s ip (Some data) now_ms id salt timestamp).1
               ip' (Some data) later).2
            = inr {| status := 200;
                     body := LoginBody "Login successful" id
                               (Js.trim (Js.toLowerCase e)) (Js.trim d);
                     setCookie :=
                       Some ("auth-token=" ++ token ++ "; HttpOnly; "
                               ++ (if Js.eqb (environment (env s)) "production"
                                   then "Secure;" : JsString else [])
                               ++ " SameSite=Strict; Path=/; Max-Age=604800") |}.
Proof.
  intros Hip He Hd Hv Hfresh Hsalt Hsec Hip' Hem.
  destruct (register_valid_password data Hv) as (password & Hstr & Hpw).
  exists password. split; [exact Hstr|]. intros user.
  destruct (createUser_fresh (db (env s)) e (Utf16.of_latin1 password) d id salt
              timestamp Hfresh)
    as (Hcreate & Hnone & Hfound).
  assert (E : register_try s ip (Some data) now_ms id salt timestamp
              = (set_db (db (env s) ++ [user]) (set_limiter a1 s),
                 inr {| status := 201;
                        body := LoginBody "User created successfully" id
                                  (Js.trim (Js.toLowerCase e)) (Js.trim d);
                        setCookie := None |})).
  { rewrite (register_try_steps s ip data e now_ms id salt timestamp a1 Hip He Hv).
    rewrite Hnone, Hd. unfold createUser_value. rewrite Hpw, Hcreate. reflexivity. }
  split; [exact E|]. rewrite E. cbn [fst].
  set (s' := set_db (db (env s) ++ [user]) (set_limiter a1 s)).
  destruct (createJWT id (Js.trim (Js.toLowerCase e)) (jwtSecret (env s)) later)
    as [token|] eqn:Ht.
  2: { rewrite createJWT_eq in Ht by assumption. discriminate. }
  exists token.
  rewrite (login_try_steps s' ip' data e later b1);
    [|exact Hip'|exact He|now apply register_valid_login].
  rewrite Hem. cbn [db env s' set_db set_limiter jwtSecret environment kv].
  fold user. unfold user at 1. rewrite Hfound.
  unfold verifyPassword_value. rewrite Hpw.
  cbn [new_user User.password_hash User.id User.email User.display_name].
  rewrite verify_hashed by exact Hsalt. rewrite Ht. reflexivity.
Qed.

(** X25: a registration whose email belongs to an active account, in any
    letter case, answers USER_EXISTS (409); one whose email belongs to a
    deactivated account, or whose [id] is taken, passes this check, fails
    at the insert and answers USER_CREATION_FAILED (500).  The table is
    unchanged in both cases. *)
Theorem register_existing_email (s : Server) (ip : option JsString)
  (data : gmap JsString JsValue) (e id timestamp : JsString) (salt : Uint8Array)
  (a1 : RateLimiter.attempts) (now_ms : Z) :
  RateLimiter.checkRate ("register:" ++ clientIP_of ip) 5 (60 * 60 * 1000)
    now_ms (limiter s) = (true, a1) ->
  Value.field_of data "email" = JStr e ->
  validateInput data register_rules = Some accepted ->
  (forall u,
     In u (db (env s)) ->
     User.email u = Js.trim (Js.toLowerCase e) -> User.is_active u = true ->
     register_POST s ip (Some data) now_ms id salt timestamp
     = (set_limiter a1 s,
        {| status := 409;
           body := ErrorBody "An account with this email already exists";
           setCookie := None |}))
  /\ (forall u d,
        Value.field_of data "displayName" = JStr d ->
        getUserByEmail (db (env s)) (Js.trim (Js.toLowerCase e)) = None ->
        In u (db (env s)) ->
        User.email u = Js.trim (Js.toLowerCase e) \/ User.id u = id ->
        register_POST s ip (Some data) now_ms id salt timestamp
        = (set_limiter a1 s,
           {| status := 500; body := ErrorBody "Failed to create user account";
              setCookie := None |})).
Proof.
  intros Hip He Hv. split.
  - intros u Hu Hemail Hactive. unfold register_POST.
    rewrite (register_try_steps s ip data e now_ms id salt timestamp a1 Hip He Hv).
    destruct (getUserByEmail (db (env s)) (Js.trim (Js.toLowerCase e))) eqn:Eg;
      [reflexivity|].
    exfalso. unfold getUserByEmail in Eg.
    apply (find_none _ _ Eg) in Hu. unfold Js.eqb in Hu.
    rewrite bool_decide_eq_true_2, Hactive in Hu by exact Hemail. discriminate.
  - intros u d Hd Hnone Hu Hdup. unfold register_POST.
    rewrite (register_try_steps s ip data e now_ms id salt timestamp a1 Hip He Hv).
    rewrite Hnone, Hd. unfold createUser_value, createUser, insert_user.
    replace (existsb _ (db (env s))) with true.
    + destruct (Value.encoded_text (Value.field_of data "password"));
        now destruct s as [lim [dd k j en]].
    + symmetry. apply existsb_exists. exists u. split; [exact Hu|].
      unfold Js.eqb. destruct Hdup as [Hx|Hx];
        rewrite (bool_decide_eq_true_2 _ Hx); [apply orb_true_r|reflexivity].
Qed.

End RegistrationFlow.

(** *** A display name that is not a string *)

(** [[a-zA-Z0-9\s\-_.]]. *)
Definition is_display_char (c : ascii) : bool :=
  is_lower_letter c || is_upper_letter c || is_digit c
  || Js.is_space c || (c =? "-")%char || (c =? "_")%char || (c =? ".")%char.

Lemma displayName_pattern_chars s :
  displayName_pattern s = true <-> s <> [] /\ forallb is_display_char s = true.
Proof.
  unfold displayName_pattern. rewrite test_matches. apply matches_plus_class.
Qed.

(** The text of the number has a positive exponent: the number is 10^21
    or more in magnitude. *)
Definition exponent_plus (x : Number.t) : bool :=
  match x with
  | Number.Finite _ _ n => 21 <? n
  | _ => false
  end.

Lemma dec_display z : forallb is_display_char (Number.dec z) = true.
Proof.
  apply (forallb_impl Json.is_number_char); [|apply dec_number_chars].
  intros c. each_byte c; intros H; try reflexivity; discriminate H.
Qed.

Lemma number_text_display x :
  exponent_plus x = false -> forallb is_display_char (Number.toString x) = true.
Proof.
  destruct x as [|[]|negative s n]; intros Hn; try reflexivity.
  cbn [exponent_plus] in Hn. apply Z.ltb_ge in Hn.
  unfold Number.toString.
  set (digits := Number.dec (Zpos s)).
  assert (Hd : forallb is_display_char digits = true) by apply dec_display.
  rewrite forallb_app. apply andb_true_iff. split; [now destruct negative|].
  destruct ((Z.of_nat (length digits) <=? n) && (n <=? 21)) eqn:E1.
  { rewrite forallb_app, Hd. now apply forallb_repeat. }
  destruct ((0 <? n) && (n <=? 21)) eqn:E2.
  { now rewrite !forallb_app, forallb_firstn, forallb_skipn. }
  destruct ((-6 <? n) && (n <=? 0)) eqn:E3.
  { rewrite !forallb_app, Hd, andb_true_r. cbn [forallb app].
    now apply forallb_repeat. }
  assert (Hneg : (n - 1 <? 0) = true).
  { apply Z.ltb_lt.
    destruct (Z.ltb_spec 0 n); destruct (Z.leb_spec n 21);
      cbn [andb] in E2; try discriminate; lia. }
  rewrite Hneg.
  assert (He : forallb is_display_char
                 ("e" ++ ("-" : JsString) ++ Number.dec (Z.abs (n - 1))) = true)
    by now rewrite !forallb_app, dec_display.
  destruct digits as [|d [|d' more]]; [reflexivity| |].
  - cbn [forallb] in Hd |- *. apply andb_true_iff in Hd as [-> _]. exact He.
  - cbn [forallb] in Hd. apply andb_true_iff in Hd as [Hd1 Hd2].
    cbn [forallb app]. rewrite Hd1. cbn [andb].
    apply andb_true_iff in Hd2 as [Hd2 Hd3].
    rewrite forallb_app. cbn [forallb]. rewrite Hd2, forallb_app, Hd3.
    cbn [andb]. exact He.
Qed.

Lemma number_text_plus x :
  exponent_plus x = true -> In "+"%char (Number.toString x).
Proof.
  destruct x as [| |negative s n]; intros Hn; try discriminate.
  cbn [exponent_plus] in Hn. apply Z.ltb_lt in Hn.
  unfold Number.toString.
  pose proof (dec_pos_nonempty s) as Hne.
  set (digits := Number.dec (Zpos s)) in *.
  apply in_or_app. right.
  replace (n <=? 21) with false by (symmetry; apply Z.leb_gt; lia).
  replace (n <=? 0) with false by (symmetry; apply Z.leb_gt; lia).
  rewrite !andb_false_r.
  replace (n - 1 <? 0) with false by (symmetry; apply Z.ltb_ge; lia).
  destruct digits as [|d [|d' more]]; [now destruct Hne| |].
  - cbn [In]. rewrite !in_app_iff. cbn [In list_ascii_of_string]. tauto.
  - cbn [In]. rewrite !in_app_iff. cbn [In list_ascii_of_string]. tauto.
Qed.

(** The display-name pattern on the text of a number. *)
Lemma displayName_pattern_number x :
  displayName_pattern (Number.toString x) = negb (exponent_plus x).
Proof.
  destruct (exponent_plus x) eqn:E; cbn [negb].
  - destruct (displayName_pattern (Number.toString x)) eqn:Ep; [|reflexivity].
    apply displayName_pattern_chars in Ep as [_ Ep].
    rewrite forallb_forall in Ep.
    pose proof (number_text_plus x E) as Hplus. now apply Ep in Hplus.
  - apply displayName_pattern_chars. split; [apply number_text_nonempty|].
    now apply number_text_display.
Qed.

(** The text of an array, element by element. *)
Definition element_text (item : JsValue) : option JsString :=
  match item with
  | JUndefined | JNull => Some []
  | _ => Value.toString item
  end.

Lemma toString_array items :
  Value.toString (JArr items) = join "," <$> mapM element_text items.
Proof.
  reflexivity.
Qed.

Lemma join_comma (a b : JsString) l : In ","%char (join "," (a :: b :: l)).
Proof.
  cbn [join]. apply in_or_app. right. now left.
Qed.

(** The text of an array of two or more elements has a comma. *)
Lemma array_text_comma items text :
  (2 <= length items)%nat ->
  Value.toString (JArr items) = Some text -> In ","%char text.
Proof.
  intros Hlen. rewrite toString_array.
  destruct (mapM element_text items) as [texts|] eqn:Em; [|discriminate].
  intros [= <-].
  assert (Hl : length texts = length items).
  { symmetry. now apply (length_mapM element_text). }
  destruct texts as [|a [|b l]]; cbn [length] in Hl; try lia.
  apply join_comma.
Qed.

Section DisplayNames.
Context {C : WebCrypto} {R : JsRuntime}.

Definition displayName_rule : ValidationRule :=
  {| field := "displayName"; required := true; type := None;
     minLength := Some 2; maxLength := Some 100;
     pattern := Some displayName_pattern |}.

(** The values other than strings that the rule for [displayName] lets
    through. *)
Lemma displayName_rule_not_string (data : gmap JsString JsValue) :
  (forall d, Value.field_of data "displayName" <> JStr d) ->
  rule_errors data displayName_rule = Some []
  <-> Value.field_of data "displayName" = JBool true
      \/ exists x,
           Value.field_of data "displayName" = JNum x
           /\ x <> Number.Zero /\ exponent_plus x = false.
Proof.
  intros Hd. rewrite (rule_errors_nil data displayName_rule eq_refl).
  cbn [field type minLength maxLength pattern displayName_rule].
  destruct (Value.field_of data "displayName") as [| |b|x|d|items|members] eqn:Ev.
  - split; [now intros [H _]|]. intros [H|(x & H & _)]; discriminate H.
  - split; [now intros [H _]|]. intros [H|(x & H & _)]; discriminate H.
  - destruct b.
    + split; [now left|]. intros _. split; [reflexivity|].
      exists "true". split; [reflexivity|]. split; [discriminate|].
      split; [discriminate|]. split; [|split].
      * apply (length_undefined (JBool true) (Some 2) eq_refl).
      * apply (length_undefined (JBool true) (Some 100) eq_refl).
      * now intros test [= <-].
    + split; [now intros [H _]|]. intros [H|(x & H & _)]; discriminate H.
  - split.
    + intros [Ht (text & [= <-] & _ & _ & _ & _ & Hp)]. right. exists x.
      split; [reflexivity|]. split.
      * intros ->. discriminate Ht.
      * specialize (Hp _ eq_refl). rewrite displayName_pattern_number in Hp.
        now destruct (exponent_plus x).
    + intros [H|(x' & [= <-] & Hx & Hp)]; [discriminate H|].
      split; [cbn; now rewrite bool_decide_eq_false_2|].
      exists (Number.toString x). split; [reflexivity|]. split.
      * pose proof (number_text_not_blank x) as Hb.
        now destruct (Js.trim (Number.toString x)).
      * split; [discriminate|]. split; [|split].
        -- apply (length_undefined (JNum x) (Some 2) eq_refl).
        -- apply (length_undefined (JNum x) (Some 100) eq_refl).
        -- intros test [= <-]. now rewrite displayName_pattern_number, Hp.
  - now destruct (Hd d).
  - split; [|intros [H|(x & H & _)]; discriminate H].
    intros [_ (text & Hs & _ & _ & Hl & _ & Hp)]. exfalso.
    specialize (Hp _ eq_refl). apply displayName_pattern_chars in Hp as [_ Hp].
    unfold length_below, Value.length_lt in Hl. cbn [Value.length_of] in Hl.
    change (2 =? 0) with false in Hl. cbv iota in Hl.
    apply (inj Some) in Hl. apply Z.ltb_ge in Hl.
    assert (Hc : In ","%char text) by (apply (array_text_comma items); [lia|exact Hs]).
    rewrite forallb_forall in Hp. now apply Hp in Hc.
  - split; [|intros [H|(x & H & _)]; discriminate H].
    intros [_ (text & Hs & _ & _ & _ & _ & Hp)]. exfalso.
    specialize (Hp _ eq_refl). cbn [Value.toString] in Hs.
    destruct (Value.own members "toString"); [discriminate|].
    apply (inj Some) in Hs. subst text. discriminate Hp.
Qed.

(** X26: a [displayName] that is not a string can pass the validation:
    [true] does, and so does every number other than 0 whose text has no
    positive exponent, which is to say every number below 10^21 in
    magnitude, fractions and [Infinity] included; no other value that is
    not a string does ([displayName_rule] is the third of the rules of
    the handler).  For an accepted body with such a [displayName]
    the handler fails on [displayName.trim()] and answers 500, after the
    check for an existing account and before anything is written. *)
Theorem register_display_name_not_string (s : Server) (ip : option JsString)
  (data : gmap JsString JsValue) (e id timestamp : JsString) (salt : Uint8Array)
  (a1 : RateLimiter.attempts) (now_ms : Z) :
  RateLimiter.checkRate ("register:" ++ clientIP_of ip) 5 (60 * 60 * 1000)
    now_ms (limiter s) = (true, a1) ->
  Value.field_of data "email" = JStr e ->
  (forall d, Value.field_of data "displayName" <> JStr d) ->
  nth_error register_rules 2 = Some displayName_rule
  /\ (rule_errors data displayName_rule = Some []
   <-> Value.field_of data "displayName" = JBool true
       \/ exists x,
            Value.field_of data "displayName" = JNum x
            /\ x <> Number.Zero /\ exponent_plus x = false)
  /\ (validateInput data register_rules = Some accepted ->
      getUserByEmail (db (env s)) (Js.trim (Js.toLowerCase e)) = None ->
      register_POST s ip (Some data) now_ms id salt timestamp
      = (set_limiter a1 s,
         {| status := 500; body := ErrorBody "Internal server error";
            setCookie := None |})).
Proof.
  intros Hip He Hd. split; [reflexivity|].
  split; [now apply displayName_rule_not_string|].
  intros Hv Hnone. unfold register_POST.
  rewrite (register_try_steps s ip data e now_ms id salt timestamp a1 Hip He Hv).
  rewrite Hnone.
  destruct (Value.field_of data "displayName") as [| | | |d| |]; try reflexivity.
  now destruct (Hd d).
Qed.

End DisplayNames.

(** A server without users, and the body of a registration. *)
Definition empty_server : Server :=
  {| limiter := ∅;
     env := {| db := []; kv := ∅; jwtSecret := "secret";
               environment := "development" |} |}.

Definition registration (email password : JsString) (displayName : JsValue)
  : gmap JsString JsValue :=
  {[ ("email" : JsString) := JStr email; ("password" : JsString) := JStr password;
     ("displayName" : JsString) := displayName ]}.

Definition after_register (now_ms : Z) : RateLimiter.attempts :=
  <[("register:unknown" : JsString) :=
      {| RateLimiter.count := 1; RateLimiter.resetTime := now_ms + 60 * 60 * 1000 |}]> ∅.

Lemma after_register_open now_ms env0 :
  RateLimiter.checkRate ("register:" ++ clientIP_of None) 5 (60 * 60 * 1000) now_ms
    (limiter {| limiter := ∅; env := env0 |})
  = (true, after_register now_ms).
Proof. apply checkRate_fresh. left. apply lookup_empty. Qed.

Lemma register_then_login_witness :
  exists token,
    (@login_try sample_crypto json_codec sample_runtime
       (@register_try sample_crypto sample_runtime empty_server None
          (Some (registration "Ann@B.co" "Correct1!horse" (JStr " Ann Lee ")))
          0 "id-1" "0123456789abcdef" "2024-01-01 00:00:00").1
       None
       (Some (registration "Ann@B.co" "Correct1!horse" (JStr " Ann Lee ")))
       1000).2
    = inr {| status := 200;
             body := LoginBody "Login successful" "id-1" "ann@b.co" "Ann Lee";
             setCookie :=
               Some ("auth-token=" ++ token
                       ++ "; HttpOnly;  SameSite=Strict; Path=/; Max-Age=604800") |}.
Proof.
  destruct (@register_then_login sample_crypto json_codec sample_runtime
              empty_server None None
              (registration "Ann@B.co" "Correct1!horse" (JStr " Ann Lee "))
              "Ann@B.co" " Ann Lee " "id-1" "2024-01-01 00:00:00"
              "0123456789abcdef"
              (after_register 0)
              (<[("login:unknown" : JsString) :=
                   {| RateLimiter.count := 1;
                      RateLimiter.resetTime := 1000 + 15 * 60 * 1000 |}]>
                 (after_register 0))
              (<[("login:email:ann@b.co" : JsString) :=
                   {| RateLimiter.count := 1;
                      RateLimiter.resetTime := 1000 + 15 * 60 * 1000 |}]>
                 (<[("login:unknown" : JsString) :=
                      {| RateLimiter.count := 1;
                         RateLimiter.resetTime := 1000 + 15 * 60 * 1000 |}]>
                    (after_register 0)))
              0 1000) as (password & _ & _ & token & Hlogin).
  - apply after_register_open.
  - vm_compute. reflexivity.
  - vm_compute. reflexivity.
  - vm_compute. reflexivity.
  - intros u [].
  - reflexivity.
  - discriminate.
  - apply checkRate_fresh. left. unfold after_register.
    rewrite lookup_insert_ne by discriminate. apply lookup_empty.
  - apply checkRate_fresh. left. unfold after_register.
    rewrite !lookup_insert_ne by discriminate. apply lookup_empty.
  - exists token. exact Hlogin.
Defined.

Lemma register_existing_email_witness :
  (@register_POST sample_crypto sample_runtime login_server None
     (Some (registration "ANN@b.co" "Correct1!horse" (JStr "Ann")))
     0 "id-2" "0123456789abcdef" "2024-01-01 00:00:00").2
  = {| status := 409;
       body := ErrorBody "An account with this email already exists";
       setCookie := None |}.
Proof.
  destruct (@register_existing_email sample_crypto sample_runtime login_server None
              (registration "ANN@b.co" "Correct1!horse" (JStr "Ann"))
              "ANN@b.co" "id-2" "2024-01-01 00:00:00" "0123456789abcdef"
              (after_register 0) 0) as [H _].
  - apply after_register_open.
  - vm_compute. reflexivity.
  - vm_compute. reflexivity.
  - rewrite (H registered_user); [reflexivity|now left|reflexivity|reflexivity].
Defined.

(** The numbers 1.5 and 10^21 as display names: the first passes the
    validation and ends in 500, the second is refused with 400. *)
Lemma register_display_name_not_string_witness :
  @rule_errors sample_runtime
    (registration "ann@b.co" "Correct1!horse" (JNum (Number.Finite false 15 1)))
    displayName_rule = Some []
  /\ (@register_POST sample_crypto sample_runtime empty_server None
        (Some (registration "ann@b.co" "Correct1!horse"
                 (JNum (Number.Finite false 15 1))))
        0 "id-1" "0123456789abcdef" "2024-01-01 00:00:00").2
     = {| status := 500; body := ErrorBody "Internal server error";
          setCookie := None |}
  /\ Number.toString (Number.Finite false 1 22) = "1e+21"
  /\ (@register_POST sample_crypto sample_runtime empty_server None
        (Some (registration "ann@b.co" "Correct1!horse"
                 (JNum (Number.Finite false 1 22))))
        0 "id-1" "0123456789abcdef" "2024-01-01 00:00:00").2
     = {| status := 400; body := ErrorBody "Invalid input data";
          setCookie := None |}.
Proof.
  destruct (@register_display_name_not_string sample_crypto sample_runtime
              empty_server None
              (registration "ann@b.co" "Correct1!horse"
                 (JNum (Number.Finite false 15 1)))
              "ann@b.co" "id-1" "2024-01-01 00:00:00" "0123456789abcdef"
              (after_register 0) 0) as (_ & Hrule & Hpost).
  - apply after_register_open.
  - vm_compute. reflexivity.
  - intros d. vm_compute. discriminate.
  - split; [|split; [|split]].
    + apply Hrule. right. exists (Number.Finite false 15 1).
      split; [vm_compute; reflexivity|]. split; [discriminate|reflexivity].
    + rewrite Hpost; [reflexivity|vm_compute; reflexivity|reflexivity].
    + reflexivity.
    + vm_compute. reflexivity.
Defined.

(** ** Security headers *)

(** The six names [addSecurityHeaders] sets, in lower case. *)
Definition security_header_names : list JsString :=
  [ ("x-content-type-options" : JsString); ("x-frame-options" : JsString);
    ("x-xss-protection" : JsString); ("referrer-policy" : JsString);
    ("content-security-policy" : JsString);
    ("strict-transport-security" : JsString) ].

(** The six headers with the values the source gives them. *)
Definition security_headers : list (JsString * JsString) :=
  [ ("X-Content-Type-Options" : JsString, "nosniff" : JsString);
    ("X-Frame-Options" : JsString, "DENY" : JsString);
    ("X-XSS-Protection" : JsString, "1; mode=block" : JsString);
    ("Referrer-Policy" : JsString, "strict-origin-when-cross-origin" : JsString);
    ("Content-Security-Policy" : JsString,
     "default-src 'self'; script-src 'self' 'unsafe-inline'; style-src 'self' 'unsafe-inline'"
       : JsString);
    ("Strict-Transport-Security" : JsString,
     "max-age=31536000; includeSubDomains" : JsString) ].

(** The lookup of [k] when it is the lower-case form of [name], one of
    the names set. *)
Ltac header_case name k :=
  destruct (decide (Js.toLowerCase name = k)) as [<-|];
  [repeat first [ rewrite lookup_insert_eq
                | rewrite lookup_insert_ne by discriminate ];
   reflexivity|].

(** X27: [addSecurityHeaders] keeps the status, the status text and the
    body; it keeps every header whose name is not one of the six, in
    whatever letter case the name is asked for, and gives each of the six
    its fixed value, whatever the response held for it and in whatever
    letter case it is asked for: [nosniff], [DENY], [1; mode=block],
    [strict-origin-when-cross-origin], the content security policy and
    [max-age=31536000; includeSubDomains]; applying it twice is applying
    it once. *)
Theorem addSecurityHeaders_spec (response : HttpResponse) :
  http_status (addSecurityHeaders response) = http_status response
  /\ http_statusText (addSecurityHeaders response) = http_statusText response
  /\ http_body (addSecurityHeaders response) = http_body response
  /\ (forall name,
        ~ In (Js.toLowerCase name) security_header_names ->
        Headers.get name (http_headers (addSecurityHeaders response))
        = Headers.get name (http_headers response))
  /\ (forall name asked value,
        In (name, value) security_headers ->
        Js.toLowerCase asked = Js.toLowerCase name ->
        Headers.get asked (http_headers (addSecurityHeaders response))
        = Some value)
  /\ map (fun header => Js.toLowerCase header.1) security_headers
     = security_header_names
  /\ Headers.get "X-Frame-Options" (http_headers (addSecurityHeaders response))
     = Some ("DENY" : JsString)
  /\ Headers.get "x-content-type-options"
       (http_headers (addSecurityHeaders response))
     = Some ("nosniff" : JsString)
  /\ Headers.get "STRICT-TRANSPORT-SECURITY"
       (http_headers (addSecurityHeaders response))
     = Some ("max-age=31536000; includeSubDomains" : JsString)
  /\ Headers.get "x-xss-protection" (http_headers (addSecurityHeaders response))
     = Some ("1; mode=block" : JsString)
  /\ Headers.get "Referrer-Policy" (http_headers (addSecurityHeaders response))
     = Some ("strict-origin-when-cross-origin" : JsString)
  /\ Headers.get "CONTENT-SECURITY-POLICY"
       (http_headers (addSecurityHeaders response))
     = Some ("default-src 'self'; script-src 'self' 'unsafe-inline'; style-src 'self' 'unsafe-inline'"
               : JsString)
  /\ addSecurityHeaders (addSecurityHeaders response) = addSecurityHeaders response.
Proof.
  assert (Hsix : forall name asked value,
            In (name, value) security_headers ->
            Js.toLowerCase asked = Js.toLowerCase name ->
            Headers.get asked (http_headers (addSecurityHeaders response))
            = Some value).
  { intros name asked value Hin Hasked.
    unfold addSecurityHeaders, Headers.get, Headers.set. cbn [http_headers].
    rewrite Hasked.
    cbn [In security_headers] in Hin.
    destruct Hin as [E|[E|[E|[E|[E|[E|[]]]]]]]; injection E as <- <-;
      repeat first [ rewrite lookup_insert_eq
                   | rewrite lookup_insert_ne by discriminate ];
      reflexivity. }
  split; [reflexivity|]. split; [reflexivity|]. split; [reflexivity|].
  split; [|split; [exact Hsix|split; [reflexivity|]]].
  2: split; [|split; [|split; [|split; [|split; [|split]]]]].
  - intros name Hname. unfold addSecurityHeaders, Headers.get, Headers.set.
    cbn [http_headers].
    rewrite !lookup_insert_ne; [reflexivity|..];
      intros E; apply Hname; rewrite <- E; cbn; tauto.
  - apply (Hsix "X-Frame-Options"); [cbn; tauto|reflexivity].
  - apply (Hsix "X-Content-Type-Options"); [cbn; tauto|reflexivity].
  - apply (Hsix "Strict-Transport-Security"); [cbn; tauto|reflexivity].
  - apply (Hsix "X-XSS-Protection"); [cbn; tauto|reflexivity].
  - apply (Hsix "Referrer-Policy"); [cbn; tauto|reflexivity].
  - apply (Hsix "Content-Security-Policy"); [cbn; tauto|reflexivity].
  - unfold addSecurityHeaders. cbn [http_status http_statusText http_body
                                      http_headers].
    f_equal. unfold Headers.set. apply map_eq. intros k.
    header_case "X-Content-Type-Options" k.
    header_case "X-Frame-Options" k.
    header_case "X-XSS-Protection" k.
    header_case "Referrer-Policy" k.
    header_case "Content-Security-Policy" k.
    header_case "Strict-Transport-Security" k.
    rewrite !lookup_insert_ne by assumption. reflexivity.
Qed.

(** ** The answers of the login handler *)

Section LoginAnswers.
Context {C : WebCrypto} {J : JsonCodec} {R : JsRuntime}.

(** X28: every answer of the login handler is one of two kinds.  Either
    the status is 200: then the body of the request has a string [email]
    and is accepted by the validation, the credential lookup for the
    normalized email has found an active user of the database whose
    stored hash the password of the request verifies against, the body
    names this user, the cookie [auth-token] carries the token signed for
    this user and the session of this token is stored for this user.  Or
    the status is 400, 401, 429 or 500, no cookie is set, and the
    database, the session store and the secret are as before. *)
Theorem login_answers (s : Server) (ip : option JsString)
  (requestData : option (gmap JsString JsValue)) (now_ms : Z) :
  let s' := (login_POST s ip requestData now_ms).1 in
  let response := (login_POST s ip requestData now_ms).2 in
  (status response = 200
   /\ exists data e token user,
        requestData = Some data
        /\ Value.field_of data "email" = JStr e
        /\ validateInput data login_rules = Some accepted
        /\ getUserByEmail (db (env s)) (Js.trim (Js.toLowerCase e)) = Some user
        /\ In user (db (env s))
        /\ User.email user = Js.trim (Js.toLowerCase e)
        /\ User.is_active user = true
        /\ verifyPassword_value (Value.field_of data "password")
             (User.password_hash user) = true
        /\ createJWT (User.id user) (User.email user) (jwtSecret (env s)) now_ms
           = Some token
        /\ body response
           = LoginBody "Login successful" (User.id user) (User.email user)
               (User.display_name user)
        /\ setCookie response
           = Some ("auth-token=" ++ token ++ "; HttpOnly; "
                     ++ (if Js.eqb (environment (env s)) "production"
                         then "Secure;" : JsString else [])
                     ++ " SameSite=Strict; Path=/; Max-Age=604800")
        /\ env s' = with_kv (createSession (kv (env s)) (User.id user) token now_ms)
                      (env s))
  \/ (In (status response) [400; 401; 429; 500]
      /\ setCookie response = None
      /\ env s' = env s).
Proof.
  cbv zeta. unfold login_POST. run_handler.
  destruct (RateLimiter.checkRate _ 10 _ now_ms (limiter s)) as [[] a1];
    cbn [negb limiter set_limiter fst snd];
    [|right; cbn; tauto].
  destruct requestData as [data|]; [|right; cbn; tauto].
  destruct (validateInput data login_rules) as [v|] eqn:Ev; [|right; cbn; tauto].
  destruct (isValid v) eqn:Ei; cbn [negb]; [|right; cbn; tauto].
  apply (valid_accepted _ _ _ Ev) in Ei. subst v.
  destruct (Value.field_of data "email") as [| | | |e| |] eqn:Ee;
    try (right; cbn; tauto).
  cbn [limiter set_limiter].
  destruct (RateLimiter.checkRate _ 5 _ now_ms a1) as [[] a2];
    cbn [negb env set_limiter fst snd]; [|right; cbn; tauto].
  destruct (getUserByEmail (db (env s)) (Js.trim (Js.toLowerCase e)))
    as [user|] eqn:Eu; [|right; cbn; tauto].
  destruct (verifyPassword_value _ _) eqn:Ep; cbn [negb]; [|right; cbn; tauto].
  destruct (createJWT (User.id user) (User.email user) (jwtSecret (env s)) now_ms)
    as [token|] eqn:Et; [|right; cbn; tauto].
  left. cbn [status fst snd]. split; [reflexivity|].
  exists data, e, token, user.
  pose proof Eu as Hfound. unfold getUserByEmail in Hfound.
  apply find_some in Hfound as [Hin [He Ha]%andb_true_iff].
  apply bool_decide_eq_true in He.
  repeat split; try assumption; reflexivity.
Qed.

End LoginAnswers.

(** ** The task requests on the in-memory database *)

(** The value of [includes] on two texts that are known. *)
Ltac compute_includes :=
  repeat match goal with
  | |- context [includes ?a ?b] =>
      let v := eval vm_compute in (includes a b) in
      change (includes a b) with v
  end.

Lemma prepare_user_by_id :
  Memory.prepare sql_user_by_id
  = Js.toLowerCase
      ("SELECT id, email, display_name, created_at, updated_at, is_active"
         ++ nl ++ "      FROM users"
         ++ nl ++ "      WHERE id = ? AND is_active = 1").
Proof. vm_compute. reflexivity. Qed.

Lemma prepare_task_owned :
  Memory.prepare sql_task_owned
  = "select * from tasks where id = ? and user_id = ?".
Proof. vm_compute. reflexivity. Qed.

Lemma prepare_task_by_id :
  Memory.prepare sql_task_by_id = "select * from tasks where id = ?".
Proof. vm_compute. reflexivity. Qed.

Lemma prepare_delete_task :
  Memory.prepare sql_delete_task
  = "delete from tasks where id = ? and user_id = ?".
Proof. vm_compute. reflexivity. Qed.

Section MemoryStatements.
Variable getTime : JsValue -> option Z.
Variable now : JsString.

(** The statement that is meant to check the owner of a task reads the
    task by its [id] alone. *)
Lemma first_task_owned taskId userId db :
  Memory.first getTime now sql_task_owned [taskId; userId] db
  = (db, Memory.TaskRow <$> JsMap.get taskId (Memory.tasks db)).
Proof.
  unfold Memory.first. rewrite prepare_task_owned. unfold Memory.execute.
  compute_includes. cbn [andb Memory.binding nth].
  now destruct (JsMap.get taskId (Memory.tasks db)).
Qed.

Lemma first_task_by_id taskId db :
  Memory.first getTime now sql_task_by_id [taskId] db
  = (db, Memory.TaskRow <$> JsMap.get taskId (Memory.tasks db)).
Proof.
  unfold Memory.first. rewrite prepare_task_by_id. unfold Memory.execute.
  compute_includes. cbn [andb Memory.binding nth].
  now destruct (JsMap.get taskId (Memory.tasks db)).
Qed.

Lemma run_delete_task taskId userId db :
  Memory.run getTime now sql_delete_task [taskId; userId] db
  = {| Memory.users := Memory.users db;
       Memory.tasks := JsMap.delete taskId (Memory.tasks db) |}.
Proof.
  unfold Memory.run. rewrite prepare_delete_task. unfold Memory.execute.
  compute_includes. cbn [andb]. reflexivity.
Qed.

End MemoryStatements.

Lemma JsMap_get_delete {V} key (m : JsMap.t V) : JsMap.get key (JsMap.delete key m) = None.
Proof.
  unfold JsMap.get, JsMap.delete.
  induction m as [|[k v] m IH]; [reflexivity|]. cbn [List.filter fst].
  destruct (Value.same k key) eqn:E; cbn [negb]; [exact IH|].
  cbn [find fst]. now rewrite E.
Qed.

Lemma same_string s : Value.same (JStr s) (JStr s) = true.
Proof. cbn. unfold Js.eqb. now rewrite bool_decide_eq_true_2. Qed.

(** A key that is its own equal: any value but an array or an object. *)
Lemma JsMap_get_set {V} key (v : V) (m : JsMap.t V) :
  Value.same key key = true ->
  JsMap.get key (JsMap.set key v m) = Some v.
Proof.
  intros Hkey. unfold JsMap.get.
  induction m as [|[k w] m IH]; cbn [JsMap.set find fst].
  - now rewrite Hkey.
  - destruct (Value.same k key) eqn:E; cbn [find fst].
    + now rewrite Hkey.
    + now rewrite E.
Qed.

(** [v !== undefined], and the list of [x] when [b] holds. *)
Definition present (v : JsValue) : bool :=
  match v with JUndefined => false | _ => true end.

Definition pick {A : Type} (b : bool) (x : A) : list A := if b then [x] else [].

(** The names of the fields of an UPDATE, by the fields that are there. *)
Definition chosen (b1 b2 b3 b4 b5 b6 : bool) : list JsString :=
  pick b1 ("title" : JsString) ++ pick b2 ("description" : JsString)
    ++ pick b3 ("status" : JsString) ++ pick b4 ("priority" : JsString)
    ++ pick b5 ("due_date" : JsString) ++ pick b6 ("order_index" : JsString).

(** The statement a PUT builds is taken for an update, and the names
    read back from its text are the names it was built from. *)
Lemma update_statement_fields b1 b2 b3 b4 b5 b6 :
  let statement :=
    Memory.prepare
      (sql_update_task
         (map (fun name => name ++ " = ?") (chosen b1 b2 b3 b4 b5 b6)
            ++ [("updated_at = ?" : JsString)])) in
  includes "insert into users" statement = false
  /\ includes "select" statement = false
  /\ includes "insert into tasks" statement = false
  /\ includes "update tasks" statement = true
  /\ Memory.set_fields <$> Memory.set_clause statement
     = Some (chosen b1 b2 b3 b4 b5 b6 ++ [("updated_at" : JsString)]).
Proof.
  destruct b1, b2, b3, b4, b5, b6; vm_compute; repeat split; reflexivity.
Qed.

Lemma binding_before_last_app vals a b c :
  Memory.binding_before_last (vals ++ [a; b; c]) = b.
Proof.
  unfold Memory.binding_before_last, Memory.binding.
  rewrite length_app. cbn [length].
  destruct (Nat.ltb_spec (length vals + 3) 2); [lia|].
  replace (length vals + 3 - 2)%nat with (length vals + 1)%nat by lia.
  rewrite app_nth2_plus. reflexivity.
Qed.

(** The task after a PUT with the body [data]: the fields of the body
    replace the ones of the task, and [updated_at] is the current time. *)
Definition put_value (data : gmap JsString JsValue) (name : JsString)
  (old : JsValue) : JsValue :=
  match Value.field_of data name with
  | JUndefined => old
  | value => value
  end.

Lemma put_value_present data name old :
  put_value data name old
  = if present (Value.field_of data name) then Value.field_of data name else old.
Proof. unfold put_value. now destruct (Value.field_of data name). Qed.

Definition put_result (data : gmap JsString JsValue) (now : JsString)
  (task : MemoryTask.t) : MemoryTask.t :=
  {| MemoryTask.id := MemoryTask.id task;
     MemoryTask.user_id := MemoryTask.user_id task;
     MemoryTask.title := put_value data "title" (MemoryTask.title task);
     MemoryTask.description :=
       put_value data "description" (MemoryTask.description task);
     MemoryTask.status := put_value data "status" (MemoryTask.status task);
     MemoryTask.priority := put_value data "priority" (MemoryTask.priority task);
     MemoryTask.due_date := put_value data "due_date" (MemoryTask.due_date task);
     MemoryTask.created_at := MemoryTask.created_at task;
     MemoryTask.updated_at := JStr now;
     MemoryTask.order_index :=
       put_value data "order_index" (MemoryTask.order_index task) |}.

Lemma assign_all_chosen b1 b2 b3 b4 b5 b6 v1 v2 v3 v4 v5 v6 now taskId userId task :
  Memory.assign_all (chosen b1 b2 b3 b4 b5 b6 ++ [("updated_at" : JsString)])
    ((pick b1 v1 ++ pick b2 v2 ++ pick b3 v3 ++ pick b4 v4 ++ pick b5 v5
        ++ pick b6 v6) ++ [JStr now; taskId; userId]) task
  = {| MemoryTask.id := MemoryTask.id task;
       MemoryTask.user_id := MemoryTask.user_id task;
       MemoryTask.title := (if b1 then v1 else MemoryTask.title task);
       MemoryTask.description := (if b2 then v2 else MemoryTask.description task);
       MemoryTask.status := (if b3 then v3 else MemoryTask.status task);
       MemoryTask.priority := (if b4 then v4 else MemoryTask.priority task);
       MemoryTask.due_date := (if b5 then v5 else MemoryTask.due_date task);
       MemoryTask.created_at := MemoryTask.created_at task;
       MemoryTask.updated_at := JStr now;
       MemoryTask.order_index := (if b6 then v6 else MemoryTask.order_index task) |}.
Proof.
  destruct task. destruct b1, b2, b3, b4, b5, b6; vm_compute; reflexivity.
Qed.

Section DevelopmentProperties.
Context {C : WebCrypto} {J : JsonCodec}.
Variable getTime : JsValue -> option Z.
Variable now : JsString.

(** X29: on the in-memory database a DELETE removes the task with the
    given [id] for any authenticated user, whoever owns the task: the
    statement that selects by [id] and [user_id] is answered by [id]
    alone, and so is the delete.  The answer is 404 exactly when no task
    has this [id]. *)
Theorem dev_delete_any_owner (cookie : option JsString) (taskId jwtSecret : JsString)
  (now_ms : Z) (db : Memory.Database) (user : MemoryUser.t) :
  authenticateRequest_by (dev_getUserById getTime now db) cookie jwtSecret now_ms
  = Some user ->
  taskId <> [] ->
  (forall task,
     JsMap.get (JStr taskId) (Memory.tasks db) = Some task ->
     tasks_DELETE getTime now cookie (Some taskId) jwtSecret now_ms db
     = ({| Memory.users := Memory.users db;
           Memory.tasks := JsMap.delete (JStr taskId) (Memory.tasks db) |},
        {| task_status := 200;
           task_body := TaskMessage "Task deleted successfully" |})
     /\ JsMap.get (JStr taskId)
          (Memory.tasks
             (tasks_DELETE getTime now cookie (Some taskId) jwtSecret now_ms db).1)
        = None)
  /\ (JsMap.get (JStr taskId) (Memory.tasks db) = None ->
      tasks_DELETE getTime now cookie (Some taskId) jwtSecret now_ms db
      = (db, {| task_status := 404; task_body := TaskError "Task not found" |})).
Proof.
  intros Hauth Hne. unfold tasks_DELETE. rewrite Hauth.
  destruct taskId as [|t0 ts]; [contradiction|].
  rewrite first_task_owned, run_delete_task. split.
  - intros task Ht. rewrite Ht. cbn [fmap option_fmap option_map].
    split; [reflexivity|]. cbn [fst Memory.tasks]. apply JsMap_get_delete.
  - intros Ht. now rewrite Ht.
Qed.

(** X30: on the in-memory database a PUT writes the fields of the body,
    and no others, to the task with the given [id], and stamps
    [updated_at]: the names the update reads back from the text of its
    own statement are the ones the handler put there.  As for DELETE, any
    authenticated user may do so, whoever owns the task. *)
Theorem dev_put_applies_body (cookie : option JsString) (taskId jwtSecret : JsString)
  (data : gmap JsString JsValue) (now_ms : Z) (db : Memory.Database)
  (user : MemoryUser.t) (task : MemoryTask.t) :
  authenticateRequest_by (dev_getUserById getTime now db) cookie jwtSecret now_ms
  = Some user ->
  taskId <> [] ->
  JsMap.get (JStr taskId) (Memory.tasks db) = Some task ->
  tasks_PUT getTime now cookie (Some taskId) (Some data) jwtSecret now_ms db
  = ({| Memory.users := Memory.users db;
        Memory.tasks :=
          JsMap.set (JStr taskId) (put_result data now task) (Memory.tasks db) |},
     {| task_status := 200;
        task_body :=
          TaskObject (Some (Memory.TaskRow (put_result data now task))) |}).
Proof.
  intros Hauth Hne Htask. unfold tasks_PUT. rewrite Hauth.
  destruct taskId as [|t0 ts]; [contradiction|].
  rewrite first_task_owned, Htask. cbn [fmap option_fmap option_map]. cbv zeta.
  set (tid := JStr (t0 :: ts)) in *.
  assert (Hfields : put_fields data
            = pick (present (Value.field_of data "title"))
                (("title" : JsString), Value.field_of data "title")
              ++ pick (present (Value.field_of data "description"))
                   (("description" : JsString), Value.field_of data "description")
              ++ pick (present (Value.field_of data "status"))
                   (("status" : JsString), Value.field_of data "status")
              ++ pick (present (Value.field_of data "priority"))
                   (("priority" : JsString), Value.field_of data "priority")
              ++ pick (present (Value.field_of data "due_date"))
                   (("due_date" : JsString), Value.field_of data "due_date")
              ++ pick (present (Value.field_of data "order_index"))
                   (("order_index" : JsString), Value.field_of data "order_index")).
  { unfold put_fields.
    rewrite (flat_map_ext _
               (fun name => pick (present (Value.field_of data name))
                              (name, Value.field_of data name)))
      by (intros name; now destruct (Value.field_of data name)).
    cbn [flat_map]. now rewrite app_nil_r. }
  set (v1 := Value.field_of data "title") in *.
  set (v2 := Value.field_of data "description") in *.
  set (v3 := Value.field_of data "status") in *.
  set (v4 := Value.field_of data "priority") in *.
  set (v5 := Value.field_of data "due_date") in *.
  set (v6 := Value.field_of data "order_index") in *.
  assert (Hnames : map fst (put_fields data)
                   = chosen (present v1) (present v2) (present v3) (present v4)
                       (present v5) (present v6)).
  { rewrite Hfields.
    now destruct (present v1), (present v2), (present v3), (present v4),
      (present v5), (present v6). }
  assert (Hvals : map snd (put_fields data)
                  = pick (present v1) v1 ++ pick (present v2) v2
                      ++ pick (present v3) v3 ++ pick (present v4) v4
                      ++ pick (present v5) v5 ++ pick (present v6) v6).
  { rewrite Hfields.
    now destruct (present v1), (present v2), (present v3), (present v4),
      (present v5), (present v6). }
  rewrite <- (map_map fst (fun name : JsString => name ++ " = ?")), Hnames, Hvals.
  destruct (update_statement_fields (present v1) (present v2) (present v3)
              (present v4) (present v5) (present v6))
    as (H1 & H2 & H3 & H4 & H5).
  cbv zeta in H1, H2, H3, H4, H5.
  unfold Memory.run at 1. unfold Memory.execute.
  rewrite H1, H2, H3, H4. cbn [andb].
  rewrite binding_before_last_app. fold tid. rewrite Htask.
  destruct (Memory.set_clause _) as [setClause|]; [|discriminate H5].
  cbn [fmap option_fmap option_map] in H5. injection H5 as H5. rewrite H5.
  rewrite assign_all_chosen. cbn [fst].
  rewrite first_task_by_id. cbn [Memory.tasks].
  rewrite JsMap_get_set by apply same_string.
  cbn [fmap option_fmap option_map].
  unfold put_result. rewrite !put_value_present. reflexivity.
Qed.

End DevelopmentProperties.

(** The database of the development environment once [u-1] has
    registered: the demo user with the demo task, and [u-1]. *)
Definition alice : MemoryUser.t :=
  {| MemoryUser.id := JStr "u-1"; MemoryUser.email := JStr "a@b.co";
     MemoryUser.password_hash := JStr "00"; MemoryUser.display_name := JStr "Alice";
     MemoryUser.created_at := "2024-01-02T00:00:00.000Z";
     MemoryUser.updated_at := "2024-01-02T00:00:00.000Z";
     MemoryUser.is_active := true |}.

Definition dev_db : Memory.Database :=
  {| Memory.users :=
       JsMap.set (JStr "u-1") alice
         (Memory.users (seedData "2024-01-01T00:00:00.000Z"));
     Memory.tasks := Memory.tasks (seedData "2024-01-01T00:00:00.000Z") |}.

Definition demo_task : MemoryTask.t :=
  {| MemoryTask.id := JStr "demo-task-1";
     MemoryTask.user_id := JStr "demo-user-1";
     MemoryTask.title := JStr "Welcome to TodoApp";
     MemoryTask.description :=
       JStr "This is your first task! Edit or delete it to get started.";
     MemoryTask.status := JStr "pending";
     MemoryTask.priority := JStr "medium";
     MemoryTask.due_date := JNull;
     MemoryTask.created_at := JStr "2024-01-01T00:00:00.000Z";
     MemoryTask.updated_at := JStr "2024-01-01T00:00:00.000Z";
     MemoryTask.order_index := JNum Number.Zero |}.

(** The cookie is the one of [u-1]; the task is the one of the demo
    user. *)
Lemma dev_delete_any_owner_witness :
  (@authenticateRequest_by sample_crypto json_codec _
     (dev_getUserById (fun _ => None) "2024-01-03T00:00:00.000Z" dev_db)
     (Some sample_cookie) "secret" 2000 = Some alice
   /\ JsMap.get (JStr "demo-task-1") (Memory.tasks dev_db) = Some demo_task)
  /\ @tasks_DELETE sample_crypto json_codec (fun _ => None)
       "2024-01-03T00:00:00.000Z" (Some sample_cookie) (Some ("demo-task-1" : JsString))
       "secret" 2000 dev_db
     = ({| Memory.users := Memory.users dev_db; Memory.tasks := [] |},
        {| task_status := 200;
           task_body := TaskMessage "Task deleted successfully" |}).
Proof.
  assert (Hauth : @authenticateRequest_by sample_crypto json_codec _
            (dev_getUserById (fun _ => None) "2024-01-03T00:00:00.000Z" dev_db)
            (Some sample_cookie) "secret" 2000 = Some alice)
    by (vm_compute; reflexivity).
  assert (Htask : JsMap.get (JStr "demo-task-1") (Memory.tasks dev_db)
                  = Some demo_task) by (vm_compute; reflexivity).
  split; [split; assumption|].
  destruct (@dev_delete_any_owner sample_crypto json_codec (fun _ => None)
              "2024-01-03T00:00:00.000Z" (Some sample_cookie) "demo-task-1"
              "secret" 2000 dev_db alice Hauth) as [H _]; [discriminate|].
  destruct (H demo_task Htask) as [-> _]. reflexivity.
Defined.

Lemma dev_put_applies_body_witness :
  @tasks_PUT sample_crypto json_codec (fun _ => None)
    "2024-01-03T00:00:00.000Z" (Some sample_cookie) (Some ("demo-task-1" : JsString))
    (Some {[ ("status" : JsString) := JStr "completed" ]}) "secret" 2000 dev_db
  = ({| Memory.users := Memory.users dev_db;
        Memory.tasks :=
          [(JStr "demo-task-1",
            {| MemoryTask.id := JStr "demo-task-1";
               MemoryTask.user_id := JStr "demo-user-1";
               MemoryTask.title := JStr "Welcome to TodoApp";
               MemoryTask.description :=
                 JStr "This is your first task! Edit or delete it to get started.";
               MemoryTask.status := JStr "completed";
               MemoryTask.priority := JStr "medium";
               MemoryTask.due_date := JNull;
               MemoryTask.created_at := JStr "2024-01-01T00:00:00.000Z";
               MemoryTask.updated_at := JStr "2024-01-03T00:00:00.000Z";
               MemoryTask.order_index := JNum Number.Zero |})] |},
     {| task_status := 200;
        task_body :=
          TaskObject
            (Some (Memory.TaskRow
               {| MemoryTask.id := JStr "demo-task-1";
                  MemoryTask.user_id := JStr "demo-user-1";
                  MemoryTask.title := JStr "Welcome to TodoApp";
                  MemoryTask.description :=
                    JStr "This is your first task! Edit or delete it to get started.";
                  MemoryTask.status := JStr "completed";
                  MemoryTask.priority := JStr "medium";
                  MemoryTask.due_date := JNull;
                  MemoryTask.created_at := JStr "2024-01-01T00:00:00.000Z";
                  MemoryTask.updated_at := JStr "2024-01-03T00:00:00.000Z";
                  MemoryTask.order_index := JNum Number.Zero |})) |}).
Proof.
  rewrite (@dev_put_applies_body sample_crypto json_codec (fun _ => None)
             "2024-01-03T00:00:00.000Z" (Some sample_cookie) "demo-task-1"
             "secret" {[ ("status" : JsString) := JStr "completed" ]} 2000 dev_db
             alice demo_task).
  - vm_compute. reflexivity.
  - vm_compute. reflexivity.
  - discriminate.
  - vm_compute. reflexivity.
Defined.
